(** * A meal-photo advisory application: storage routes, advisory client
      and interaction layer

    The development follows the three source files of the application:

    - the Express server with its two SQLite tables ([user_profile],
      [food_logs]) and four routes;
    - [geminiService.ts], the advisory client ([analyzeFoodImage],
      [getDailyRecommendation]);
    - [App.tsx], the interaction layer ([handleImageUpload], the
      recommendation effect, the tab views).

    JavaScript values are embedded as a small inductive type, exceptions
    as an outcome type, the database as a record of row lists and the
    React component as a state record driven by events. *)

From Stdlib Require Import ZArith String Ascii List Lia Bool DecimalString.
From stdpp Require Import base list strings sorting.

Set Warnings "-register-all".

Local Open Scope string_scope.
Local Open Scope Z_scope.

(** ** JavaScript values *)

Module JS.

(** The values that flow through the application: what [JSON.parse]
    produces, plus [undefined] (a missing property).  Numbers are the
    integers a double holds exactly ([Number.isSafeInteger]); strings are
    the UTF-8 bytes of the JavaScript string. *)
Inductive JValue : Type :=
| JUndefined
| JNull
| JBool (b : bool)
| JNum (n : Z)
| JStr (s : string)
| JArr (items : list JValue)
| JObj (props : list (string * JValue)).

Inductive JsError : Type :=
| SyntaxError      (* JSON.parse on text that is not JSON *)
| TypeError        (* property read on null, failed conversion, bad bind *)
| ProviderError.   (* the advisory provider call rejected *)

(** Outcome of an expression that may throw.  [Unmodelled] marks inputs on
    which the embedding makes no statement (numbers that are not safe
    integers, [\u] escapes, parsed objects with a key made of digits). *)
Inductive Res (A : Type) : Type :=
| Ok (a : A)
| Throw (e : JsError)
| Unmodelled.
Arguments Ok {A} a.
Arguments Throw {A} e.
Arguments Unmodelled {A}.

#[global] Instance Res_bind : MBind Res := fun A B (k : A -> Res B) (r : Res A) =>
  match r with
  | Ok a => k a
  | Throw e => Throw e
  | Unmodelled => Unmodelled
  end.

(** ToBoolean. *)
Definition truthy (v : JValue) : bool :=
  match v with
  | JUndefined | JNull => false
  | JBool b => b
  | JNum n => negb (n =? 0)
  | JStr s => negb (String.eqb s "")
  | JArr _ | JObj _ => true
  end.

(** [a || b] on values. *)
Definition or_else (a b : JValue) : JValue := if truthy a then a else b.

Fixpoint assoc (k : string) (props : list (string * JValue)) : option JValue :=
  match props with
  | [] => None
  | (k', v) :: rest => if String.eqb k k' then Some v else assoc k rest
  end.

(** Property read [v.k] for the data properties the application reads
    (none of them is inherited from a prototype): a [TypeError] on [null]
    and [undefined], the own property of an object, [undefined]
    otherwise. *)
Definition get (v : JValue) (k : string) : Res JValue :=
  match v with
  | JUndefined | JNull => Throw TypeError
  | JObj props => Ok (default JUndefined (assoc k props))
  | _ => Ok JUndefined
  end.

(** Destructuring and property reads on a value known to be an object. *)
Definition field (props : list (string * JValue)) (k : string) : JValue :=
  default JUndefined (assoc k props).

(** [obj[k] = v] as [JSON.parse] does it for a repeated key: the last value
    wins, the key keeps its place. *)
Fixpoint set_prop (k : string) (v : JValue) (props : list (string * JValue))
  : list (string * JValue) :=
  match props with
  | [] => [(k, v)]
  | (k', v') :: rest =>
      if String.eqb k k' then (k', v) :: rest else (k', v') :: set_prop k v rest
  end.

(** Decimal rendering of an integer, as [Number.prototype.toString]
    prints a safe integer. *)
Definition string_of_Z (n : Z) : string := NilZero.string_of_int (Z.to_int n).

Definition comma_join (parts : list string) : string :=
  match parts with
  | [] => ""
  | p :: ps => fold_left (fun acc q => acc ++ "," ++ q) ps p
  end.

(** ToString, as string concatenation applies it.  An object parsed from
    JSON prints as [[object Object]] through [Object.prototype.toString],
    unless an own (hence not callable) [toString] property shadows it; an
    array joins its elements, [null] and [undefined] printing as empty
    there. *)
Fixpoint to_string (v : JValue) : Res string :=
  match v with
  | JUndefined => Ok "undefined"
  | JNull => Ok "null"
  | JBool true => Ok "true"
  | JBool false => Ok "false"
  | JNum n => Ok (string_of_Z n)
  | JStr s => Ok s
  | JObj props =>
      match assoc "toString" props with
      | Some _ => Throw TypeError
      | None => Ok "[object Object]"
      end
  | JArr items =>
      parts ← (fix elems (l : list JValue) : Res (list string) :=
                  match l with
                  | [] => Ok []
                  | x :: l' =>
                      p ← match x with
                          | JUndefined | JNull => Ok ""
                          | _ => to_string x
                          end;
                      ps ← elems l';
                      Ok (p :: ps)
                  end) items;
      Ok (comma_join parts)
  end.

(** [a + b] where one operand is already a string. *)
Definition concat (a b : JValue) : Res JValue :=
  sa ← to_string a;
  sb ← to_string b;
  Ok (JStr (sa ++ sb)).

End JS.

(** ** JSON text *)

Module JSON.
Import JS.

Definition dquote : ascii := "034"%char.
Definition backslash : ascii := "092"%char.

(** JSON texts are written below with apostrophes where JSON has double
    quotes; [js] puts the double quotes back. *)
Fixpoint js (s : string) : string :=
  match s with
  | EmptyString => EmptyString
  | String c r => String (if (c =? "'")%char then dquote else c) (js r)
  end.

Definition is_ws (c : ascii) : bool :=
  (c =? " ")%char || (c =? "009")%char || (c =? "010")%char || (c =? "013")%char.

Definition is_digit (c : ascii) : bool :=
  let n := N_of_ascii c in ((48 <=? n) && (n <=? 57))%N.

Definition is_hex (c : ascii) : bool :=
  let n := N_of_ascii c in
  (((48 <=? n) && (n <=? 57)) || ((65 <=? n) && (n <=? 70))
   || ((97 <=? n) && (n <=? 102)))%N.

Fixpoint skip_ws (s : string) : string :=
  match s with
  | String c r => if is_ws c then skip_ws r else s
  | EmptyString => s
  end.

(** A parser step: what was read and the text left, a syntax error, or
    the end of the fuel.  What was read is an [option]: [None] stands
    for a well-formed piece whose value the embedding does not have (a
    number with a fraction or an exponent or beyond the safe integers, a
    string with a [\u] escape, an object with a key made of digits).  Parsing goes on after such a piece, so
    a syntax error further on is still found. *)
Inductive PRes (A : Type) : Type :=
| POk (a : A) (rest : string)
| PSyntax
| PFuel.
Arguments POk {A} a rest.
Arguments PSyntax {A}.
Arguments PFuel {A}.

(** The character a single-letter escape stands for. *)
Definition unescape (e : ascii) : option ascii :=
  if (e =? dquote)%char then Some dquote
  else if (e =? backslash)%char then Some backslash
  else if (e =? "/")%char then Some "/"%char
  else if (e =? "b")%char then Some "008"%char
  else if (e =? "f")%char then Some "012"%char
  else if (e =? "n")%char then Some "010"%char
  else if (e =? "r")%char then Some "013"%char
  else if (e =? "t")%char then Some "009"%char
  else None.

(** The characters of a string literal, after its opening quote, up to
    the closing one.  A control character, an unknown escape and a
    [\u] without four hexadecimal digits are syntax errors. *)
Fixpoint parse_chars (s : string) : PRes (option string) :=
  match s with
  | EmptyString => PSyntax
  | String c r =>
      if (c =? dquote)%char then POk (Some "") r
      else if (c =? backslash)%char then
        match r with
        | EmptyString => PSyntax
        | String e r' =>
            if (e =? "u")%char then
              match r' with
              | String h1 (String h2 (String h3 (String h4 r''))) =>
                  if is_hex h1 && is_hex h2 && is_hex h3 && is_hex h4
                  then match parse_chars r'' with
                       | POk _ rest => POk None rest
                       | PSyntax => PSyntax
                       | PFuel => PFuel
                       end
                  else PSyntax
              | _ => PSyntax
              end
            else
              match unescape e with
              | None => PSyntax
              | Some ch =>
                  match parse_chars r' with
                  | POk str rest => POk (option_map (String ch) str) rest
                  | PSyntax => PSyntax
                  | PFuel => PFuel
                  end
              end
        end
      else if (N_of_ascii c <? 32)%N then PSyntax
      else
        match parse_chars r with
        | POk str rest => POk (option_map (String c) str) rest
        | PSyntax => PSyntax
        | PFuel => PFuel
        end
  end.

(** The longest prefix of digits, as its value and its length. *)
Fixpoint span_digits (s : string) (acc : Z) (len : nat) : Z * nat * string :=
  match s with
  | String c r =>
      if is_digit c
      then span_digits r (10 * acc + (Z.of_N (N_of_ascii c) - 48)) (S len)
      else (acc, len, s)
  | EmptyString => (acc, len, s)
  end.

Definition starts_with (c : ascii) (s : string) : option string :=
  match s with
  | String c' r => if (c =? c')%char then Some r else None
  | EmptyString => None
  end.

Definition MAX_SAFE_INTEGER : Z := 9007199254740991.

(** A number literal: an optional minus sign, then [0] or a digit string
    that does not start with [0], then an optional fraction (a dot and at
    least one digit) and an optional exponent ([e] or [E], an optional
    sign, at least one digit).  Literals with a fraction or an exponent,
    and integers beyond the safe range, are well-formed JSON whose value
    is outside [JNum]; [-0] is read as [0], from which the application
    cannot tell it. *)
Definition parse_number (s : string) : PRes (option JValue) :=
  let '(neg, s1) := match starts_with "-" s with
                    | Some r => (true, r)
                    | None => (false, s)
                    end in
  let '(n, len, s2) := span_digits s1 0 0 in
  match len with
  | O => PSyntax
  | S _ =>
      if (match starts_with "0" s1 with Some _ => true | None => false end)
         && negb (Nat.eqb len 1)
      then PSyntax
      else
        let frac := match starts_with "." s2 with
                    | Some r =>
                        let '(_, flen, r') := span_digits r 0 0 in
                        match flen with
                        | O => None
                        | S _ => Some (true, r')
                        end
                    | None => Some (false, s2)
                    end in
        match frac with
        | None => PSyntax
        | Some (has_frac, s3) =>
            let after_e := match s3 with
                           | String c r =>
                               if (c =? "e")%char || (c =? "E")%char then Some r
                               else None
                           | EmptyString => None
                           end in
            match after_e with
            | Some r =>
                let r1 := match r with
                          | String c r' =>
                              if (c =? "+")%char || (c =? "-")%char then r' else r
                          | EmptyString => r
                          end in
                let '(_, elen, s4) := span_digits r1 0 0 in
                match elen with
                | O => PSyntax
                | S _ => POk None s4
                end
            | None =>
                if has_frac then POk None s3
                else if n <=? MAX_SAFE_INTEGER
                then POk (Some (JNum (if neg then - n else n))) s3
                else POk None s3
            end
        end
  end.

(** [s] without the [word] it starts with. *)
Fixpoint strip_prefix (word s : string) : option string :=
  match word with
  | EmptyString => Some s
  | String c word' =>
      match s with
      | String c' r => if (c =? c')%char then strip_prefix word' r else None
      | EmptyString => None
      end
  end.

Definition expect (word : string) (v : JValue) (s : string)
  : PRes (option JValue) :=
  match strip_prefix word s with
  | Some rest => POk (Some v) rest
  | None => PSyntax
  end.

(** An array or an object has a value when all its parts have one. *)
Definition add_item (acc : option (list JValue)) (v : option JValue)
  : option (list JValue) :=
  match acc, v with
  | Some l, Some x => Some (l ++ [x])%list
  | _, _ => None
  end.

(** JavaScript lists the properties whose key is an array index before
    the others, in numeric order.  Every key made of digits is taken for
    one, and an object with such a key is left out of the embedding. *)
Fixpoint all_digits (s : string) : bool :=
  match s with
  | EmptyString => true
  | String c r => is_digit c && all_digits r
  end.

Definition index_like (k : string) : bool :=
  negb (String.eqb k "") && all_digits k.

Definition add_member (acc : option (list (string * JValue)))
    (key : option string) (v : option JValue)
  : option (list (string * JValue)) :=
  match acc, key, v with
  | Some l, Some k, Some x => if index_like k then None else Some (set_prop k x l)
  | _, _, _ => None
  end.

(** Recursive descent over values, object members and array elements.
    The fuel bounds the depth of the calls; [JSON_parse] supplies twice
    the length of the text and one more, which is never used up.  The
    properties of an object are kept in the order of the text, a
    repeated key keeping its first place and its last value. *)
Fixpoint parse_value (fuel : nat) (s : string) : PRes (option JValue) :=
  match fuel with
  | O => PFuel
  | S fuel' =>
      match skip_ws s with
      | EmptyString => PSyntax
      | String c r =>
          if (c =? "{")%char then
            match starts_with "}" (skip_ws r) with
            | Some rest => POk (Some (JObj [])) rest
            | None => parse_members fuel' (skip_ws r) (Some [])
            end
          else if (c =? "[")%char then
            match starts_with "]" (skip_ws r) with
            | Some rest => POk (Some (JArr [])) rest
            | None => parse_elements fuel' r (Some [])
            end
          else if (c =? dquote)%char then
            match parse_chars r with
            | POk str rest => POk (option_map JStr str) rest
            | PSyntax => PSyntax
            | PFuel => PFuel
            end
          else if (c =? "t")%char then expect "true" (JBool true) (String c r)
          else if (c =? "f")%char then expect "false" (JBool false) (String c r)
          else if (c =? "n")%char then expect "null" JNull (String c r)
          else if (c =? "-")%char || is_digit c then parse_number (String c r)
          else PSyntax
      end
  end

with parse_members (fuel : nat) (s : string)
    (acc : option (list (string * JValue))) : PRes (option JValue) :=
  match fuel with
  | O => PFuel
  | S fuel' =>
      match starts_with dquote s with
      | None => PSyntax
      | Some r =>
          match parse_chars r with
          | PSyntax => PSyntax
          | PFuel => PFuel
          | POk key r1 =>
              match starts_with ":" (skip_ws r1) with
              | None => PSyntax
              | Some r2 =>
                  match parse_value fuel' r2 with
                  | PSyntax => PSyntax
                  | PFuel => PFuel
                  | POk v r3 =>
                      let acc' := add_member acc key v in
                      match skip_ws r3 with
                      | String c r4 =>
                          if (c =? ",")%char then parse_members fuel' (skip_ws r4) acc'
                          else if (c =? "}")%char then POk (option_map JObj acc') r4
                          else PSyntax
                      | EmptyString => PSyntax
                      end
                  end
              end
          end
      end
  end

with parse_elements (fuel : nat) (s : string) (acc : option (list JValue))
  : PRes (option JValue) :=
  match fuel with
  | O => PFuel
  | S fuel' =>
      match parse_value fuel' s with
      | PSyntax => PSyntax
      | PFuel => PFuel
      | POk v r1 =>
          let acc' := add_item acc v in
          match skip_ws r1 with
          | String c r2 =>
              if (c =? ",")%char then parse_elements fuel' r2 acc'
              else if (c =? "]")%char then POk (option_map JArr acc') r2
              else PSyntax
          | EmptyString => PSyntax
          end
      end
  end.

(** [JSON.parse(text)]: one value, surrounded by white space only.  A
    text that is not JSON throws; a text that is JSON gives its value,
    when the embedding has it. *)
Definition JSON_parse (text : string) : Res JValue :=
  match parse_value (S (2 * String.length text)) text with
  | POk v rest =>
      match skip_ws rest with
      | EmptyString =>
          match v with
          | Some x => Ok x
          | None => Unmodelled
          end
      | String _ _ => Throw SyntaxError
      end
  | PSyntax => Throw SyntaxError
  | PFuel => Unmodelled
  end.

End JSON.


(** ** [JSON.stringify] *)

Module Stringify.
Import JS JSON.

Definition hex_digit (n : N) : ascii :=
  ascii_of_N (if (n <? 10)%N then 48 + n else 87 + n)%N.

(** How [JSON.stringify] writes one character of a string. *)
Definition quote_char (c : ascii) : string :=
  if (c =? dquote)%char then String backslash (String dquote "")
  else if (c =? backslash)%char then String backslash (String backslash "")
  else if (c =? "008")%char then String backslash "b"
  else if (c =? "012")%char then String backslash "f"
  else if (c =? "010")%char then String backslash "n"
  else if (c =? "013")%char then String backslash "r"
  else if (c =? "009")%char then String backslash "t"
  else if (N_of_ascii c <? 32)%N then
    String backslash
      (String "u" (String "0" (String "0"
         (String (hex_digit (N_of_ascii c / 16))
            (String (hex_digit (N_of_ascii c mod 16)) "")))))
  else String c "".

Fixpoint quote_chars (s : string) : string :=
  match s with
  | EmptyString => ""
  | String c r => quote_char c ++ quote_chars r
  end.

Definition quote (s : string) : string :=
  String dquote (quote_chars s ++ String dquote "").

(** [JSON.stringify(v)]; [None] is the [undefined] it returns for
    [undefined].  A property whose value is [undefined] is left out of an
    object; in an array it is written [null]. *)
Fixpoint JSON_stringify (v : JValue) : option string :=
  match v with
  | JUndefined => None
  | JNull => Some "null"
  | JBool true => Some "true"
  | JBool false => Some "false"
  | JNum n => Some (string_of_Z n)
  | JStr s => Some (quote s)
  | JArr items =>
      Some ("[" ++ comma_join
                     ((fix elems (l : list JValue) : list string :=
                         match l with
                         | [] => []
                         | x :: l' => default "null" (JSON_stringify x) :: elems l'
                         end) items) ++ "]")
  | JObj props =>
      Some ("{" ++ comma_join
                     ((fix members (l : list (string * JValue)) : list string :=
                         match l with
                         | [] => []
                         | (k, x) :: l' =>
                             match JSON_stringify x with
                             | Some t => (quote k ++ ":" ++ t) :: members l'
                             | None => members l'
                             end
                         end) props) ++ "}")
  end.

(** What the receiver reads back from the text: the same value, without
    the properties that were [undefined]. *)
Fixpoint sent_props (props : list (string * JValue)) : list (string * JValue) :=
  match props with
  | [] => []
  | (k, JUndefined) :: rest => sent_props rest
  | (k, v) :: rest => (k, v) :: sent_props rest
  end.

End Stringify.

(** ** The server: two tables and four routes *)

Module Server.
Import JS JSON Stringify.

(** A value stored in a column. *)
Inductive SqlValue : Type :=
| SqlNull
| SqlInt (n : Z)
| SqlText (s : string).

(** [user_profile (id INTEGER PRIMARY KEY CHECK (id = 1), age INTEGER,
    condition TEXT)]. *)
Record ProfileRow : Type := {
  profile_id : Z;
  age : SqlValue;
  condition : SqlValue
}.

(** [food_logs (id INTEGER PRIMARY KEY AUTOINCREMENT, image_url TEXT,
    food_name TEXT, analysis TEXT, is_safe BOOLEAN, created_at DATETIME
    DEFAULT CURRENT_TIMESTAMP)].  [created_at] is only ever written by its
    default, the text [YYYY-MM-DD HH:MM:SS]. *)
Record FoodLogRow : Type := {
  log_id : Z;
  image_url : SqlValue;
  food_name : SqlValue;
  analysis : SqlValue;
  is_safe : SqlValue;
  created_at : string
}.

(** The database file: both tables in rowid order, and the
    AUTOINCREMENT counter of [food_logs]. *)
Record Db : Type := {
  user_profile : list ProfileRow;
  food_logs : list FoodLogRow;
  food_logs_seq : Z
}.

(** What the driver accepts as a bound parameter: numbers, strings,
    [null] and [undefined], the last two bound as NULL; a boolean raises
    a [TypeError].  An array or an object in parameter position, which
    the driver reads as a list of parameters, is outside the
    embedding. *)
Definition bind_param (v : JValue) : Res SqlValue :=
  match v with
  | JNull | JUndefined => Ok SqlNull
  | JNum n => Ok (SqlInt n)
  | JStr s => Ok (SqlText s)
  | JBool _ => Throw TypeError
  | JArr _ | JObj _ => Unmodelled
  end.

(** Column affinity.  A TEXT column stores texts and NULL as they are; an
    INTEGER or NUMERIC column stores integers and NULL as they are.  The
    conversions SQLite applies to a number bound to a TEXT column, or to a
    text bound to an INTEGER column, are outside the embedding. *)
Definition text_affinity (v : SqlValue) : Res SqlValue :=
  match v with
  | SqlInt _ => Unmodelled
  | _ => Ok v
  end.

Definition integer_affinity (v : SqlValue) : Res SqlValue :=
  match v with
  | SqlText _ => Unmodelled
  | _ => Ok v
  end.

Definition sql_to_js (v : SqlValue) : JValue :=
  match v with
  | SqlNull => JNull
  | SqlInt n => JNum n
  | SqlText s => JStr s
  end.

Definition profile_to_js (r : ProfileRow) : JValue :=
  JObj [("id", JNum (profile_id r)); ("age", sql_to_js (age r));
        ("condition", sql_to_js (condition r))].

Definition log_to_js (r : FoodLogRow) : JValue :=
  JObj [("id", JNum (log_id r)); ("image_url", sql_to_js (image_url r));
        ("food_name", sql_to_js (food_name r));
        ("analysis", sql_to_js (analysis r));
        ("is_safe", sql_to_js (is_safe r));
        ("created_at", JStr (created_at r))].

(** *** GET /api/profile *)

(** [SELECT * FROM user_profile WHERE id = 1], then [.get()]: the first
    matching row, if any. *)
Definition select_profile (db : Db) : option ProfileRow :=
  List.find (fun r => profile_id r =? 1) (user_profile db).

(** [res.json(profile || {})]. *)
Definition get_profile (db : Db) : JValue :=
  match select_profile db with
  | Some r => profile_to_js r
  | None => JObj []
  end.

(** *** POST /api/profile *)

(** [INSERT INTO user_profile (id, age, condition) VALUES (1, ?, ?)
    ON CONFLICT(id) DO UPDATE SET age = excluded.age,
    condition = excluded.condition]. *)
Fixpoint upsert_profile (a c : SqlValue) (rows : list ProfileRow)
  : list ProfileRow :=
  match rows with
  | [] => [ {| profile_id := 1; age := a; condition := c |} ]
  | r :: rest =>
      if profile_id r =? 1
      then {| profile_id := profile_id r; age := a; condition := c |} :: rest
      else r :: upsert_profile a c rest
  end.

(** The route on the parsed request body.  [Ok] is the reply
    [{success: true}]; a throw leaves the database as it was and becomes
    the framework's error reply. *)
Definition post_profile (body : JValue) (db : Db) : Res Db :=
  a ← get body "age";
  c ← get body "condition";
  a' ← bind_param a;
  c' ← bind_param c;
  a'' ← integer_affinity a';
  c'' ← text_affinity c';
  Ok {| user_profile := upsert_profile a'' c'' (user_profile db);
        food_logs := food_logs db;
        food_logs_seq := food_logs_seq db |}.

(** *** GET /api/logs *)

(** [r1] may come before [r2] under [ORDER BY created_at DESC]; texts
    compare byte by byte. *)
Definition created_desc (r1 r2 : FoodLogRow) : Prop :=
  (created_at r2 <=? created_at r1)%string = true.

(** The sort behind [ORDER BY]: a row goes before the first row that
    is no newer than it, so rows with the same timestamp stay in table
    order. *)
Fixpoint insert_log (r : FoodLogRow) (rows : list FoodLogRow)
  : list FoodLogRow :=
  match rows with
  | [] => [r]
  | r' :: rows' =>
      if (created_at r' <=? created_at r)%string then r :: rows
      else r' :: insert_log r rows'
  end.

Definition order_by_created_desc (rows : list FoodLogRow) : list FoodLogRow :=
  fold_right insert_log [] rows.

(** [SELECT * FROM food_logs ORDER BY created_at DESC LIMIT 50]. *)
Definition select_logs (db : Db) : list FoodLogRow :=
  take 50 (order_by_created_desc (food_logs db)).

(** The route: the elements of the JSON array it replies with, and the
    database after it. *)
Definition get_logs (db : Db) : list JValue * Db :=
  (map log_to_js (select_logs db), db).

(** *** POST /api/logs *)

(** The id AUTOINCREMENT assigns: one more than the largest id ever
    used. *)
Definition next_log_id (db : Db) : Z :=
  1 + fold_right Z.max (food_logs_seq db) (map log_id (food_logs db)).

(** [INSERT INTO food_logs (image_url, food_name, analysis, is_safe)
    VALUES (?, ?, ?, ?)] run with
    [(image_url, food_name, analysis, is_safe ? 1 : 0)]; [now] is
    CURRENT_TIMESTAMP. *)
Definition post_logs (now : string) (body : JValue) (db : Db) : Res Db :=
  u ← get body "image_url";
  f ← get body "food_name";
  a ← get body "analysis";
  s ← get body "is_safe";
  u' ← bind_param u;
  f' ← bind_param f;
  a' ← bind_param a;
  u'' ← text_affinity u';
  f'' ← text_affinity f';
  a'' ← text_affinity a';
  let row := {| log_id := next_log_id db;
                image_url := u'';
                food_name := f'';
                analysis := a'';
                is_safe := SqlInt (if truthy s then 1 else 0);
                created_at := now |} in
  Ok {| user_profile := user_profile db;
        food_logs := food_logs db ++ [row];
        food_logs_seq := next_log_id db |}.

(** *** The JSON body parser in front of the routes *)

(** [express.json({ limit: '10mb' })]. *)
Definition body_limit : Z := 10 * 1024 * 1024.

(** A POST of [JSON.stringify(body)] for an object [body]: a text longer
    than the limit is refused before the route runs; otherwise the route
    receives the value the text denotes.  Whatever the reply, the
    database afterwards is the result. *)
Definition http_post (route : JValue -> Db -> Res Db)
    (body : list (string * JValue)) (db : Db) : option Db :=
  match JSON_stringify (JObj body) with
  | None => None
  | Some text =>
      if Z.of_nat (String.length text) <=? body_limit
      then match route (JObj (sent_props body)) db with
           | Ok db' => Some db'
           | Throw _ => Some db
           | Unmodelled => None
           end
      else Some db
  end.

(** *** Vocabulary for the statements about the routes *)

(** The rows written at [t], in the order of the list. *)
Definition written_at (t : string) (rows : list FoodLogRow) : list FoodLogRow :=
  List.filter (fun r => String.eqb (created_at r) t) rows.

(** The constraints of [user_profile]: [CHECK (id = 1)] on every row and
    the primary key, so no two rows share an id. *)
Definition profile_table_ok (rows : list ProfileRow) : Prop :=
  Forall (fun r => profile_id r = 1) rows /\ NoDup (map profile_id rows).

(** The request body [{age: a, condition: c}]. *)
Definition profile_body (a : Z) (c : string) : JValue :=
  JObj [("age", JNum a); ("condition", JStr c)].

(** A sequence of POSTs to [/api/profile], oldest first. *)
Fixpoint save_all (calls : list (Z * string)) (d : Db) : Res Db :=
  match calls with
  | [] => Ok d
  | (a, c) :: rest => d' ← post_profile (profile_body a c) d; save_all rest d'
  end.

End Server.

(** ** The advisory client *)

Module Advisory.
Import JS JSON Stringify.

(** The schema language of the provider SDK, as far as the client uses
    it. *)
Inductive SchemaType : Type := OBJECT | STRING | BOOLEAN.

Inductive Schema : Type :=
  mkSchema (type : SchemaType) (properties : list (string * Schema))
           (required : list string).

Definition type (s : Schema) : SchemaType :=
  match s with mkSchema t _ _ => t end.
Definition properties (s : Schema) : list (string * Schema) :=
  match s with mkSchema _ p _ => p end.
Definition required (s : Schema) : list string :=
  match s with mkSchema _ _ r => r end.

(** [{ type: t }]. *)
Definition plain (t : SchemaType) : Schema := mkSchema t [] [].

Inductive Part : Type :=
| text (t : string)
| inlineData (mimeType data : string).

Record Config : Type := {
  responseMimeType : string;
  responseSchema : Schema
}.

(** The argument of [ai.models.generateContent]. *)
Record Request : Type := {
  model : string;
  contents : list (list Part);
  config : Config
}.

(** What the provider call comes back with: the promise rejects, or it
    resolves to a response whose [text] is a string or [undefined]. *)
Inductive ProviderReply : Type :=
| rejects
| responds (response_text : option string).

Definition nl : string := String "010"%char "".

(** [base64Image.split(",")]. *)
Fixpoint split_comma (s : string) : list string :=
  match s with
  | EmptyString => [""]
  | String c r =>
      if (c =? ",")%char then "" :: split_comma r
      else match split_comma r with
           | p :: ps => String c p :: ps
           | [] => [String c ""]
           end
  end.

(** [base64Image.split(",")[1] || base64Image]. *)
Definition image_data (base64Image : string) : string :=
  match split_comma base64Image with
  | _ :: p :: _ => if String.eqb p "" then base64Image else p
  | _ => base64Image
  end.

Definition analyze_prompt (age condition : string) : string :=
  nl ++ "    당신은 노인 영양 전문가입니다. 사용자의 나이는 " ++ age
     ++ "세이며, 앓고 있는 질환은 " ++ String dquote condition
     ++ String dquote "입니다." ++ nl
     ++ "    첨부된 음식 사진을 분석하여 다음 정보를 JSON 형식으로 제공해주세요:" ++ nl
     ++ "    1. foodName: 음식 이름" ++ nl
     ++ "    2. isSafe: 당뇨 환자가 먹기에 안전한지 여부 (boolean)" ++ nl
     ++ "    3. analysis: 왜 안전한지 또는 주의해야 하는지에 대한 상세 설명 (할머니가 이해하기 쉽게 따뜻하고 친절한 말투로)" ++ nl
     ++ "    4. tips: 더 건강하게 먹을 수 있는 팁" ++ nl ++ "  ".

Definition analyzeFoodImage_config : Config :=
  {| responseMimeType := "application/json";
     responseSchema :=
       mkSchema OBJECT
         [("foodName", plain STRING);
          ("isSafe", plain BOOLEAN);
          ("analysis", plain STRING);
          ("tips", plain STRING)]
         ["foodName"; "isSafe"; "analysis"; "tips"] |}.

(** The request [analyzeFoodImage] sends.  It throws before sending when
    [base64Image] is [null] (a failed file read), on [.split], or when an
    argument cannot be printed into the prompt. *)
Definition analyzeFoodImage_request (base64Image : option string)
    (age condition : JValue) : Res Request :=
  a ← to_string age;
  c ← to_string condition;
  match base64Image with
  | None => Throw TypeError
  | Some b =>
      Ok {| model := "gemini-3-flash-preview";
            contents := [[text (analyze_prompt a c);
                          inlineData "image/jpeg" (image_data b)]];
            config := analyzeFoodImage_config |}
  end.

(** [return JSON.parse(response.text || "{}")], the last line of both
    functions. *)
Definition parse_reply (reply : ProviderReply) : Res JValue :=
  match reply with
  | rejects => Throw ProviderError
  | responds t =>
      JSON_parse (match t with
                  | Some s => if String.eqb s "" then "{}" else s
                  | None => "{}"
                  end)
  end.

(** [analyzeFoodImage], with the provider as the function answering the
    request. *)
Definition analyzeFoodImage (provider : Request -> ProviderReply)
    (base64Image : option string) (age condition : JValue) : Res JValue :=
  req ← analyzeFoodImage_request base64Image age condition;
  parse_reply (provider req).

Definition recommendation_prompt (logs age condition : string) : string :=
  nl ++ "    사용자의 최근 식사 기록: " ++ logs ++ nl
     ++ "    사용자 정보: " ++ age ++ "세, 질환: " ++ condition ++ nl
     ++ "    " ++ nl
     ++ "    사용자의 식사 패턴을 분석하여 오늘 추천하는 식단이나 건강 조언을 한 문장으로 따뜻하게 알려주세요." ++ nl
     ++ "    예: " ++ String dquote "어제는 고기를 많이 드셨으니 오늘은 신선한 나물 비빔밥을 드셔보시는 건 어떨까요?"
     ++ String dquote "" ++ nl
     ++ "    형식: JSON { " ++ String dquote "recommendation" ++ String dquote ": "
     ++ String dquote "..." ++ String dquote " }" ++ nl ++ "  ".

Definition getDailyRecommendation_config : Config :=
  {| responseMimeType := "application/json";
     responseSchema :=
       mkSchema OBJECT [("recommendation", plain STRING)] ["recommendation"] |}.

Definition getDailyRecommendation_request (logs : list JValue)
    (age condition : JValue) : Res Request :=
  a ← to_string age;
  c ← to_string condition;
  Ok {| model := "gemini-3-flash-preview";
        contents := [[text (recommendation_prompt
                              (default "" (JSON_stringify (JArr logs))) a c)]];
        config := getDailyRecommendation_config |}.

Definition getDailyRecommendation (provider : Request -> ProviderReply)
    (logs : list JValue) (age condition : JValue) : Res JValue :=
  req ← getDailyRecommendation_request logs age condition;
  parse_reply (provider req).

(** *** Vocabulary for the statements about the requests *)

(** The contract of the meal analysis: four fields, all required. *)
Definition meal_contract : list (string * SchemaType) :=
  [("foodName", STRING); ("isSafe", BOOLEAN); ("analysis", STRING);
   ("tips", STRING)].

(** The contract of the daily recommendation: one field. *)
Definition recommendation_contract : list (string * SchemaType) :=
  [("recommendation", STRING)].

(** A schema matches a contract when it is an object schema whose
    properties are exactly the contract's fields, each a plain schema of
    the contract's type, and whose required list names exactly those
    fields. *)
Definition matches_contract (fields : list (string * SchemaType)) (s : Schema)
  : Prop :=
  type s = OBJECT
  /\ map (fun kv => (kv.1, type kv.2)) (properties s) ≡ₚ fields
  /\ Forall (fun kv => properties kv.2 = [] /\ required kv.2 = []) (properties s)
  /\ NoDup (map fst (properties s))
  /\ required s ≡ₚ map fst fields.

End Advisory.

(** ** The interaction layer *)

Module App.
Import JS JSON Stringify Server Advisory.
Local Open Scope list_scope.

Inductive Tab : Type := home | analyze | history | profile_tab.

(** The state hooks of the component. *)
Record AppState : Type := {
  activeTab : Tab;
  profile : JValue;
  logs : list JValue;
  recommendation : JValue;
  loading : bool;
  analysisResult : JValue
}.

Definition initial : AppState :=
  {| activeTab := home; profile := JObj []; logs := [];
     recommendation := JStr ""; loading := false; analysisResult := JNull |}.

Definition setActiveTab (t : Tab) (st : AppState) : AppState :=
  {| activeTab := t; profile := profile st; logs := logs st;
     recommendation := recommendation st; loading := loading st;
     analysisResult := analysisResult st |}.

Definition setProfile (p : JValue) (st : AppState) : AppState :=
  {| activeTab := activeTab st; profile := p; logs := logs st;
     recommendation := recommendation st; loading := loading st;
     analysisResult := analysisResult st |}.

Definition setLogs (l : list JValue) (st : AppState) : AppState :=
  {| activeTab := activeTab st; profile := profile st; logs := l;
     recommendation := recommendation st; loading := loading st;
     analysisResult := analysisResult st |}.

Definition setRecommendation (r : JValue) (st : AppState) : AppState :=
  {| activeTab := activeTab st; profile := profile st; logs := logs st;
     recommendation := r; loading := loading st;
     analysisResult := analysisResult st |}.

Definition setLoading (b : bool) (st : AppState) : AppState :=
  {| activeTab := activeTab st; profile := profile st; logs := logs st;
     recommendation := recommendation st; loading := b;
     analysisResult := analysisResult st |}.

Definition setAnalysisResult (r : JValue) (st : AppState) : AppState :=
  {| activeTab := activeTab st; profile := profile st; logs := logs st;
     recommendation := recommendation st; loading := loading st;
     analysisResult := r |}.

(** A chosen file, as far as the application looks at it: what
    [readAsDataURL] leaves in [reader.result], a data URL, or [null] when
    the read fails. *)
Record File : Type := { data_url : option string }.

(** Which advisory function issued a provider call. *)
Inductive AdvisoryCall : Type :=
| analyzeFoodImage_call (req : Request)
| getDailyRecommendation_call (req : Request).

(** What the component does to the outside, in order. *)
Inductive Output : Type :=
| alert (msg : string)
| console_error (e : JsError)
| advisory (call : AdvisoryCall).

(** The asynchronous operations a handler leaves in flight, each with
    what its continuation closes over. *)
Inductive Task : Type :=
| reading (file : File) (closure_profile : JValue)
| analysing (base64 : string) (req : Request)
| posting_log (body : list (string * JValue))
| fetching_logs
| fetching_profile
| recommending (req : Request)
| saving_profile (body : JValue).

Definition profile_first : string :=
  "먼저 내 정보에서 나이와 건강 상태를 입력해주세요!".
Definition analysis_failed : string := "분석 중 오류가 발생했습니다.".
Definition tip_separator : string := (nl ++ nl ++ "팁: ")%string.

(** *** [handleImageUpload] *)

(** The synchronous part, up to [reader.readAsDataURL(file)]: the new
    state, the outputs and the read it starts, if any. *)
Definition handleImageUpload (file : option File) (st : AppState)
  : Res (AppState * list Output * option Task) :=
  match file with
  | None => Ok (st, [], None)
  | Some f =>
      let redirect := Ok (setActiveTab profile_tab st, [alert profile_first], None) in
      a ← get (profile st) "age";
      if negb (truthy a) then redirect
      else
        c ← get (profile st) "condition";
        if negb (truthy c) then redirect
        else Ok (setAnalysisResult JNull (setLoading true st), [],
                 Some (reading f (profile st)))
  end.

(** [catch (error) { console.error(error); alert(...) }
    finally { setLoading(false) }]. *)
Definition caught (e : JsError) (st : AppState)
  : AppState * list Output * option Task :=
  (setLoading false st, [console_error e; alert analysis_failed], None).

(** [reader.onloadend], up to the provider call inside
    [analyzeFoodImage]. *)
Definition onloadend (f : File) (closure_profile : JValue) (st : AppState)
  : option (AppState * list Output * option Task) :=
  match
    (a ← get closure_profile "age";
     c ← get closure_profile "condition";
     req ← analyzeFoodImage_request (data_url f) a c;
     Ok (req, default "" (data_url f)))
  with
  | Ok (req, b) =>
      Some (st, [advisory (analyzeFoodImage_call req)], Some (analysing b req))
  | Throw e => Some (caught e st)
  | Unmodelled => None
  end.

(** The body of the POST to [/api/logs]. *)
Definition log_body (base64 : string) (result : JValue)
  : Res (list (string * JValue)) :=
  fn ← get result "foodName";
  an ← get result "analysis";
  an' ← concat an (JStr tip_separator);
  tp ← get result "tips";
  an'' ← concat an' tp;
  sf ← get result "isSafe";
  Ok [("image_url", JStr base64); ("food_name", fn); ("analysis", an'');
      ("is_safe", sf)].

(** From the provider's reply to the POST. *)
Definition analysed (base64 : string) (reply : ProviderReply) (st : AppState)
  : option (AppState * list Output * option Task) :=
  match parse_reply reply with
  | Ok result =>
      let st' := setAnalysisResult result st in
      match log_body base64 result with
      | Ok body => Some (st', [], Some (posting_log body))
      | Throw e => Some (caught e st')
      | Unmodelled => None
      end
  | Throw e => Some (caught e st)
  | Unmodelled => None
  end.

(** After the POST has been answered: [fetchLogs()] is started, then the
    [finally] block runs. *)
Definition posted (st : AppState) : AppState * list Output * list Task :=
  (setLoading false st, [], [fetching_logs]).

(** *** The recommendation effect and [fetchRecommendation] *)

(** [fetchRecommendation], up to the provider call inside
    [getDailyRecommendation]: the request for the five most recent logs,
    or [console.error] when it cannot be built. *)
Definition fetchRecommendation (st : AppState)
  : option (list Output * list Task) :=
  match
    (a ← get (profile st) "age";
     c ← get (profile st) "condition";
     getDailyRecommendation_request (take 5 (logs st)) a c)
  with
  | Ok req =>
      Some ([advisory (getDailyRecommendation_call req)], [recommending req])
  | Throw e => Some ([console_error e], [])
  | Unmodelled => None
  end.

(** [useEffect(() => { if (profile.age && logs.length > 0)
    fetchRecommendation() }, [profile, logs])], run after [profile] or
    [logs] was set. *)
Definition recommendation_effect (st : AppState)
  : option (list Output * list Task) :=
  match get (profile st) "age" with
  | Ok a =>
      if truthy a && negb (Nat.eqb (length (logs st)) 0)
      then fetchRecommendation st
      else Some ([], [])
  | _ => None
  end.

(** The rest of [fetchRecommendation], once the provider has replied:
    [setRecommendation(data.recommendation)], or [console.error]. *)
Definition recommended (reply : ProviderReply) (st : AppState)
  : option (AppState * list Output) :=
  match (data ← parse_reply reply; get data "recommendation") with
  | Ok r => Some (setRecommendation r st, [])
  | Throw e => Some (st, [console_error e])
  | Unmodelled => None
  end.

(** *** The component with its server, as a transition system *)

Record World : Type := {
  app : AppState;
  db : Db;
  tasks : list Task
}.

(** The first render and the mount effect ([fetchProfile(); fetchLogs()]);
    the recommendation effect finds no age. *)
Definition mount (d : Db) : World :=
  {| app := initial; db := d; tasks := [fetching_profile; fetching_logs] |}.

Inductive Event : Type :=
| change (file : option File)             (* the file input's onChange *)
| click_tab (t : Tab)                     (* the three tab buttons *)
| select_age (a : Z)                      (* an age button *)
| select_condition (c : string)           (* a condition button *)
| submit_profile                          (* the profile form's onSubmit *)
| dismiss_result                          (* the Home icon of the result view *)
| confirm_result                          (* the button under the result *)
| loadend (i : nat)                       (* task i, a read, has ended *)
| provider_reply (i : nat) (reply : ProviderReply)
| http_reply (i : nat) (now : string)     (* task i, a fetch, was served at now *)
| fetch_fails (i : nat) (served : option string).
    (* the fetch of task i rejects; with [Some now] the server had served
       the request at now and its response was lost *)

(** Run the recommendation effect on the state just produced. *)
Definition with_effect (st : AppState) (d : Db) (ts : list Task)
    (outs : list Output) : option (World * list Output) :=
  match recommendation_effect st with
  | Some (outs', ts') =>
      Some ({| app := st; db := d; tasks := ts ++ ts' |}, outs ++ outs')
  | None => None
  end.

(** [{ ...profile, k: v }]: the own properties of [profile], then [k].
    Spreading [null], [undefined], a number or a boolean adds nothing;
    spreading a string or an array (its indices) is outside the
    embedding. *)
Definition spread_with (p : JValue) (k : string) (v : JValue) : option JValue :=
  match p with
  | JObj props => Some (JObj (set_prop k v props))
  | JStr _ | JArr _ => None
  | _ => Some (JObj [(k, v)])
  end.

(** Task [i] is over; its continuation left [next] behind. *)
Definition continue (i : nat) (next : option Task) (ts : list Task) : list Task :=
  match next with
  | Some t => <[i := t]> ts
  | None => delete i ts
  end.

(** The database after a fetch that rejected: untouched when the
    request never arrived, as the route left it when only the response
    was lost. *)
Definition lost_response (serve : string -> Db -> option Db)
    (served : option string) (d : Db) : option Db :=
  match served with
  | Some now => serve now d
  | None => Some d
  end.

(** One event.  [None] marks an event that addresses no pending task of
    its kind, or an input outside the embedding. *)
Definition step (e : Event) (w : World) : option (World * list Output) :=
  let st := app w in
  match e with
  | change file =>
      match handleImageUpload file st with
      | Ok (st', outs, next) =>
          Some ({| app := st'; db := db w;
                   tasks := tasks w ++ option_list next |}, outs)
      | Throw e => Some (w, [console_error e])
      | Unmodelled => None
      end
  | click_tab t =>
      Some ({| app := setActiveTab t st; db := db w; tasks := tasks w |}, [])
  | select_age a =>
      match spread_with (profile st) "age" (JNum a) with
      | Some p => with_effect (setProfile p st) (db w) (tasks w) []
      | None => None
      end
  | select_condition c =>
      match spread_with (profile st) "condition" (JStr c) with
      | Some p => with_effect (setProfile p st) (db w) (tasks w) []
      | None => None
      end
  | submit_profile =>
      Some ({| app := st; db := db w;
               tasks := tasks w ++ [saving_profile (profile st)] |}, [])
  | dismiss_result =>
      Some ({| app := setActiveTab home (setAnalysisResult JNull st);
               db := db w; tasks := tasks w |}, [])
  | confirm_result =>
      Some ({| app := setActiveTab home st; db := db w; tasks := tasks w |}, [])
  | loadend i =>
      match tasks w !! i with
      | Some (reading f p) =>
          match onloadend f p st with
          | Some (st', outs, next) =>
              Some ({| app := st'; db := db w;
                       tasks := continue i next (tasks w) |}, outs)
          | None => None
          end
      | _ => None
      end
  | provider_reply i reply =>
      match tasks w !! i with
      | Some (analysing b _) =>
          match analysed b reply st with
          | Some (st', outs, next) =>
              Some ({| app := st'; db := db w;
                       tasks := continue i next (tasks w) |}, outs)
          | None => None
          end
      | Some (recommending _) =>
          match recommended reply st with
          | Some (st', outs) =>
              Some ({| app := st'; db := db w; tasks := delete i (tasks w) |}, outs)
          | None => None
          end
      | _ => None
      end
  | http_reply i now =>
      match tasks w !! i with
      | Some (posting_log body) =>
          match http_post (post_logs now) body (db w) with
          | Some d' =>
              let '(st', outs, ts') := posted st in
              Some ({| app := st'; db := d'; tasks := delete i (tasks w) ++ ts' |},
                    outs)
          | None => None
          end
      | Some fetching_logs =>
          let '(data, d') := get_logs (db w) in
          with_effect (setLogs data st) d' (delete i (tasks w)) []
      | Some fetching_profile =>
          with_effect (setProfile (get_profile (db w)) st) (db w)
                      (delete i (tasks w)) []
      | Some (saving_profile body) =>
          match body with
          | JObj props =>
              match http_post post_profile props (db w) with
              | Some d' =>
                  Some ({| app := setActiveTab home st; db := d';
                           tasks := delete i (tasks w) |}, [])
              | None => None
              end
          | _ => None
          end
      | _ => None
      end
  | fetch_fails i served =>
      match tasks w !! i with
      | Some (posting_log body) =>
          (* [await fetch] rejects inside the [try] block: [fetchLogs()]
             is not reached, the [catch] and [finally] blocks run. *)
          match lost_response (fun now => http_post (post_logs now) body)
                  served (db w) with
          | Some d' =>
              let '(st', outs, _) := caught TypeError st in
              Some ({| app := st'; db := d'; tasks := delete i (tasks w) |}, outs)
          | None => None
          end
      | Some fetching_logs | Some fetching_profile =>
          (* The rejection is not handled: no state is set. *)
          Some ({| app := st; db := db w; tasks := delete i (tasks w) |}, [])
      | Some (saving_profile body) =>
          (* [setActiveTab('home')] is not reached. *)
          match body with
          | JObj props =>
              match lost_response (fun _ => http_post post_profile props)
                      served (db w) with
              | Some d' =>
                  Some ({| app := st; db := d'; tasks := delete i (tasks w) |}, [])
              | None => None
              end
          | _ => None
          end
      | _ => None
      end
  end.

Fixpoint run (es : list Event) (w : World) : option (World * list Output) :=
  match es with
  | [] => Some (w, [])
  | e :: es' =>
      match step e w with
      | Some (w1, o1) =>
          match run es' w1 with
          | Some (w2, o2) => Some (w2, o1 ++ o2)
          | None => None
          end
      | None => None
      end
  end.

(** *** The analysis flow of one capture *)

(** One capture carried through without anything in between: the change
    event, the read, the provider's [reply], the POST served at [now],
    up to the [finally] block. *)
Definition analysis_flow (f : File) (reply : ProviderReply) (now : string)
    (w : World) : option (World * list Output) :=
  let i := length (tasks w) in
  match step (change (Some f)) w with
  | Some (w1, o1) =>
      match tasks w1 !! i with
      | Some (reading _ _) =>
          match step (loadend i) w1 with
          | Some (w2, o2) =>
              match tasks w2 !! i with
              | Some (analysing _ _) =>
                  match step (provider_reply i reply) w2 with
                  | Some (w3, o3) =>
                      match tasks w3 !! i with
                      | Some (posting_log _) =>
                          match step (http_reply i now) w3 with
                          | Some (w4, o4) => Some (w4, o1 ++ o2 ++ o3 ++ o4)
                          | None => None
                          end
                      | _ => Some (w3, o1 ++ o2 ++ o3)
                      end
                  | None => None
                  end
              | _ => Some (w2, o1 ++ o2)
              end
          | None => None
          end
      | _ => Some (w1, o1)
      end
  | None => None
  end.

(** How the POST of a capture ends: answered (whatever the status of
    the response), or its fetch rejects. *)
Inductive PostOutcome : Type :=
| answered (now : string)
| lost (served : option string).

Definition post_event (i : nat) (post : PostOutcome) : Event :=
  match post with
  | answered now => http_reply i now
  | lost served => fetch_fails i served
  end.

(** When the server served the POST, if it did. *)
Definition served_at (post : PostOutcome) : option string :=
  match post with
  | answered now => Some now
  | lost served => served
  end.

(** The database after the POST, what the handler then prints and what
    it leaves pending. *)
Definition post_served (post : PostOutcome) (body : list (string * JValue))
    (d : Db) : option Db :=
  match served_at post with
  | Some now => http_post (post_logs now) body d
  | None => Some d
  end.

Definition post_outputs (post : PostOutcome) : list Output :=
  match post with
  | answered _ => []
  | lost _ => [console_error TypeError; alert analysis_failed]
  end.

Definition post_tasks (post : PostOutcome) : list Task :=
  match post with
  | answered _ => [fetching_logs]
  | lost _ => []
  end.

(** The same flow, for either end of the POST. *)
Definition capture_flow (f : File) (reply : ProviderReply) (post : PostOutcome)
    (w : World) : option (World * list Output) :=
  let i := length (tasks w) in
  match step (change (Some f)) w with
  | Some (w1, o1) =>
      match tasks w1 !! i with
      | Some (reading _ _) =>
          match step (loadend i) w1 with
          | Some (w2, o2) =>
              match tasks w2 !! i with
              | Some (analysing _ _) =>
                  match step (provider_reply i reply) w2 with
                  | Some (w3, o3) =>
                      match tasks w3 !! i with
                      | Some (posting_log _) =>
                          match step (post_event i post) w3 with
                          | Some (w4, o4) => Some (w4, o1 ++ o2 ++ o3 ++ o4)
                          | None => None
                          end
                      | _ => Some (w3, o1 ++ o2 ++ o3)
                      end
                  | None => None
                  end
              | _ => Some (w2, o1 ++ o2)
              end
          | None => None
          end
      | _ => Some (w1, o1)
      end
  | None => None
  end.

(** *** Vocabulary for the statements about the component *)

Definition is_daily_call (o : Output) : bool :=
  match o with
  | advisory (getDailyRecommendation_call _) => true
  | _ => false
  end.

(** The guard of the effect holds in a state. *)
Definition age_set_and_logged (st : AppState) : Prop :=
  (exists a, get (profile st) "age" = Ok a /\ truthy a = true)
  /\ (0 < length (logs st))%nat.

(** The state in which the read of a capture is in flight. *)
Definition capturing (st : AppState) : AppState :=
  setAnalysisResult JNull (setLoading true st).

(** The capture passes the profile check and [analyzeFoodImage] sends
    [req] to the provider. *)
Definition capture_proceeds (w : World) (f : File) (req : Request) : Prop :=
  exists props,
    profile (app w) = JObj props
    /\ truthy (field props "age") = true
    /\ truthy (field props "condition") = true
    /\ analyzeFoodImage_request (data_url f) (field props "age")
         (field props "condition") = Ok req.

(** The serialised body passes the server's size limit. *)
Definition body_fits (body : list (string * JValue)) : Prop :=
  Z.of_nat (String.length (default "" (JSON_stringify (JObj body)))) <= body_limit.

(** The POST body for a result whose three texts are strings. *)
Definition text_body (b n an tp : string) (flag : JValue)
  : list (string * JValue) :=
  [("image_url", JStr b); ("food_name", JStr n);
   ("analysis", JStr ((an ++ tip_separator) ++ tp)%string); ("is_safe", flag)].

(** A saved profile, a readable photo and the canned reply. *)
Definition example_db : Db :=
  {| user_profile := [ {| profile_id := 1; age := SqlInt 70;
                          condition := SqlText "당뇨" |} ];
     food_logs := []; food_logs_seq := 0 |}.

Definition example_world : World :=
  {| app := setProfile (get_profile example_db) initial; db := example_db;
     tasks := [] |}.

Definition example_file : File :=
  {| data_url := Some "data:image/jpeg;base64,QUJD" |}.

Definition canned_reply : ProviderReply :=
  responds (Some (js "{'foodName':'백미밥','isSafe':true,'analysis':'...','tips':'...'}")).

Definition example_now : string := "2026-01-01 12:00:00".

Definition example_request : Request :=
  {| model := "gemini-3-flash-preview";
     contents := [[text (analyze_prompt "70" "당뇨"); inlineData "image/jpeg" "QUJD"]];
     config := analyzeFoodImage_config |}.




(** The statement of the specification: with the canned reply, every
    capture that proceeds persists one entry, named and flagged as the
    reply says. *)
Definition canned_reply_always_persisted : Prop :=
  forall w f req now,
    capture_proceeds w f req ->
    exists w' outs row,
      analysis_flow f canned_reply now w = Some (w', outs)
      /\ food_logs (db w') = food_logs (db w) ++ [row]
      /\ food_name row = SqlText "백미밥"
      /\ is_safe row = SqlInt 1.

(** The canned reply without its [isSafe] field. *)
Definition reply_without_isSafe : ProviderReply :=
  responds (Some (js "{'foodName':'백미밥','analysis':'...','tips':'...'}")).


(** The tasks of a capture, from the read to the POST. *)
Definition is_capture_task (t : Task) : bool :=
  match t with
  | reading _ _ | analysing _ _ | posting_log _ => true
  | _ => false
  end.

Definition count (p : Task -> bool) (ts : list Task) : nat :=
  length (List.filter p ts).


Definition captures_in_progress (w : World) : nat :=
  count is_capture_task (tasks w).

Definition weight (p : Task -> bool) (t : Task) : nat := if p t then 1 else 0.

(** The captures a run starts at most: its change events with a file. *)
Definition starts_capture (e : Event) : nat :=
  match e with change (Some _) => 1 | _ => 0 end.

Fixpoint capture_events (es : list Event) : nat :=
  match es with
  | [] => 0
  | e :: es' => starts_capture e + capture_events es'
  end.

(** A run through the user interface: the profile arrives, a photo is
    chosen, its read ends. *)
Definition single_capture : list Event :=
  [http_reply 0 example_now; change (Some example_file); loadend 1].



End App.

(** ** What is on the screen *)

Module Views.
Import JS JSON Stringify Server Advisory App.
Local Open Scope list_scope.

(** What the component returns for the [main] element in a state, or
    that it throws.  [AnimatePresence mode="wait"] keeps the previous
    child on the page for the 0.2 s of its exit animation before it
    shows this one. *)
Inductive Screen : Type :=
| spinner                          (* the waiting block of [renderAnalysis] *)
| result_card (result : JValue)    (* the verdict card of [renderAnalysis] *)
| capture_prompt                   (* the last branch of [renderAnalysis] *)
| home_view
| history_view
| profile_view
| nothing                          (* no tab view matches [activeTab] *)
| unmounted.                       (* the render throws; there being no error
                                      boundary, React removes the whole tree,
                                      for good *)

(** What React accepts as a child: a string or a number is shown as
    text, a boolean, [null] and [undefined] as nothing, an array child
    by child; an object makes the render throw. *)
Fixpoint renderable (v : JValue) : bool :=
  match v with
  | JObj _ => false
  | JArr items => forallb renderable items
  | _ => true
  end.

(** [{v.k}] renders: the property can be read and is renderable. *)
Definition child (v : JValue) (k : string) : bool :=
  match get v k with
  | Ok x => renderable x
  | _ => false
  end.

(** [renderAnalysis]: [loading ? ... : analysisResult ? ... : ...]; the
    card has [foodName], [analysis] and [tips] as children. *)
Definition renderAnalysis (st : AppState) : Screen :=
  if loading st then spinner
  else if truthy (analysisResult st) then
    if child (analysisResult st) "foodName"
       && child (analysisResult st) "analysis"
       && child (analysisResult st) "tips"
    then result_card (analysisResult st)
    else unmounted
  else capture_prompt.

(** [renderHome]: the advice is
    [recommendation || (profile.age ? ... : ...)]; each of the first
    three logs has its [food_name] as a child. *)
Definition renderHome (st : AppState) : Screen :=
  if (if truthy (recommendation st) then renderable (recommendation st)
      else match get (profile st) "age" with Ok _ => true | _ => false end)
     && forallb (fun log => child log "food_name") (take 3 (logs st))
  then home_view
  else unmounted.

(** [renderHistory]: every log has its [food_name] and its [analysis] as
    children. *)
Definition renderHistory (st : AppState) : Screen :=
  if forallb (fun log => child log "food_name" && child log "analysis") (logs st)
  then history_view
  else unmounted.

(** [renderProfile] compares [profile.age] and [profile.condition] with
    the values of the buttons. *)
Definition renderProfile (st : AppState) : Screen :=
  match get (profile st) "age" with
  | Ok _ => profile_view
  | _ => unmounted
  end.

(** [loading || analysisResult ? renderAnalysis() : ...], the tab views
    being guarded by [activeTab === 'home'], ['history'] and
    ['profile']. *)
Definition render (st : AppState) : Screen :=
  if loading st || truthy (analysisResult st) then renderAnalysis st
  else match activeTab st with
       | home => renderHome st
       | history => renderHistory st
       | profile_tab => renderProfile st
       | analyze => nothing
       end.

(** [analysisResult.isSafe ? ... : ...], the colour of the verdict
    card. *)
Definition card_is_safe (result : JValue) : Res bool :=
  v ← get result "isSafe"; Ok (truthy v).

(** [log.is_safe ? ... : ...], the badge of a row in the lists. *)
Definition log_is_safe (log : JValue) : Res bool :=
  v ← get log "is_safe"; Ok (truthy v).

End Views.

(** ** Vocabulary for further statements *)

Module Invariants.
Import JS JSON Stringify Server Advisory App.
Local Open Scope list_scope.

Definition log_ids (d : Db) : list Z := map log_id (food_logs d).

(** The stored flag is one of the two integers the route writes. *)
Definition flag_ok (r : FoodLogRow) : Prop :=
  is_safe r = SqlInt 0 \/ is_safe r = SqlInt 1.

(** [now] is later than every stored timestamp. *)
Definition newer_than_all (now : string) (d : Db) : Prop :=
  Forall (fun r => (created_at r <? now)%string = true) (food_logs d).

(** Both tables satisfy their key constraints. *)
Definition store_ok (d : Db) : Prop :=
  profile_table_ok (user_profile d) /\ NoDup (log_ids d).

(** A sequence of POSTs to [/api/logs], oldest first, each with the
    time it is served at. *)
Fixpoint post_logs_all (posts : list (string * JValue)) (d : Db) : Res Db :=
  match posts with
  | [] => Ok d
  | (now, body) :: rest => d' ← post_logs now body d; post_logs_all rest d'
  end.

(** The text has no comma. *)
Fixpoint no_comma (s : string) : bool :=
  match s with
  | EmptyString => true
  | String c r => negb (c =? ",")%char && no_comma r
  end.

Fixpoint repeat_char (n : nat) (c : ascii) : string :=
  match n with
  | O => ""
  | S n' => String c (repeat_char n' c)
  end.

(** A data URL whose payload alone is as long as the server's limit. *)
Definition long_photo : string :=
  ("data:image/jpeg;base64," ++ repeat_char (Z.to_nat body_limit) "A")%string.

Definition long_file : File := {| data_url := Some long_photo |}.

Definition long_request : Request :=
  {| model := "gemini-3-flash-preview";
     contents := [[text (analyze_prompt "70" "당뇨");
                   inlineData "image/jpeg" (image_data long_photo)]];
     config := analyzeFoodImage_config |}.

(** The analysis flow, then the answer to the [fetchLogs()] it
    started, served at [now']. *)
Definition capture_then_refresh (f : File) (reply : ProviderReply)
    (now now' : string) (w : World) : option (World * list Output) :=
  match analysis_flow f reply now w with
  | Some (w1, o1) =>
      match step (http_reply (length (tasks w)) now') w1 with
      | Some (w2, o2) => Some (w2, o1 ++ o2)
      | None => None
      end
  | None => None
  end.

(** *** Runs of the component *)

Definition is_alert (o : Output) : bool :=
  match o with alert _ => true | _ => false end.

Definition is_analysis_call (o : Output) : bool :=
  match o with advisory (analyzeFoodImage_call _) => true | _ => false end.

(** Neither an alert nor an analysis request is among the outputs. *)
Definition quiet (outs : list Output) : Prop :=
  Forall (fun o => is_alert o = false /\ is_analysis_call o = false) outs.

(** [d'] holds the rows of [d] in place, and keeps what [d] satisfies. *)
Definition grows_from (d d' : Db) : Prop :=
  food_logs d `prefix_of` food_logs d'
  /\ (store_ok d -> store_ok d')
  /\ (Forall flag_ok (food_logs d) -> Forall flag_ok (food_logs d')).

Definition is_dismiss (e : Event) : bool :=
  match e with dismiss_result => true | _ => false end.

(** No event of the run is the Home icon of the result view. *)
Fixpoint never_dismissed (es : list Event) : bool :=
  match es with
  | [] => true
  | e :: es' => negb (is_dismiss e) && never_dismissed es'
  end.

(** The tab buttons of the navigation bar select Home, History or
    Profile. *)
Definition is_nav_tab (t : Tab) : bool :=
  match t with analyze => false | _ => true end.

Fixpoint nav_tabs_only (es : list Event) : bool :=
  match es with
  | [] => true
  | click_tab t :: es' => is_nav_tab t && nav_tabs_only es'
  | _ :: es' => nav_tabs_only es'
  end.

(** Every entry of the component's list is a stored row, and the list
    is no longer than the route's limit. *)
Definition logs_from_store (w : World) : Prop :=
  (forall x, x ∈ logs (app w) -> exists r, r ∈ food_logs (db w) /\ x = log_to_js r)
  /\ (length (logs (app w)) <= 50)%nat.

(** A capture carried through from the first render: the profile
    arrives, a photo is chosen and read, the canned reply is stored, and
    the list is fetched again. *)
Definition full_capture : list Event :=
  single_capture
  ++ [provider_reply 1%nat canned_reply; http_reply 1%nat example_now;
      http_reply 0%nat example_now].

(** The world that run ends in, the verdict of the canned reply on the
    page. *)
Definition after_full_capture : World :=
  match run full_capture (mount example_db) with
  | Some (w, _) => w
  | None => mount example_db
  end.

Definition canned_result : JValue :=
  JObj [("foodName", JStr "백미밥"); ("isSafe", JBool true);
        ("analysis", JStr "..."); ("tips", JStr "...")].

(** *** Texts on the wire *)

(** The control characters [JSON.stringify] writes with a letter. *)
Definition short_escape (c : ascii) : bool :=
  (c =? "008")%char || (c =? "012")%char || (c =? "010")%char
  || (c =? "013")%char || (c =? "009")%char.

(** No character of the text is written as a [\u] escape. *)
Fixpoint plain (s : string) : bool :=
  match s with
  | EmptyString => true
  | String c r => (negb (N_of_ascii c <? 32)%N || short_escape c) && plain r
  end.

(** A flag that is a boolean, [null] or missing. *)
Definition wire_flag (flag : JValue) : bool :=
  match flag with JBool _ | JNull | JUndefined => true | _ => false end.

(** Every event of the run is a button of the profile form. *)
Fixpoint profile_edits (es : list Event) : bool :=
  match es with
  | [] => true
  | (select_age _ | select_condition _) :: es' => profile_edits es'
  | _ :: _ => false
  end.

(** The profile after an age button and a condition button. *)
Definition chosen_profile (a : Z) (c : string) (props : list (string * JValue))
  : list (string * JValue) :=
  set_prop "condition" (JStr c) (set_prop "age" (JNum a) props).

(** The profile form filled in and submitted; the POST is task [i]. *)
Definition fill_and_save (a : Z) (c : string) (i : nat) (now : string)
  : list Event :=
  [select_age a; select_condition c; submit_profile; http_reply i now].

(** *** Inputs within the embedding *)

(** The provider's reply is one the embedding has: the call rejects,
    or there is no text, or the text is not JSON, or it is JSON whose
    numbers are safe integers, whose strings have no [\u] escape and
    whose objects have no key made of digits. *)
Definition reply_embedded (reply : ProviderReply) : bool :=
  match parse_reply reply with
  | Unmodelled => false
  | _ => true
  end.

(** What the embedding follows into a TEXT column: a string, [null] or
    [undefined] is stored, a boolean is refused by the driver; not a
    number, an array or an object. *)
Definition text_column_takes (v : JValue) : bool :=
  match v with
  | JNum _ | JArr _ | JObj _ => false
  | _ => true
  end.

(** The food name of an analysis reply is such a value. *)
Definition name_embedded (reply : ProviderReply) : bool :=
  match parse_reply reply with
  | Ok result =>
      match get result "foodName" with
      | Ok v => text_column_takes v
      | _ => true
      end
  | _ => true
  end.

(** The profile row as the columns' affinities leave it: an integer or
    NULL as [age], a text or NULL as [condition]. *)
Definition typed_row (r : ProfileRow) : bool :=
  match age r, condition r with
  | (SqlInt _ | SqlNull), (SqlText _ | SqlNull) => true
  | _, _ => false
  end.

Definition typed (d : Db) : Prop :=
  Forall (fun r => typed_row r = true) (user_profile d).

Definition pending_fetch (t : Task) : bool :=
  match t with
  | posting_log _ | fetching_logs | fetching_profile | saving_profile _ => true
  | _ => false
  end.

(** The event can happen in the world and is within the embedding: the
    end of a read, a reply or a failure concerns a pending operation of
    its kind, and a provider reply is one the embedding has. *)
Definition admits (e : Event) (w : World) : bool :=
  match e with
  | loadend i =>
      match tasks w !! i with
      | Some (reading _ _) => true
      | _ => false
      end
  | provider_reply i reply =>
      match tasks w !! i with
      | Some (analysing _ _) => reply_embedded reply && name_embedded reply
      | Some (recommending _) => reply_embedded reply
      | _ => false
      end
  | http_reply i _ | fetch_fails i _ =>
      match tasks w !! i with
      | Some t => pending_fetch t
      | None => false
      end
  | _ => true
  end.

(** Every event of the run is admitted by the world it meets. *)
Fixpoint admissible (es : list Event) (w : World) : bool :=
  match es with
  | [] => true
  | e :: es' =>
      admits e w
      && match step e w with
         | Some (w', _) => admissible es' w'
         | None => true
         end
  end.

(** What holds of every world a run from the first render reaches. *)
Definition age_typed (v : JValue) : bool :=
  match v with
  | JNum _ | JNull | JUndefined => true
  | _ => false
  end.

Definition condition_typed (v : JValue) : bool :=
  match v with
  | JStr _ | JNull | JUndefined => true
  | _ => false
  end.

Definition profile_typed (p : JValue) : Prop :=
  exists props,
    p = JObj props
    /\ age_typed (field (sent_props props) "age") = true
    /\ condition_typed (field (sent_props props) "condition") = true.

Definition task_typed (t : Task) : Prop :=
  match t with
  | posting_log body =>
      exists b fn an sf,
        body = [("image_url", JStr b); ("food_name", fn); ("analysis", JStr an);
                ("is_safe", sf)]
        /\ text_column_takes fn = true
  | saving_profile p => profile_typed p
  | _ => True
  end.

Definition sane (w : World) : Prop :=
  profile_typed (profile (app w)) /\ typed (db w) /\ Forall task_typed (tasks w).

End Invariants.

(** * Properties *)

(** ** The JSON parser *)

Module JsonProps.
Import JS JSON.
Local Open Scope nat_scope.

Lemma skip_ws_length (s : string) : String.length (skip_ws s) <= String.length s.
Proof.
  induction s as [|c s IH]; cbn [skip_ws]; [ lia | ].
  destruct (is_ws c); cbn [String.length]; lia.
Qed.

Lemma starts_with_length (c : ascii) (s r : string) :
  starts_with c s = Some r -> String.length s = S (String.length r).
Proof.
  destruct s as [|c' s]; cbn [starts_with]; [ discriminate | ].
  destruct (c =? c')%char; [ | discriminate ]. by intros [= ->].
Qed.

Lemma parse_chars_fuel (s : string) : parse_chars s <> PFuel.
Proof.
  assert (H : forall n s, String.length s < n -> parse_chars s <> PFuel);
    [ | exact (H _ s (Nat.lt_succ_diag_r _)) ].
  clear s. induction n as [|n IHn]; intros s Hn; [ lia | ].
  assert (IH : forall r, String.length r < String.length s -> parse_chars r <> PFuel)
    by (intros r Hr; apply IHn; lia).
  clear IHn Hn.
  destruct s as [|c r]; [ discriminate | ]. cbn [parse_chars].
  destruct (c =? dquote)%char; [ discriminate | ].
  destruct (c =? backslash)%char.
  - destruct r as [|e r']; [ discriminate | ].
    destruct (e =? "u")%char.
    + destruct r' as [|h1 [|h2 [|h3 [|h4 r'']]]]; try discriminate.
      destruct (is_hex h1 && is_hex h2 && is_hex h3 && is_hex h4);
        [ | discriminate ].
      assert (H := IH r'' ltac:(cbn; lia)).
      destruct (parse_chars r''); [ discriminate | discriminate | congruence ].
    + destruct (unescape e); [ | discriminate ].
      assert (H := IH r' ltac:(cbn; lia)).
      destruct (parse_chars r'); [ discriminate | discriminate | congruence ].
  - destruct (N_of_ascii c <? 32)%N; [ discriminate | ].
    assert (H := IH r ltac:(cbn; lia)).
    destruct (parse_chars r); [ discriminate | discriminate | congruence ].
Qed.

Lemma parse_chars_length (s : string) (v : option string) (rest : string) :
  parse_chars s = POk v rest -> String.length rest < String.length s.
Proof.
  assert (H : forall n s v rest, String.length s < n -> parse_chars s = POk v rest ->
                 String.length rest < String.length s);
    [ | exact (H _ s v rest (Nat.lt_succ_diag_r _)) ].
  clear s v rest. induction n as [|n IHn]; intros s v rest Hn; [ lia | ].
  assert (IH : forall r v rest, String.length r < String.length s ->
                 parse_chars r = POk v rest -> String.length rest < String.length r)
    by (intros r v' rest' Hr; apply IHn; lia).
  clear IHn Hn.
  destruct s as [|c r]; [ discriminate | ]. cbn [parse_chars].
  destruct (c =? dquote)%char; [ intros [= <- <-]; cbn; lia | ].
  destruct (c =? backslash)%char.
  - destruct r as [|e r']; [ discriminate | ].
    destruct (e =? "u")%char.
    + destruct r' as [|h1 [|h2 [|h3 [|h4 r'']]]]; try discriminate.
      destruct (is_hex h1 && is_hex h2 && is_hex h3 && is_hex h4);
        [ | discriminate ].
      destruct (parse_chars r'') as [v' rest'| |] eqn:E; try discriminate.
      intros [= <- <-]. apply IH in E; cbn [String.length] in *; lia.
    + destruct (unescape e); [ | discriminate ].
      destruct (parse_chars r') as [v' rest'| |] eqn:E; try discriminate.
      intros [= <- <-]. apply IH in E; cbn [String.length] in *; lia.
  - destruct (N_of_ascii c <? 32)%N; [ discriminate | ].
    destruct (parse_chars r) as [v' rest'| |] eqn:E; try discriminate.
    intros [= <- <-]. apply IH in E; cbn [String.length] in *; lia.
Qed.

Lemma span_digits_length (s : string) (acc : Z) (len : nat) n len' rest :
  span_digits s acc len = (n, len', rest) ->
  String.length rest + len' = String.length s + len.
Proof.
  revert acc len. induction s as [|c s IH]; intros acc len; cbn [span_digits].
  - intros [= <- <- <-]. reflexivity.
  - destruct (is_digit c).
    + intros H. apply IH in H. cbn [String.length]. lia.
    + intros [= <- <- <-]. reflexivity.
Qed.

Lemma parse_number_fuel (s : string) : parse_number s <> PFuel.
Proof.
  unfold parse_number.
  repeat match goal with
         | |- context [let '(_, _) := ?x in _] => destruct x
         | |- context [match ?x with _ => _ end] => destruct x
         end; discriminate.
Qed.

Lemma parse_number_length (s : string) (v : option JValue) (rest : string) :
  parse_number s = POk v rest -> String.length rest < String.length s.
Proof.
  unfold parse_number.
  destruct (starts_with "-" s) as [r|] eqn:Hneg.
  all: destruct (span_digits _ 0%Z 0) as [[n len] s2] eqn:Hspan.
  all: apply span_digits_length in Hspan.
  all: destruct len as [|len]; [ discriminate | ].
  all: destruct (_ && _); [ discriminate | ].
  all: assert (Hs2 : String.length s2 < String.length s)
         by (try apply starts_with_length in Hneg; lia).
  all: destruct (starts_with "." s2) as [r'|] eqn:Hdot.
  all: try (destruct (span_digits r' 0%Z 0) as [[fn flen] r''] eqn:Hf;
            apply span_digits_length in Hf; apply starts_with_length in Hdot;
            destruct flen; [ discriminate | ]).
  all: match goal with
       | |- context [match ?s3 with "" => None | String _ _ => _ end] =>
           assert (Hs3 : String.length s3 < String.length s) by lia;
           destruct s3 as [|c r3]
       end.
  all: try (destruct (_ || _)).
  all: try (match goal with
            | |- context [span_digits ?r1 0%Z 0] =>
                destruct (span_digits r1 0%Z 0) as [[en elen] s4] eqn:He;
                apply span_digits_length in He;
                destruct elen; [ discriminate | ];
                intros [= <- <-];
                repeat match goal with
                       | H : context [match ?x with _ => _ end] |- _ => destruct x
                       end; cbn [String.length] in *; lia
            end).
  all: try (destruct (_ <=? _)%Z).
  all: try (intros [= <- <-]; cbn [String.length] in *; lia).
Qed.

Lemma strip_prefix_length (word s rest : string) :
  strip_prefix word s = Some rest ->
  String.length s = String.length word + String.length rest.
Proof.
  revert s. induction word as [|c word IH]; intros s; cbn [strip_prefix].
  - by intros [= ->].
  - destruct s as [|c' r]; [ discriminate | ].
    destruct (c =? c')%char; [ | discriminate ].
    intros H. apply IH in H. cbn [String.length]. lia.
Qed.

(** The fuel [JSON_parse] supplies is never used up, and every step
    consumes some of the text. *)
Lemma parse_fuel (fuel : nat) :
  (forall s, 2 * String.length s + 1 <= fuel -> parse_value fuel s <> PFuel)
  /\ (forall s acc, 2 * String.length s + 1 <= fuel ->
                    parse_members fuel s acc <> PFuel)
  /\ (forall s acc, 2 * String.length s + 2 <= fuel ->
                    parse_elements fuel s acc <> PFuel)
  /\ (forall s v rest, parse_value fuel s = POk v rest ->
                       String.length rest < String.length s)
  /\ (forall s acc v rest, parse_members fuel s acc = POk v rest ->
                           String.length rest < String.length s)
  /\ (forall s acc v rest, parse_elements fuel s acc = POk v rest ->
                           String.length rest < String.length s).
Proof.
  induction fuel as [|fuel (IHv & IHm & IHe & ILv & ILm & ILe)].
  { repeat split; intros; try lia; discriminate. }
  assert (Lv : forall s v rest, parse_value (S fuel) s = POk v rest ->
                                String.length rest < String.length s).
  { intros s v rest. cbn [parse_value].
    pose proof (skip_ws_length s) as Hws.
    destruct (skip_ws s) as [|c r] eqn:Hs; [ discriminate | ].
    cbn [String.length] in Hws.
    destruct (c =? "{")%char.
    { pose proof (skip_ws_length r) as Hr.
      destruct (starts_with "}" (skip_ws r)) as [rest'|] eqn:Hclose.
      - apply starts_with_length in Hclose. intros [= <- <-]. lia.
      - intros H. apply ILm in H. lia. }
    destruct (c =? "[")%char.
    { pose proof (skip_ws_length r) as Hr.
      destruct (starts_with "]" (skip_ws r)) as [rest'|] eqn:Hclose.
      - apply starts_with_length in Hclose. intros [= <- <-]. lia.
      - intros H. apply ILe in H. lia. }
    destruct (c =? dquote)%char.
    { destruct (parse_chars r) as [str rest'| |] eqn:Hc; try discriminate.
      apply parse_chars_length in Hc. intros [= <- <-]. lia. }
    assert (Hexp : forall word x, word <> ""%string ->
              expect word x (String c r) = POk v rest ->
              String.length rest < String.length s).
    { intros word x Hword. unfold expect.
      destruct (strip_prefix word (String c r)) as [rest'|] eqn:Hp;
        [ | discriminate ].
      apply strip_prefix_length in Hp. intros [= <- <-].
      destruct word; [ congruence | ]. cbn [String.length] in *. lia. }
    destruct (c =? "t")%char; [ by apply Hexp | ].
    destruct (c =? "f")%char; [ by apply Hexp | ].
    destruct (c =? "n")%char; [ by apply Hexp | ].
    destruct (_ || _); [ | discriminate ].
    intros H. apply parse_number_length in H. cbn [String.length] in H. lia. }
  assert (Lm : forall s acc v rest, parse_members (S fuel) s acc = POk v rest ->
                                    String.length rest < String.length s).
  { intros s acc v rest. cbn [parse_members].
    destruct (starts_with dquote s) as [r|] eqn:Hq; [ | discriminate ].
    apply starts_with_length in Hq.
    destruct (parse_chars r) as [key r1| |] eqn:Hc; try discriminate.
    apply parse_chars_length in Hc. pose proof (skip_ws_length r1) as Hr1.
    destruct (starts_with ":" (skip_ws r1)) as [r2|] eqn:Hcolon; [ | discriminate ].
    apply starts_with_length in Hcolon.
    destruct (parse_value fuel r2) as [x r3| |] eqn:Hv; try discriminate.
    apply ILv in Hv. pose proof (skip_ws_length r3) as Hr3.
    destruct (skip_ws r3) as [|c r4]; [ discriminate | ].
    cbn [String.length] in Hr3. pose proof (skip_ws_length r4) as Hr4.
    destruct (c =? ",")%char.
    - intros H. apply ILm in H. lia.
    - destruct (c =? "}")%char; [ | discriminate ]. intros [= <- <-]. lia. }
  assert (Le : forall s acc v rest, parse_elements (S fuel) s acc = POk v rest ->
                                    String.length rest < String.length s).
  { intros s acc v rest. cbn [parse_elements].
    destruct (parse_value fuel s) as [x r1| |] eqn:Hv; try discriminate.
    apply ILv in Hv. pose proof (skip_ws_length r1) as Hr1.
    destruct (skip_ws r1) as [|c r2]; [ discriminate | ].
    cbn [String.length] in Hr1.
    destruct (c =? ",")%char.
    - intros H. apply ILe in H. lia.
    - destruct (c =? "]")%char; [ | discriminate ]. intros [= <- <-]. lia. }
  split; [ | split; [ | split; [ | auto ] ] ].
  - intros s Hfuel. cbn [parse_value].
    pose proof (skip_ws_length s) as Hws.
    destruct (skip_ws s) as [|c r] eqn:Hs; [ discriminate | ].
    cbn [String.length] in Hws. pose proof (skip_ws_length r) as Hr.
    destruct (c =? "{")%char.
    { destruct (starts_with "}" (skip_ws r)); [ discriminate | ].
      apply IHm. lia. }
    destruct (c =? "[")%char.
    { destruct (starts_with "]" (skip_ws r)); [ discriminate | ].
      apply IHe. lia. }
    destruct (c =? dquote)%char.
    { pose proof (parse_chars_fuel r).
      destruct (parse_chars r); [ discriminate | discriminate | congruence ]. }
    unfold expect.
    destruct (c =? "t")%char; [ destruct (strip_prefix _ _); discriminate | ].
    destruct (c =? "f")%char; [ destruct (strip_prefix _ _); discriminate | ].
    destruct (c =? "n")%char; [ destruct (strip_prefix _ _); discriminate | ].
    destruct (_ || _); [ apply parse_number_fuel | discriminate ].
  - intros s acc Hfuel. cbn [parse_members].
    destruct (starts_with dquote s) as [r|] eqn:Hq; [ | discriminate ].
    apply starts_with_length in Hq.
    pose proof (parse_chars_fuel r) as Hcf.
    destruct (parse_chars r) as [key r1| |] eqn:Hc; [ | discriminate | congruence ].
    apply parse_chars_length in Hc. pose proof (skip_ws_length r1) as Hr1.
    destruct (starts_with ":" (skip_ws r1)) as [r2|] eqn:Hcolon; [ | discriminate ].
    apply starts_with_length in Hcolon.
    pose proof (IHv r2 ltac:(lia)) as Hvf.
    destruct (parse_value fuel r2) as [x r3| |] eqn:Hv; [ | discriminate | congruence ].
    apply ILv in Hv. pose proof (skip_ws_length r3) as Hr3.
    destruct (skip_ws r3) as [|c r4]; [ discriminate | ].
    cbn [String.length] in Hr3. pose proof (skip_ws_length r4) as Hr4.
    destruct (c =? ",")%char; [ apply IHm; lia | ].
    destruct (c =? "}")%char; discriminate.
  - intros s acc Hfuel. cbn [parse_elements].
    pose proof (IHv s ltac:(lia)) as Hvf.
    destruct (parse_value fuel s) as [x r1| |] eqn:Hv; [ | discriminate | congruence ].
    apply ILv in Hv. pose proof (skip_ws_length r1) as Hr1.
    destruct (skip_ws r1) as [|c r2]; [ discriminate | ].
    cbn [String.length] in Hr1.
    destruct (c =? ",")%char; [ apply IHe; lia | ].
    destruct (c =? "]")%char; discriminate.
Qed.

Lemma JSON_parse_fuel (text : string) :
  parse_value (S (2 * String.length text)) text <> PFuel.
Proof. apply (parse_fuel (S (2 * String.length text))). lia. Qed.

End JsonProps.

(** ** The storage routes *)

Module ServerProps.
Import JS JSON Stringify Server.
Local Open Scope list_scope.

(** *** Byte order on texts *)

Lemma ascii_compare_lt_trans (a b c : ascii) :
  Ascii.compare a b = Lt -> Ascii.compare b c = Lt -> Ascii.compare a c = Lt.
Proof.
  unfold Ascii.compare. rewrite !N.compare_lt_iff. apply N.lt_trans.
Qed.

Lemma string_compare_not_gt_trans (s1 s2 s3 : string) :
  String.compare s1 s2 <> Gt -> String.compare s2 s3 <> Gt ->
  String.compare s1 s3 <> Gt.
Proof.
  revert s2 s3.
  induction s1 as [|a s1 IH]; intros [|b s2] [|c s3]; simpl; try congruence.
  destruct (Ascii.compare a b) eqn:Hab; [ | | congruence].
  - apply Ascii.compare_eq_iff in Hab. subst b.
    destruct (Ascii.compare a c); [ apply IH | congruence | congruence ].
  - intros _. destruct (Ascii.compare b c) eqn:Hbc; [ | | congruence].
    + apply Ascii.compare_eq_iff in Hbc. subst c. rewrite Hab. congruence.
    + rewrite (ascii_compare_lt_trans a b c Hab Hbc). congruence.
Qed.

Lemma string_leb_trans (s1 s2 s3 : string) :
  (s1 <=? s2)%string = true -> (s2 <=? s3)%string = true ->
  (s1 <=? s3)%string = true.
Proof.
  unfold String.leb. intros H12 H23.
  pose proof (string_compare_not_gt_trans s1 s2 s3) as H.
  destruct (String.compare s1 s2); try discriminate;
    destruct (String.compare s2 s3); try discriminate;
    destruct (String.compare s1 s3); try reflexivity;
    exfalso; apply H; congruence.
Qed.

Lemma created_desc_total (r1 r2 : FoodLogRow) :
  created_desc r1 r2 \/ created_desc r2 r1.
Proof.
  unfold created_desc.
  destruct (String.leb_total (created_at r2) (created_at r1)); auto.
Qed.

Lemma created_desc_trans (r1 r2 r3 : FoodLogRow) :
  created_desc r1 r2 -> created_desc r2 r3 -> created_desc r1 r3.
Proof. unfold created_desc. intros H12 H23. eapply string_leb_trans; eauto. Qed.

(** *** GET /api/logs *)

Lemma insert_log_Permutation (r : FoodLogRow) (rows : list FoodLogRow) :
  insert_log r rows ≡ₚ r :: rows.
Proof.
  induction rows as [|r' rows IH]; cbn [insert_log]; [ reflexivity | ].
  destruct (created_at r' <=? created_at r)%string; [ reflexivity | ].
  rewrite IH. apply Permutation_swap.
Qed.

Lemma order_Permutation (rows : list FoodLogRow) :
  order_by_created_desc rows ≡ₚ rows.
Proof.
  induction rows as [|r rows IH]; [ reflexivity | ].
  cbn [order_by_created_desc fold_right]. rewrite insert_log_Permutation.
  by constructor.
Qed.

Lemma insert_log_sorted (r : FoodLogRow) (rows : list FoodLogRow) :
  StronglySorted created_desc rows ->
  StronglySorted created_desc (insert_log r rows).
Proof.
  induction rows as [|r' rows IH]; intros Hs; cbn [insert_log].
  - repeat constructor.
  - inversion Hs as [|? ? Hs' Hall]; subst.
    destruct (created_at r' <=? created_at r)%string eqn:E.
    + constructor; [ exact Hs | ]. constructor; [ exact E | ].
      eapply Forall_impl; [ exact Hall | ].
      intros o Ho. exact (created_desc_trans r r' o E Ho).
    + constructor; [ by apply IH | ].
      rewrite insert_log_Permutation. constructor; [ | exact Hall ].
      destruct (created_desc_total r r') as [H | H]; [ | exact H ].
      unfold created_desc in H. congruence.
Qed.

Lemma order_sorted (rows : list FoodLogRow) :
  StronglySorted created_desc (order_by_created_desc rows).
Proof.
  induction rows as [|r rows IH]; [ constructor | ].
  cbn [order_by_created_desc fold_right]. by apply insert_log_sorted.
Qed.

Lemma string_leb_eqb (x y : string) :
  String.eqb x y = true -> (x <=? y)%string = true.
Proof.
  intros E. apply String.eqb_eq in E. subst y.
  by destruct (String.leb_total x x).
Qed.

Lemma insert_log_written_at (t : string) (r : FoodLogRow)
    (rows : list FoodLogRow) :
  written_at t (insert_log r rows) = written_at t (r :: rows).
Proof.
  unfold written_at.
  induction rows as [|r' rows IH]; cbn [insert_log]; [ reflexivity | ].
  destruct (created_at r' <=? created_at r)%string eqn:E; [ reflexivity | ].
  cbn [List.filter] in *. rewrite IH.
  destruct (String.eqb (created_at r) t) eqn:Er; [ | reflexivity ].
  destruct (String.eqb (created_at r') t) eqn:Er'; [ | reflexivity ].
  apply String.eqb_eq in Er, Er'. rewrite Er, Er' in E.
  rewrite (string_leb_eqb t t) in E by apply String.eqb_refl. discriminate E.
Qed.

Lemma order_written_at (t : string) (rows : list FoodLogRow) :
  written_at t (order_by_created_desc rows) = written_at t rows.
Proof.
  induction rows as [|r rows IH]; [ reflexivity | ].
  cbn [order_by_created_desc fold_right]. rewrite insert_log_written_at.
  unfold written_at in *. cbn [List.filter].
  change (fold_right insert_log [] rows) with (order_by_created_desc rows).
  by rewrite IH.
Qed.

Lemma select_logs_split (d : Db) :
  order_by_created_desc (food_logs d)
  = select_logs d ++ drop 50 (order_by_created_desc (food_logs d)).
Proof. unfold select_logs. symmetry. apply take_drop. Qed.

(** C3.  For every database, GET /api/logs replies with the fifty
    newest rows, or with all of them when there are fewer: as many rows
    as the table has, up to 50, ordered by [created_at] descending (every
    row is at least as new as every row after it, and as every row left
    out), rows of one timestamp in table order; and it leaves the
    database as it was. *)
Theorem get_logs_capped_newest_first (d : Db) :
  let rows := select_logs d in
  (length rows <= 50)%nat
  /\ length rows = Nat.min 50 (length (food_logs d))
  /\ StronglySorted created_desc rows
  /\ (exists rest, rows ++ rest ≡ₚ food_logs d
                   /\ forall r o, r ∈ rows -> o ∈ rest -> created_desc r o)
  /\ (forall t, written_at t rows `prefix_of` written_at t (food_logs d))
  /\ get_logs d = (map log_to_js rows, d).
Proof.
  intros rows.
  pose proof (order_sorted (food_logs d)) as Hsorted.
  rewrite select_logs_split in Hsorted. fold rows in Hsorted.
  assert (Hlen : length rows = Nat.min 50 (length (food_logs d))).
  { unfold rows, select_logs. rewrite length_take.
    by rewrite (Permutation_length (order_Permutation (food_logs d))). }
  split; [ lia | ]. split; [ exact Hlen | ].
  split; [ eapply StronglySorted_app_1_l; exact Hsorted | ].
  split; [ | split; [ | reflexivity ] ].
  - exists (drop 50 (order_by_created_desc (food_logs d))). split.
    + unfold rows. rewrite <- select_logs_split. apply order_Permutation.
    + intros r o Hr Ho. eapply StronglySorted_app_1_elem_of; eauto.
  - intros t. rewrite <- (order_written_at t (food_logs d)).
    rewrite (select_logs_split d). fold rows. unfold written_at.
    rewrite List.filter_app. by apply prefix_app_r.
Qed.

(** *** The profile table *)

Lemma profile_table_ok_inv (rows : list ProfileRow) :
  profile_table_ok rows ->
  rows = [] \/ exists r, rows = [r] /\ profile_id r = 1.
Proof.
  intros [Hall Hnd].
  destruct rows as [|r [|r' rest]]; [ left; reflexivity | right | exfalso ].
  - exists r. split; [reflexivity|]. by inversion Hall.
  - inversion Hall as [|? ? Hr Hall']; subst. inversion Hall' as [|? ? Hr' _]; subst.
    simpl in Hnd. rewrite Hr, Hr' in Hnd.
    apply NoDup_cons_1_1 in Hnd. apply Hnd. left.
Qed.

Lemma upsert_profile_singleton (a c : SqlValue) (rows : list ProfileRow) :
  profile_table_ok rows ->
  upsert_profile a c rows = [ {| profile_id := 1; age := a; condition := c |} ].
Proof.
  intros Hok. destruct (profile_table_ok_inv rows Hok) as [-> | [r [-> Hr]]].
  - reflexivity.
  - simpl. rewrite Hr. reflexivity.
Qed.

Lemma singleton_profile_table_ok (a c : SqlValue) :
  profile_table_ok [ {| profile_id := 1; age := a; condition := c |} ].
Proof.
  split; [ by repeat constructor | ].
  simpl. apply NoDup_singleton.
Qed.

Lemma post_profile_typed (a : Z) (c : string) (d : Db) :
  post_profile (profile_body a c) d
  = Ok {| user_profile := upsert_profile (SqlInt a) (SqlText c) (user_profile d);
          food_logs := food_logs d;
          food_logs_seq := food_logs_seq d |}.
Proof. reflexivity. Qed.

Lemma save_all_ok (calls : list (Z * string)) (d : Db) :
  profile_table_ok (user_profile d) ->
  exists d', save_all calls d = Ok d'
             /\ profile_table_ok (user_profile d')
             /\ food_logs d' = food_logs d
             /\ food_logs_seq d' = food_logs_seq d.
Proof.
  revert d. induction calls as [|[a c] calls IH]; intros d Hok.
  - exists d. auto.
  - cbn [save_all]. rewrite post_profile_typed. simpl.
    rewrite (upsert_profile_singleton _ _ _ Hok).
    edestruct IH as (d' & Hrun & Hok' & Hlogs & Hseq);
      [ | exists d'; split; [exact Hrun | split; [exact Hok' | split; [exact Hlogs | exact Hseq]]] ].
    simpl. apply singleton_profile_table_ok.
Qed.

Lemma save_all_app (xs ys : list (Z * string)) (d : Db) :
  save_all (xs ++ ys) d = (d' ← save_all xs d; save_all ys d').
Proof.
  revert d. induction xs as [|[a c] xs IH]; intros d; [reflexivity|].
  cbn [save_all app]. rewrite post_profile_typed. simpl. apply IH.
Qed.

(** C4.  POST /api/profile is an upsert on a singleton: after any
    sequence of saves ending with [(a, c)], on a table that satisfies its
    constraints, the table holds exactly one row, with age [a] and
    condition [c]; the food log is untouched; and repeating the last
    save leaves the whole database unchanged. *)
Theorem post_profile_upsert_singleton
    (d : Db) (calls : list (Z * string)) (a : Z) (c : string) :
  profile_table_ok (user_profile d) ->
  exists d',
    save_all (calls ++ [(a, c)]) d = Ok d'
    /\ user_profile d'
       = [ {| profile_id := 1; age := SqlInt a; condition := SqlText c |} ]
    /\ food_logs d' = food_logs d
    /\ post_profile (profile_body a c) d' = Ok d'.
Proof.
  intros Hok.
  destruct (save_all_ok calls d Hok) as (d1 & Hrun & Hok1 & Hlogs & Hseq).
  eexists. rewrite save_all_app, Hrun. cbn [save_all mbind Res_bind].
  rewrite post_profile_typed. cbn [mbind Res_bind].
  rewrite (upsert_profile_singleton _ _ _ Hok1).
  split; [reflexivity|]. simpl. split; [reflexivity|]. split; [exact Hlogs|].
  rewrite post_profile_typed. simpl. reflexivity.
Qed.

Lemma post_profile_upsert_singleton_witness :
  let d := {| user_profile := []; food_logs := []; food_logs_seq := 0 |} in
  profile_table_ok (user_profile d)
  /\ exists d',
       save_all ([(60, "당뇨")] ++ [(70, "고혈압")]) d = Ok d'
       /\ user_profile d'
          = [ {| profile_id := 1; age := SqlInt 70; condition := SqlText "고혈압" |} ]
       /\ food_logs d' = food_logs d
       /\ post_profile (profile_body 70 "고혈압") d' = Ok d'.
Proof.
  intros d.
  assert (Hok : profile_table_ok (user_profile d))
    by (split; [ constructor | simpl; constructor ]).
  split; [ exact Hok | ].
  exact (post_profile_upsert_singleton d [(60, "당뇨")] 70 "고혈압" Hok).
Defined.

(** Reading back after a save gives the saved values. *)
Lemma get_profile_after_save (d : Db) (a : Z) (c : string) :
  profile_table_ok (user_profile d) ->
  exists d', post_profile (profile_body a c) d = Ok d'
             /\ get_profile d'
                = JObj [("id", JNum 1); ("age", JNum a); ("condition", JStr c)].
Proof.
  intros Hok. eexists. rewrite post_profile_typed. split; [reflexivity|].
  unfold get_profile, select_profile. simpl.
  rewrite (upsert_profile_singleton _ _ _ Hok). reflexivity.
Qed.

(** *** GET /api/profile *)

(** C9.  GET /api/profile replies with the singleton row when the table
    has one and with the empty object when it has none; the route is a
    total function of the database, with no error reply of its own. *)
Theorem get_profile_row_or_empty (d : Db) :
  profile_table_ok (user_profile d) ->
  match user_profile d with
  | [] => get_profile d = JObj []
  | r :: _ =>
      get_profile d
      = JObj [("id", JNum 1); ("age", sql_to_js (age r));
              ("condition", sql_to_js (condition r))]
  end.
Proof.
  intros Hok. unfold get_profile, select_profile.
  destruct (profile_table_ok_inv _ Hok) as [-> | [r [-> Hr]]]; [reflexivity|].
  simpl. rewrite Hr. simpl. unfold profile_to_js. rewrite Hr. reflexivity.
Qed.

Lemma get_profile_row_or_empty_witness :
  let d := {| user_profile := [ {| profile_id := 1; age := SqlInt 70;
                                   condition := SqlText "당뇨" |} ];
              food_logs := []; food_logs_seq := 0 |} in
  profile_table_ok (user_profile d)
  /\ get_profile d
     = JObj [("id", JNum 1); ("age", JNum 70); ("condition", JStr "당뇨")].
Proof.
  intros d.
  assert (Hok : profile_table_ok (user_profile d))
    by (split; [ repeat constructor | simpl; apply NoDup_singleton ]).
  split; [ exact Hok | ].
  exact (get_profile_row_or_empty d Hok).
Defined.

End ServerProps.

(** ** The advisory client *)

Module AdvisoryProps.
Import JS JSON Stringify Advisory.
Local Open Scope list_scope.

(** *** The response schemas *)

Lemma analyzeFoodImage_request_config b a c req :
  analyzeFoodImage_request b a c = Ok req -> config req = analyzeFoodImage_config.
Proof.
  unfold analyzeFoodImage_request.
  destruct (to_string a); simpl; try discriminate.
  destruct (to_string c); simpl; try discriminate.
  destruct b; [ | discriminate ].
  intros [= <-]. reflexivity.
Qed.

Lemma getDailyRecommendation_request_config l a c req :
  getDailyRecommendation_request l a c = Ok req ->
  config req = getDailyRecommendation_config.
Proof.
  unfold getDailyRecommendation_request.
  destruct (to_string a); simpl; try discriminate.
  destruct (to_string c); simpl; try discriminate.
  intros [= <-]. reflexivity.
Qed.

Lemma NoDup_strings_by_decide (l : list string) :
  bool_decide (NoDup l) = true -> NoDup l.
Proof. intros H. by apply bool_decide_eq_true in H. Qed.

(** C8.  Every request either function sends asks for JSON and carries a
    response schema that matches its contract: the four required fields
    [foodName], [isSafe], [analysis], [tips] of the meal analysis, the
    single required field [recommendation] of the daily recommendation. *)
Theorem requests_carry_the_contract_schemas :
  (forall b a c req,
      analyzeFoodImage_request b a c = Ok req ->
      responseMimeType (config req) = "application/json"
      /\ matches_contract meal_contract (responseSchema (config req)))
  /\ (forall l a c req,
         getDailyRecommendation_request l a c = Ok req ->
         responseMimeType (config req) = "application/json"
         /\ matches_contract recommendation_contract
              (responseSchema (config req))).
Proof.
  split.
  - intros b a c req Hreq.
    rewrite (analyzeFoodImage_request_config _ _ _ _ Hreq).
    split; [reflexivity|]. unfold matches_contract. simpl.
    repeat split; try reflexivity.
    + repeat constructor.
    + apply NoDup_strings_by_decide. reflexivity.
  - intros l a c req Hreq.
    rewrite (getDailyRecommendation_request_config _ _ _ _ Hreq).
    split; [reflexivity|]. unfold matches_contract. simpl.
    repeat split; try reflexivity.
    + repeat constructor.
    + apply NoDup_singleton.
Qed.

Lemma requests_carry_the_contract_schemas_witness :
  match analyzeFoodImage_request (Some "data:image/jpeg;base64,QUJD")
          (JNum 70) (JStr "당뇨") with
  | Ok req => matches_contract meal_contract (responseSchema (config req))
  | _ => False
  end
  /\ match getDailyRecommendation_request [] (JNum 70) (JStr "당뇨") with
     | Ok req =>
         matches_contract recommendation_contract (responseSchema (config req))
     | _ => False
     end.
Proof.
  destruct requests_carry_the_contract_schemas as [Hmeal Hdaily].
  specialize (Hmeal (Some "data:image/jpeg;base64,QUJD") (JNum 70) (JStr "당뇨")).
  specialize (Hdaily [] (JNum 70) (JStr "당뇨")).
  split.
  - destruct (analyzeFoodImage_request _ _ _) as [req| |] eqn:E.
    + exact (proj2 (Hmeal req eq_refl)).
    + vm_compute in E. discriminate E.
    + vm_compute in E. discriminate E.
  - destruct (getDailyRecommendation_request _ _ _) as [req| |] eqn:E.
    + exact (proj2 (Hdaily req eq_refl)).
    + vm_compute in E. discriminate E.
    + vm_compute in E. discriminate E.
Defined.

(** *** Empty replies *)

Lemma parse_empty_object : JSON_parse "{}" = Ok (JObj []).
Proof. reflexivity. Qed.

Lemma parse_reply_text (t : string) :
  t <> "" -> parse_reply (responds (Some t)) = JSON_parse t.
Proof.
  intros Hne. unfold parse_reply.
  destruct (String.eqb_spec t ""); [ contradiction | reflexivity ].
Qed.

(** C10.  When the reply's text is absent or empty, both functions
    return the empty object instead of throwing; and whatever value a
    non-empty text parses to is returned as it is, with no look at its
    fields. *)
Theorem empty_reply_gives_empty_object :
  (forall provider b a c req t,
      analyzeFoodImage_request b a c = Ok req ->
      provider req = responds t ->
      (t = None \/ t = Some "" ->
       analyzeFoodImage provider b a c = Ok (JObj []))
      /\ (forall s v, t = Some s -> s <> "" -> JSON_parse s = Ok v ->
          analyzeFoodImage provider b a c = Ok v))
  /\ (forall provider l a c req t,
         getDailyRecommendation_request l a c = Ok req ->
         provider req = responds t ->
         (t = None \/ t = Some "" ->
          getDailyRecommendation provider l a c = Ok (JObj []))
         /\ (forall s v, t = Some s -> s <> "" -> JSON_parse s = Ok v ->
             getDailyRecommendation provider l a c = Ok v)).
Proof.
  split.
  - intros provider b a c req t Hreq Hrep.
    unfold analyzeFoodImage. rewrite Hreq. cbn [mbind Res_bind]. rewrite Hrep.
    split.
    + intros [-> | ->]; reflexivity.
    + intros s v -> Hne Hv. rewrite parse_reply_text by exact Hne. exact Hv.
  - intros provider l a c req t Hreq Hrep.
    unfold getDailyRecommendation. rewrite Hreq. cbn [mbind Res_bind]. rewrite Hrep.
    split.
    + intros [-> | ->]; reflexivity.
    + intros s v -> Hne Hv. rewrite parse_reply_text by exact Hne. exact Hv.
Qed.

Lemma empty_reply_gives_empty_object_witness :
  analyzeFoodImage (fun _ => responds None) (Some "data:image/jpeg;base64,QUJD")
    (JNum 70) (JStr "당뇨") = Ok (JObj [])
  /\ getDailyRecommendation (fun _ => responds (Some "")) [] (JNum 70)
       (JStr "당뇨") = Ok (JObj [])
  /\ analyzeFoodImage (fun _ => responds (Some (js "{'foodName':'죽'}")))
       (Some "data:image/jpeg;base64,QUJD") (JNum 70) (JStr "당뇨")
     = Ok (JObj [("foodName", JStr "죽")]).
Proof.
  destruct empty_reply_gives_empty_object as [Hmeal Hdaily].
  split; [ | split ].
  - destruct (analyzeFoodImage_request (Some "data:image/jpeg;base64,QUJD")
                (JNum 70) (JStr "당뇨")) as [req| |] eqn:E;
      [ | vm_compute in E; discriminate E | vm_compute in E; discriminate E ].
    apply (proj1 (Hmeal (fun _ => responds None) _ _ _ req None E eq_refl)).
    left. reflexivity.
  - destruct (getDailyRecommendation_request [] (JNum 70) (JStr "당뇨"))
      as [req| |] eqn:E;
      [ | vm_compute in E; discriminate E | vm_compute in E; discriminate E ].
    apply (proj1 (Hdaily (fun _ => responds (Some "")) _ _ _ req (Some "") E eq_refl)).
    right. reflexivity.
  - destruct (analyzeFoodImage_request (Some "data:image/jpeg;base64,QUJD")
                (JNum 70) (JStr "당뇨")) as [req| |] eqn:E;
      [ | vm_compute in E; discriminate E | vm_compute in E; discriminate E ].
    apply (proj2 (Hmeal (fun _ => responds (Some (js "{'foodName':'죽'}")))
                    _ _ _ req _ E eq_refl) (js "{'foodName':'죽'}")).
    + reflexivity.
    + discriminate.
    + reflexivity.
Defined.

End AdvisoryProps.

(** ** The interaction layer *)

Module AppProps.
Import JS JSON Stringify Server Advisory App.
Local Open Scope list_scope.

(** *** Reading the profile *)

Lemma get_object (props : list (string * JValue)) (k : string) :
  get (JObj props) k = Ok (field props k).
Proof. reflexivity. Qed.

(** *** C5: capture without a profile *)

Lemma handleImageUpload_incomplete (st : AppState) (f : File)
    (props : list (string * JValue)) :
  profile st = JObj props ->
  truthy (field props "age") = false \/ truthy (field props "condition") = false ->
  handleImageUpload (Some f) st
  = Ok (setActiveTab profile_tab st, [alert profile_first], None).
Proof.
  intros Hp Hfalsy. unfold handleImageUpload. rewrite Hp, !get_object.
  cbn [mbind Res_bind].
  destruct (truthy (field props "age")) eqn:Ha; simpl; [ | reflexivity ].
  destruct Hfalsy as [Hf | Hf]; [ discriminate | ].
  rewrite Hf. reflexivity.
Qed.

(** C5.  When the profile has no age or no condition (the property is
    absent, or present but falsy), a capture only alerts and switches to
    the profile view: no advisory call is issued, no task is left in
    flight, the database is untouched, and the analysis flow ends there
    whatever the provider would have replied. *)
Theorem capture_without_profile_redirects (w : World) (f : File)
    (props : list (string * JValue)) :
  profile (app w) = JObj props ->
  truthy (field props "age") = false \/ truthy (field props "condition") = false ->
  let w' := {| app := setActiveTab profile_tab (app w); db := db w;
               tasks := tasks w |} in
  step (change (Some f)) w = Some (w', [alert profile_first])
  /\ activeTab (app w') = profile_tab
  /\ forall reply now,
       analysis_flow f reply now w = Some (w', [alert profile_first]).
Proof.
  intros Hp Hfalsy w'.
  assert (Hstep : step (change (Some f)) w = Some (w', [alert profile_first])).
  { unfold step. rewrite (handleImageUpload_incomplete _ _ _ Hp Hfalsy).
    simpl. rewrite app_nil_r. reflexivity. }
  split; [ exact Hstep | ]. split; [ reflexivity | ].
  intros reply now. unfold analysis_flow. rewrite Hstep.
  unfold w'. cbn [tasks]. rewrite lookup_ge_None_2 by lia. reflexivity.
Qed.

Lemma capture_without_profile_redirects_witness :
  let w := mount {| user_profile := []; food_logs := []; food_logs_seq := 0 |} in
  let f := {| data_url := Some "data:image/jpeg;base64,QUJD" |} in
  (profile (app w) = JObj []
   /\ (truthy (field [] "age") = false \/ truthy (field [] "condition") = false))
  /\ step (change (Some f)) w
     = Some ({| app := setActiveTab profile_tab (app w); db := db w;
                tasks := tasks w |}, [alert profile_first]).
Proof.
  intros w f.
  assert (Hp : profile (app w) = JObj []) by reflexivity.
  assert (Hf : truthy (field [] "age") = false
               \/ truthy (field [] "condition") = false) by (left; reflexivity).
  split; [ split; [ exact Hp | exact Hf ] | ].
  exact (proj1 (capture_without_profile_redirects w f [] Hp Hf)).
Defined.

(** *** C6: when the daily recommendation is requested *)

Lemma recommendation_effect_guard (st : AppState) outs ts :
  recommendation_effect st = Some (outs, ts) ->
  existsb is_daily_call outs = true ->
  age_set_and_logged st.
Proof.
  unfold recommendation_effect, age_set_and_logged.
  destruct (get (profile st) "age") as [a| |] eqn:Ha; try discriminate.
  destruct (truthy a) eqn:Hta; simpl.
  - destruct (Nat.eqb_spec (length (logs st)) 0) as [Hz|Hnz]; simpl.
    + intros [= <- <-]. discriminate.
    + intros _ _. split; [ eauto | lia ].
  - intros [= <- <-]. discriminate.
Qed.

Lemma with_effect_guard st d ts outs w' outs' :
  with_effect st d ts outs = Some (w', outs') ->
  existsb is_daily_call outs = false ->
  existsb is_daily_call outs' = true ->
  age_set_and_logged (app w').
Proof.
  unfold with_effect.
  destruct (recommendation_effect st) as [[o t]|] eqn:Heff; [ | discriminate ].
  intros [= <- <-] Hno. rewrite existsb_app, Hno. simpl.
  intros Hyes. eapply recommendation_effect_guard; eauto.
Qed.

Lemma handleImageUpload_no_daily file st st' outs next :
  handleImageUpload file st = Ok (st', outs, next) ->
  existsb is_daily_call outs = false.
Proof.
  unfold handleImageUpload. destruct file as [f|]; [ | by intros [= <- <- <-] ].
  destruct (get (profile st) "age") as [a| |]; simpl; try discriminate.
  destruct (truthy a); simpl; [ | by intros [= <- <- <-] ].
  destruct (get (profile st) "condition") as [c| |]; simpl; try discriminate.
  destruct (truthy c); simpl; by intros [= <- <- <-].
Qed.

Lemma onloadend_no_daily f p st st' outs next :
  onloadend f p st = Some (st', outs, next) ->
  existsb is_daily_call outs = false.
Proof.
  unfold onloadend.
  destruct (_ ≫= _) as [[req b]|e|]; [ | | discriminate ].
  - by intros [= <- <- <-].
  - unfold caught. by intros [= <- <- <-].
Qed.

Lemma analysed_no_daily b reply st st' outs next :
  analysed b reply st = Some (st', outs, next) ->
  existsb is_daily_call outs = false.
Proof.
  unfold analysed.
  destruct (parse_reply reply) as [result|e|]; [ | | discriminate ].
  - destruct (log_body b result) as [body|e|]; [ | | discriminate ].
    + by intros [= <- <- <-].
    + unfold caught. by intros [= <- <- <-].
  - unfold caught. by intros [= <- <- <-].
Qed.

Lemma recommended_no_daily reply st st' outs :
  recommended reply st = Some (st', outs) ->
  existsb is_daily_call outs = false.
Proof.
  unfold recommended.
  destruct (_ ≫= _) as [r|e|]; [ | | discriminate ]; by intros [= <- <-].
Qed.

(** C6.  In every step of the component, a call of
    [getDailyRecommendation] is issued only in a state whose profile has a
    truthy age and whose log list is not empty; so with no logged meal no
    step issues one. *)
Theorem daily_recommendation_needs_age_and_logs
    (e : Event) (w w' : World) (outs : list Output) :
  step e w = Some (w', outs) ->
  (existsb is_daily_call outs = true -> age_set_and_logged (app w'))
  /\ (logs (app w') = [] -> existsb is_daily_call outs = false).
Proof.
  intros Hstep.
  assert (Hguard : existsb is_daily_call outs = true -> age_set_and_logged (app w')).
  { revert Hstep. unfold step.
    destruct e as [file|t|a|c| | | |i|i reply|i now|i served].
    - destruct (handleImageUpload file (app w)) as [[[st' o] next]|err|] eqn:Hh;
        [ | | discriminate ].
      + intros [= <- <-] Hyes.
        apply handleImageUpload_no_daily in Hh. congruence.
      + intros [= <- <-]. discriminate.
    - intros [= <- <-]. discriminate.
    - destruct (spread_with _ _ _) as [p|]; [ | discriminate ].
      intros Heff Hyes. eapply with_effect_guard; eauto.
    - destruct (spread_with _ _ _) as [p|]; [ | discriminate ].
      intros Heff Hyes. eapply with_effect_guard; eauto.
    - intros [= <- <-]. discriminate.
    - intros [= <- <-]. discriminate.
    - intros [= <- <-]. discriminate.
    - destruct (tasks w !! i) as [[f p| | | | | | ]|]; try discriminate.
      destruct (onloadend f p (app w)) as [[[st' o] next]|] eqn:Hh; [ | discriminate ].
      intros [= <- <-] Hyes. apply onloadend_no_daily in Hh. congruence.
    - destruct (tasks w !! i) as [[ |b req| | | |req| ]|]; try discriminate.
      + destruct (analysed b reply (app w)) as [[[st' o] next]|] eqn:Hh;
          [ | discriminate ].
        intros [= <- <-] Hyes. apply analysed_no_daily in Hh. congruence.
      + destruct (recommended reply (app w)) as [[st' o]|] eqn:Hh; [ | discriminate ].
        intros [= <- <-] Hyes. apply recommended_no_daily in Hh. congruence.
    - destruct (tasks w !! i) as [[ | |body| | | |body]|]; try discriminate.
      + destruct (http_post _ body (db w)) as [d'|]; [ | discriminate ].
        simpl. intros [= <- <-]. discriminate.
      + simpl. intros Heff Hyes. eapply with_effect_guard; eauto.
      + intros Heff Hyes. eapply with_effect_guard; eauto.
      + destruct body; try discriminate.
        destruct (http_post _ _ (db w)) as [d'|]; [ | discriminate ].
        intros [= <- <-]. discriminate.
    - destruct (tasks w !! i) as [[ | |body| | | |body]|]; try discriminate.
      + destruct (lost_response _ served (db w)) as [d'|]; [ | discriminate ].
        cbn [caught]. intros [= <- <-]. discriminate.
      + intros [= <- <-]. discriminate.
      + intros [= <- <-]. discriminate.
      + destruct body; try discriminate.
        destruct (lost_response _ served (db w)) as [d'|]; [ | discriminate ].
        intros [= <- <-]. discriminate. }
  split; [ exact Hguard | ].
  intros Hnil. destruct (existsb is_daily_call outs) eqn:Hex; [ | reflexivity ].
  destruct (Hguard eq_refl) as [_ Hlen]. rewrite Hnil in Hlen. simpl in Hlen. lia.
Qed.

Lemma daily_recommendation_needs_age_and_logs_witness :
  let d := {| user_profile := user_profile example_db;
              food_logs := [ {| log_id := 1; image_url := SqlText "data:,QUJD";
                                food_name := SqlText "백미밥";
                                analysis := SqlText "...";
                                is_safe := SqlInt 1;
                                created_at := example_now |} ];
              food_logs_seq := 1 |} in
  let w := {| app := setProfile (get_profile d) initial; db := d;
              tasks := [fetching_logs] |} in
  exists w' outs,
    step (http_reply 0 example_now) w = Some (w', outs)
    /\ existsb is_daily_call outs = true
    /\ age_set_and_logged (app w').
Proof.
  intros d w.
  destruct (step (http_reply 0 example_now) w) as [[w' outs]|] eqn:Hstep;
    [ | vm_compute in Hstep; discriminate Hstep ].
  assert (Hcall : existsb is_daily_call outs = true).
  { vm_compute in Hstep. injection Hstep as _ <-. reflexivity. }
  exists w', outs. split; [ reflexivity | ]. split; [ exact Hcall | ].
  exact (proj1 (daily_recommendation_needs_age_and_logs _ w w' outs Hstep) Hcall).
Defined.

(** *** The analysis flow, case by case *)

Lemma lookup_last {A} (l : list A) (x : A) : (l ++ [x]) !! length l = Some x.
Proof. by apply list_lookup_middle. Qed.

Lemma insert_last {A} (l : list A) (x y : A) :
  <[length l := y]> (l ++ [x]) = l ++ [y].
Proof. rewrite insert_app_r_alt by lia. by rewrite Nat.sub_diag. Qed.

Lemma delete_last {A} (l : list A) (x : A) : delete (length l) (l ++ [x]) = l.
Proof. rewrite (delete_middle l [] x). apply app_nil_r. Qed.

Section Flow.
Variables (w : World) (f : File) (reply : ProviderReply) (now : string).
Variables (a c : JValue).
Hypothesis Hage : get (profile (app w)) "age" = Ok a.
Hypothesis Hage_truthy : truthy a = true.
Hypothesis Hcond : get (profile (app w)) "condition" = Ok c.
Hypothesis Hcond_truthy : truthy c = true.

Lemma step_change_starts :
  step (change (Some f)) w
  = Some ({| app := capturing (app w); db := db w;
             tasks := tasks w ++ [reading f (profile (app w))] |}, []).
Proof.
  unfold step, handleImageUpload. rewrite Hage. cbn [mbind Res_bind].
  rewrite Hage_truthy. cbn [negb]. rewrite Hcond. cbn [mbind Res_bind].
  rewrite Hcond_truthy. reflexivity.
Qed.

(** The request cannot be built: the catch block runs at once. *)
Lemma flow_request_throws (e : JsError) :
  analyzeFoodImage_request (data_url f) a c = Throw e ->
  analysis_flow f reply now w
  = Some ({| app := setLoading false (capturing (app w)); db := db w;
             tasks := tasks w |},
          [console_error e; alert analysis_failed]).
Proof.
  intros Hreq. unfold analysis_flow. rewrite step_change_starts.
  cbn [tasks]. rewrite lookup_last.
  unfold step. cbn [tasks app db]. rewrite lookup_last.
  unfold onloadend. rewrite Hage, Hcond. cbn [mbind Res_bind].
  rewrite Hreq. cbn [mbind Res_bind caught continue].
  rewrite delete_last. cbn [tasks]. rewrite lookup_ge_None_2 by lia.
  reflexivity.
Qed.

Variable req : Request.
Hypothesis Hreq : analyzeFoodImage_request (data_url f) a c = Ok req.

Lemma flow_reaches_provider :
  analysis_flow f reply now w
  = let i := length (tasks w) in
    let w2 := {| app := capturing (app w); db := db w;
                 tasks := tasks w ++ [analysing (default "" (data_url f)) req] |} in
    match step (provider_reply i reply) w2 with
    | Some (w3, o3) =>
        match tasks w3 !! i with
        | Some (posting_log _) =>
            match step (http_reply i now) w3 with
            | Some (w4, o4) =>
                Some (w4, [advisory (analyzeFoodImage_call req)] ++ o3 ++ o4)
            | None => None
            end
        | _ => Some (w3, [advisory (analyzeFoodImage_call req)] ++ o3)
        end
    | None => None
    end.
Proof.
  unfold analysis_flow. rewrite step_change_starts.
  cbn [tasks]. rewrite lookup_last.
  unfold step at 1. cbn [tasks app db]. rewrite lookup_last.
  unfold onloadend. rewrite Hage, Hcond. cbn [mbind Res_bind].
  rewrite Hreq. cbn [mbind Res_bind continue].
  rewrite insert_last. cbn [tasks]. rewrite lookup_last.
  reflexivity.
Qed.

(** The reply cannot be parsed (or the call rejected). *)
Lemma flow_parse_throws (e : JsError) :
  parse_reply reply = Throw e ->
  analysis_flow f reply now w
  = Some ({| app := setLoading false (capturing (app w)); db := db w;
             tasks := tasks w |},
          [advisory (analyzeFoodImage_call req); console_error e;
           alert analysis_failed]).
Proof.
  intros Hparse. rewrite flow_reaches_provider. cbv zeta.
  unfold step. cbn [tasks app db]. rewrite lookup_last.
  unfold analysed. rewrite Hparse. cbn [caught continue].
  rewrite delete_last. cbn [tasks]. rewrite lookup_ge_None_2 by lia.
  reflexivity.
Qed.

Variable result : JValue.
Hypothesis Hparse : parse_reply reply = Ok result.

(** The reply parses, but building the POST body throws. *)
Lemma flow_body_throws (e : JsError) :
  log_body (default "" (data_url f)) result = Throw e ->
  analysis_flow f reply now w
  = Some ({| app := setLoading false (setAnalysisResult result (capturing (app w)));
             db := db w; tasks := tasks w |},
          [advisory (analyzeFoodImage_call req); console_error e;
           alert analysis_failed]).
Proof.
  intros Hbody. rewrite flow_reaches_provider. cbv zeta.
  unfold step. cbn [tasks app db]. rewrite lookup_last.
  unfold analysed. rewrite Hparse, Hbody. cbn [caught continue].
  rewrite delete_last. cbn [tasks]. rewrite lookup_ge_None_2 by lia.
  reflexivity.
Qed.

(** The reply parses and the POST is sent: the flow ends with the
    database the server leaves. *)
Lemma flow_posts (body : list (string * JValue)) (d' : Db) :
  log_body (default "" (data_url f)) result = Ok body ->
  http_post (post_logs now) body (db w) = Some d' ->
  analysis_flow f reply now w
  = Some ({| app := setLoading false (setAnalysisResult result (capturing (app w)));
             db := d'; tasks := tasks w ++ [fetching_logs] |},
          [advisory (analyzeFoodImage_call req)]).
Proof.
  intros Hbody Hpost. rewrite flow_reaches_provider. cbv zeta.
  unfold step at 1. cbn [tasks app db]. rewrite lookup_last.
  unfold analysed. rewrite Hparse, Hbody. cbn [continue].
  rewrite insert_last. cbn [tasks]. rewrite lookup_last.
  unfold step. cbn [tasks app db]. rewrite lookup_last, Hpost.
  cbn [posted]. rewrite delete_last. reflexivity.
Qed.

End Flow.

(** *** What a capture persists *)

Lemma log_body_texts (b n an tp : string) (rprops : list (string * JValue)) :
  field rprops "foodName" = JStr n ->
  field rprops "analysis" = JStr an ->
  field rprops "tips" = JStr tp ->
  log_body b (JObj rprops) = Ok (text_body b n an tp (field rprops "isSafe")).
Proof.
  intros Hn Han Htp. unfold log_body. rewrite !get_object, Hn, Han, Htp.
  reflexivity.
Qed.

Lemma JSON_stringify_object (body : list (string * JValue)) :
  exists t, JSON_stringify (JObj body) = Some t.
Proof. simpl. eauto. Qed.

Lemma http_post_text_body (now b n text : string) (flag : JValue) (d : Db) :
  body_fits [("image_url", JStr b); ("food_name", JStr n);
             ("analysis", JStr text); ("is_safe", flag)] ->
  http_post (post_logs now)
    [("image_url", JStr b); ("food_name", JStr n); ("analysis", JStr text);
     ("is_safe", flag)] d
  = Some {| user_profile := user_profile d;
            food_logs := food_logs d
                         ++ [ {| log_id := next_log_id d;
                                 image_url := SqlText b;
                                 food_name := SqlText n;
                                 analysis := SqlText text;
                                 is_safe := SqlInt (if truthy flag then 1 else 0);
                                 created_at := now |} ];
            food_logs_seq := next_log_id d |}.
Proof.
  unfold body_fits, http_post. intros Hfits.
  destruct (JSON_stringify_object
              [("image_url", JStr b); ("food_name", JStr n);
               ("analysis", JStr text); ("is_safe", flag)]) as [t Ht].
  rewrite Ht in *. cbv [default from_option id] in Hfits.
  apply Z.leb_le in Hfits. rewrite Hfits.
  destruct flag; reflexivity.
Qed.

Lemma capture_proceeds_flow (w : World) (f : File) (req : Request)
    (reply : ProviderReply) (now : string) :
  capture_proceeds w f req ->
  exists a c,
    get (profile (app w)) "age" = Ok a /\ truthy a = true
    /\ get (profile (app w)) "condition" = Ok c /\ truthy c = true
    /\ analyzeFoodImage_request (data_url f) a c = Ok req.
Proof.
  intros (props & Hp & Ha & Hc & Hreq). rewrite Hp, !get_object. eauto 10.
Qed.

(** A reply that parses to an object with string [foodName], [analysis]
    and [tips] is persisted as one row, whatever its [isSafe] is. *)
Lemma flow_persists_entry (w : World) (f : File) (req : Request)
    (reply : ProviderReply) (now : string)
    (rprops : list (string * JValue)) (n an tp : string) :
  capture_proceeds w f req ->
  parse_reply reply = Ok (JObj rprops) ->
  field rprops "foodName" = JStr n ->
  field rprops "analysis" = JStr an ->
  field rprops "tips" = JStr tp ->
  body_fits (text_body (default "" (data_url f)) n an tp (field rprops "isSafe")) ->
  analysis_flow f reply now w
  = Some ({| app := setLoading false
                      (setAnalysisResult (JObj rprops) (capturing (app w)));
             db := {| user_profile := user_profile (db w);
                      food_logs :=
                        food_logs (db w)
                        ++ [ {| log_id := next_log_id (db w);
                                image_url := SqlText (default "" (data_url f));
                                food_name := SqlText n;
                                analysis :=
                                  SqlText ((an ++ tip_separator) ++ tp)%string;
                                is_safe :=
                                  SqlInt (if truthy (field rprops "isSafe")
                                          then 1 else 0);
                                created_at := now |} ];
                      food_logs_seq := next_log_id (db w) |};
             tasks := tasks w ++ [fetching_logs] |},
          [advisory (analyzeFoodImage_call req)]).
Proof.
  intros Hgo Hparse Hn Han Htp Hfits.
  destruct (capture_proceeds_flow w f req reply now Hgo)
    as (a & c & Ha & Hta & Hc & Htc & Hreq).
  eapply (flow_posts w f reply now a c Ha Hta Hc Htc req Hreq _ Hparse).
  - exact (log_body_texts _ n an tp rprops Hn Han Htp).
  - apply http_post_text_body. exact Hfits.
Qed.

(** The server reads back from the serialised body what the client put
    in it. *)
Example canned_body_round_trip :
  JSON_parse
    (default "" (JSON_stringify
                   (JObj (text_body "data:image/jpeg;base64,QUJD" "백미밥"
                            "..." "..." (JBool true)))))
  = Ok (JObj (sent_props (text_body "data:image/jpeg;base64,QUJD" "백미밥"
                            "..." "..." (JBool true)))).
Proof. reflexivity. Qed.

Lemma example_capture_proceeds :
  capture_proceeds example_world example_file example_request.
Proof.
  exists [("id", JNum 1); ("age", JNum 70); ("condition", JStr "당뇨")].
  repeat split; reflexivity.
Defined.

(** *** C7: overlapping captures *)

Lemma count_app p ts1 ts2 : count p (ts1 ++ ts2) = (count p ts1 + count p ts2)%nat.
Proof. unfold count. rewrite List.filter_app. apply length_app. Qed.

Lemma count_cons p t ts : count p (t :: ts) = (weight p t + count p ts)%nat.
Proof. unfold count, weight. simpl. destruct (p t); reflexivity. Qed.

Lemma count_delete p ts i t :
  ts !! i = Some t -> (count p (delete i ts) + weight p t)%nat = count p ts.
Proof.
  revert i. induction ts as [|x ts IH]; intros [|i] Hi; try discriminate.
  - injection Hi as ->. change (delete 0%nat (t :: ts)) with ts.
    rewrite count_cons. lia.
  - change (delete (S i) (x :: ts)) with (x :: delete i ts).
    rewrite !count_cons. specialize (IH i Hi). lia.
Qed.






Lemma recommended_loading reply st st' outs :
  recommended reply st = Some (st', outs) -> loading st' = loading st.
Proof.
  unfold recommended.
  destruct (_ ≫= _) as [r|e|]; [ | | discriminate ]; by intros [= <- <-].
Qed.

Lemma recommendation_effect_tasks st outs ts :
  recommendation_effect st = Some (outs, ts) -> count is_capture_task ts = 0%nat.
Proof.
  unfold recommendation_effect.
  destruct (get (profile st) "age") as [a| |]; try discriminate.
  destruct (truthy a && negb (length (logs st) =? 0)%nat);
    [ | by intros [= <- <-] ].
  unfold fetchRecommendation.
  destruct (_ ≫= _) as [req|e|]; [ | | discriminate ]; by intros [= <- <-].
Qed.

Lemma with_effect_world st d ts outs w' outs' :
  with_effect st d ts outs = Some (w', outs') ->
  app w' = st /\ db w' = d
  /\ count is_capture_task (tasks w') = count is_capture_task ts.
Proof.
  unfold with_effect.
  destruct (recommendation_effect st) as [[o t]|] eqn:Heff; [ | discriminate ].
  intros [= <- <-]. cbn [app db tasks]. rewrite count_app.
  rewrite (recommendation_effect_tasks _ _ _ Heff). auto with lia.
Qed.


Lemma http_post_profile_rows (props : list (string * JValue)) (d d' : Db) :
  http_post post_profile props d = Some d' -> food_logs d' = food_logs d.
Proof.
  unfold http_post.
  destruct (JSON_stringify (JObj props)) as [t|]; [ | discriminate ].
  destruct (Z.of_nat (String.length t) <=? body_limit);
    [ | intros [= <-]; reflexivity ].
  unfold post_profile.
  destruct (get _ "age") as [a| |]; cbn [mbind Res_bind];
    [ | intros [= <-]; reflexivity | discriminate ].
  destruct (get _ "condition") as [c| |]; cbn [mbind Res_bind];
    [ | intros [= <-]; reflexivity | discriminate ].
  destruct (bind_param a) as [a'| |]; cbn [mbind Res_bind];
    [ | intros [= <-]; reflexivity | discriminate ].
  destruct (bind_param c) as [c'| |]; cbn [mbind Res_bind];
    [ | intros [= <-]; reflexivity | discriminate ].
  destruct (integer_affinity a') as [a''| |]; cbn [mbind Res_bind];
    [ | intros [= <-]; reflexivity | discriminate ].
  destruct (text_affinity c') as [c''| |]; cbn [mbind Res_bind];
    [ | intros [= <-]; reflexivity | discriminate ].
  intros [= <-]. reflexivity.
Qed.




End AppProps.

(** ** More about the storage routes *)

Module StoreProps.
Import JS JSON Stringify Server Advisory App Views Invariants ServerProps.
Local Open Scope list_scope.

Lemma fold_max_ge_seed (s : Z) (l : list Z) : s <= fold_right Z.max s l.
Proof. induction l as [|x l IH]; simpl; lia. Qed.

Lemma fold_max_ge_elem (s : Z) (l : list Z) (x : Z) :
  x ∈ l -> x <= fold_right Z.max s l.
Proof.
  induction l as [|y l IH]; intros Hin.
  - by apply not_elem_of_nil in Hin.
  - apply elem_of_cons in Hin as [-> | Hin]; simpl; [ lia | ].
    specialize (IH Hin). lia.
Qed.

Lemma next_log_id_above_seq (d : Db) : food_logs_seq d < next_log_id d.
Proof. unfold next_log_id. pose proof (fold_max_ge_seed (food_logs_seq d)
  (map log_id (food_logs d))). lia. Qed.

Lemma next_log_id_above_rows (d : Db) :
  Forall (fun r => log_id r < next_log_id d) (food_logs d).
Proof.
  apply Forall_forall. intros r Hr. unfold next_log_id.
  pose proof (fold_max_ge_elem (food_logs_seq d) (map log_id (food_logs d))
                (log_id r)) as H.
  assert (log_id r ∈ map log_id (food_logs d)) as Hin
    by (apply list_elem_of_fmap; eauto).
  specialize (H Hin). lia.
Qed.

(** The shape of the database after any successful POST to
    [/api/logs]: what is inserted depends on the body only, up to the
    id. *)
Lemma post_logs_shape (now : string) (body : JValue) (d d' : Db) :
  post_logs now body d = Ok d' ->
  exists u f a flag,
    (flag = 0 \/ flag = 1)
    /\ forall d2,
        post_logs now body d2
        = Ok {| user_profile := user_profile d2;
                food_logs := food_logs d2
                             ++ [ {| log_id := next_log_id d2; image_url := u;
                                     food_name := f; analysis := a;
                                     is_safe := SqlInt flag;
                                     created_at := now |} ];
                food_logs_seq := next_log_id d2 |}.
Proof.
  unfold post_logs.
  destruct (get body "image_url") as [u| |]; cbn [mbind Res_bind]; try discriminate.
  destruct (get body "food_name") as [fn| |]; cbn [mbind Res_bind]; try discriminate.
  destruct (get body "analysis") as [an| |]; cbn [mbind Res_bind]; try discriminate.
  destruct (get body "is_safe") as [sf| |]; cbn [mbind Res_bind]; try discriminate.
  destruct (bind_param u) as [u'| |]; cbn [mbind Res_bind]; try discriminate.
  destruct (bind_param fn) as [fn'| |]; cbn [mbind Res_bind]; try discriminate.
  destruct (bind_param an) as [an'| |]; cbn [mbind Res_bind]; try discriminate.
  destruct (text_affinity u') as [u''| |]; cbn [mbind Res_bind]; try discriminate.
  destruct (text_affinity fn') as [fn''| |]; cbn [mbind Res_bind]; try discriminate.
  destruct (text_affinity an') as [an''| |]; cbn [mbind Res_bind]; try discriminate.
  intros _. exists u'', fn'', an'', (if truthy sf then 1 else 0).
  split; [ destruct (truthy sf); auto | reflexivity ].
Qed.

Lemma post_logs_step (now : string) (body : JValue) (d d' : Db) :
  post_logs now body d = Ok d' ->
  exists row,
    d' = {| user_profile := user_profile d; food_logs := food_logs d ++ [row];
            food_logs_seq := next_log_id d |}
    /\ log_id row = next_log_id d
    /\ created_at row = now
    /\ flag_ok row.
Proof.
  intros Hpost.
  destruct (post_logs_shape now body d d' Hpost) as (u & f & a & flag & Hflag & Hshape).
  rewrite (Hshape d) in Hpost. injection Hpost as <-.
  eexists. split; [ reflexivity | ]. cbn. split; [ reflexivity | ].
  split; [ reflexivity | ].
  unfold flag_ok. cbn. destruct Hflag as [-> | ->]; auto.
Qed.

(** After any successful POST to [/api/logs], whatever the body, the
    table is the old one with one row appended; the row carries the
    server's timestamp, a flag that is 0 or 1, and an id above every
    earlier id and above the counter, which becomes that id; the profile
    table is untouched. *)
Theorem post_logs_appends_one_row (now : string) (body : JValue) (d d' : Db) :
  post_logs now body d = Ok d' ->
  exists row,
    food_logs d' = food_logs d ++ [row]
    /\ created_at row = now
    /\ flag_ok row
    /\ Forall (fun r => log_id r < log_id row) (food_logs d)
    /\ food_logs_seq d < log_id row
    /\ food_logs_seq d' = log_id row
    /\ user_profile d' = user_profile d.
Proof.
  intros Hpost.
  destruct (post_logs_step now body d d' Hpost) as (row & -> & Hid & Hnow & Hflag).
  exists row. cbn. rewrite Hid.
  split; [ reflexivity | ]. split; [ exact Hnow | ]. split; [ exact Hflag | ].
  split; [ apply next_log_id_above_rows | ].
  split; [ apply next_log_id_above_seq | ]. split; reflexivity.
Qed.

Lemma post_logs_appends_one_row_witness :
  let body := JObj [("image_url", JStr "data:image/jpeg;base64,QUJD");
                    ("food_name", JStr "백미밥"); ("analysis", JStr "...");
                    ("is_safe", JStr "yes")] in
  let d := {| user_profile := [];
              food_logs := [ {| log_id := 7; image_url := SqlText "u";
                                food_name := SqlText "죽";
                                analysis := SqlText "a"; is_safe := SqlInt 0;
                                created_at := "2026-01-01 09:00:00" |} ];
              food_logs_seq := 9 |} in
  exists d',
    post_logs "2026-01-01 12:00:00" body d = Ok d'
    /\ exists row,
         food_logs d' = food_logs d ++ [row]
         /\ is_safe row = SqlInt 1
         /\ log_id row = 10.
Proof.
  intros body d.
  destruct (post_logs "2026-01-01 12:00:00" body d) as [d'| |] eqn:Hpost;
    [ | vm_compute in Hpost; discriminate Hpost
      | vm_compute in Hpost; discriminate Hpost ].
  exists d'. split; [ reflexivity | ].
  destruct (post_logs_appends_one_row _ _ _ _ Hpost)
    as (row & Hrows & _ & _ & _ & _ & _ & _).
  exists row. split; [ exact Hrows | ].
  vm_compute in Hpost. injection Hpost as <-.
  cbn in Hrows. injection Hrows as <-. split; reflexivity.
Defined.

(** *** Sequences of POSTs *)

Lemma post_logs_all_rows (posts : list (string * JValue)) (d d' : Db) :
  post_logs_all posts d = Ok d' ->
  food_logs d `prefix_of` food_logs d'
  /\ length (food_logs d') = (length (food_logs d) + length posts)%nat
  /\ (NoDup (log_ids d) -> NoDup (log_ids d'))
  /\ user_profile d' = user_profile d.
Proof.
  revert d. induction posts as [|[now body] posts IH]; intros d.
  - intros [= <-]. split; [ reflexivity | ]. cbn. split; [ lia | auto ].
  - cbn [post_logs_all].
    destruct (post_logs now body d) as [d1| |] eqn:Hpost; cbn [mbind Res_bind];
      try discriminate.
    intros Hrest. apply IH in Hrest as (Hpre & Hlen & Hnd & Hprof).
    destruct (post_logs_step now body d d1 Hpost) as (row & -> & Hid & _ & _).
    cbn [food_logs user_profile] in *.
    split; [ | split; [ | split ] ].
    + etransitivity; [ | exact Hpre ]. by apply prefix_app_r.
    + rewrite Hlen, length_app. cbn. lia.
    + intros Hnodup. apply Hnd. unfold log_ids. cbn [food_logs].
      rewrite map_app. cbn. apply NoDup_app. split; [ exact Hnodup | ].
      split; [ | apply NoDup_singleton ].
      intros i Hi Hrow. apply list_elem_of_singleton in Hrow. subst i.
      apply list_elem_of_fmap in Hi as (r & Hr & Hin).
      pose proof (next_log_id_above_rows d) as Habove.
      rewrite Forall_forall in Habove. specialize (Habove r Hin). lia.
    + exact Hprof.
Qed.

(** A sequence of successful POSTs to [/api/logs] loses and duplicates
    nothing: the earlier rows stay in place at the front, the table
    grows by exactly one row per POST, and ids that were distinct stay
    distinct. *)
Theorem post_logs_never_loses_rows (posts : list (string * JValue)) (d d' : Db) :
  post_logs_all posts d = Ok d' ->
  food_logs d `prefix_of` food_logs d'
  /\ length (food_logs d') = (length (food_logs d) + length posts)%nat
  /\ (NoDup (log_ids d) -> NoDup (log_ids d')).
Proof.
  intros Hall. destruct (post_logs_all_rows posts d d' Hall) as (H1 & H2 & H3 & _).
  auto.
Qed.

Lemma post_logs_never_loses_rows_witness :
  let body := JObj [("image_url", JStr "u"); ("food_name", JStr "죽");
                    ("analysis", JStr "a"); ("is_safe", JBool false)] in
  let d := {| user_profile := []; food_logs := []; food_logs_seq := 0 |} in
  exists d',
    post_logs_all [("t1", body); ("t2", body)] d = Ok d'
    /\ length (food_logs d') = 2%nat
    /\ NoDup (log_ids d').
Proof.
  intros body d.
  destruct (post_logs_all [("t1", body); ("t2", body)] d) as [d'| |] eqn:Hall;
    [ | vm_compute in Hall; discriminate Hall
      | vm_compute in Hall; discriminate Hall ].
  exists d'. split; [ reflexivity | ].
  destruct (post_logs_never_loses_rows _ _ _ Hall) as (_ & Hlen & Hnd).
  split; [ exact Hlen | ]. apply Hnd. constructor.
Defined.

(** *** Reading back what was posted *)

Lemma string_ltb_not_leb (x y : string) :
  (x <? y)%string = true -> (y <=? x)%string = true -> False.
Proof.
  unfold String.ltb, String.leb. rewrite (String.compare_antisym y x).
  destruct (String.compare x y); simpl; intros; congruence.
Qed.

Lemma newest_row_sorts_first (rows : list FoodLogRow) (row : FoodLogRow) :
  Forall (fun r => (created_at r <? created_at row)%string = true) rows ->
  exists rest, order_by_created_desc (rows ++ [row]) = row :: rest.
Proof.
  intros Hnewer.
  pose proof (order_Permutation (rows ++ [row])) as Hperm.
  pose proof (order_sorted (rows ++ [row])) as Hsorted.
  destruct (order_by_created_desc (rows ++ [row])) as [|h t] eqn:Hms.
  - apply Permutation_nil_l in Hperm. by destruct rows.
  - exists t. f_equal.
    assert (Hh : h ∈ rows ++ [row]) by (rewrite <- Hperm; left).
    assert (Hrow : row ∈ h :: t) by (rewrite Hperm, elem_of_app; right; left).
    apply elem_of_app in Hh as [Hh | Hh];
      [ | by apply list_elem_of_singleton in Hh ].
    apply elem_of_cons in Hrow as [-> | Hrow]; [ reflexivity | ].
    exfalso. apply StronglySorted_inv in Hsorted as [_ Hall].
    rewrite Forall_forall in Hall, Hnewer.
    exact (string_ltb_not_leb _ _ (Hnewer h Hh) (Hall row Hrow)).
Qed.

(** When the POST is served later than every stored timestamp, the next
    GET /api/logs lists the new row first. *)
Theorem posted_row_is_listed_first (now : string) (body : JValue) (d d' : Db) :
  newer_than_all now d ->
  post_logs now body d = Ok d' ->
  exists row rest,
    food_logs d' = food_logs d ++ [row]
    /\ created_at row = now
    /\ (get_logs d').1 = log_to_js row :: rest.
Proof.
  intros Hnewer Hpost.
  destruct (post_logs_step now body d d' Hpost) as (row & -> & _ & Hnow & _).
  destruct (newest_row_sorts_first (food_logs d) row) as [rest Hms].
  { rewrite Hnow. exact Hnewer. }
  exists row. eexists. split; [ reflexivity | ]. split; [ exact Hnow | ].
  unfold get_logs, select_logs. cbn [fst food_logs]. rewrite Hms. reflexivity.
Qed.

Lemma posted_row_is_listed_first_witness :
  let body := JObj [("image_url", JStr "u"); ("food_name", JStr "백미밥");
                    ("analysis", JStr "a"); ("is_safe", JBool true)] in
  let old := {| log_id := 1; image_url := SqlText "u"; food_name := SqlText "죽";
                analysis := SqlText "a"; is_safe := SqlInt 0;
                created_at := "2026-01-01 09:00:00" |} in
  let d := {| user_profile := []; food_logs := [old]; food_logs_seq := 1 |} in
  newer_than_all "2026-01-01 12:00:00" d
  /\ exists d' row rest,
       post_logs "2026-01-01 12:00:00" body d = Ok d'
       /\ created_at row = "2026-01-01 12:00:00"
       /\ (get_logs d').1 = log_to_js row :: rest.
Proof.
  intros body old d.
  assert (Hnewer : newer_than_all "2026-01-01 12:00:00" d)
    by (repeat constructor).
  split; [ exact Hnewer | ].
  destruct (post_logs "2026-01-01 12:00:00" body d) as [d'| |] eqn:Hpost;
    [ | vm_compute in Hpost; discriminate Hpost
      | vm_compute in Hpost; discriminate Hpost ].
  destruct (posted_row_is_listed_first _ _ _ _ Hnewer Hpost)
    as (row & rest & _ & Hnow & Hget).
  exists d', row, rest. split; [ reflexivity | ]. split; [ exact Hnow | exact Hget ].
Defined.

(** *** The two tables are independent *)

Lemma post_profile_shape (body : JValue) (d d' : Db) :
  post_profile body d = Ok d' ->
  exists a c,
    forall d2,
      post_profile body d2
      = Ok {| user_profile := upsert_profile a c (user_profile d2);
              food_logs := food_logs d2;
              food_logs_seq := food_logs_seq d2 |}.
Proof.
  unfold post_profile.
  destruct (get body "age") as [a| |]; cbn [mbind Res_bind]; try discriminate.
  destruct (get body "condition") as [c| |]; cbn [mbind Res_bind]; try discriminate.
  destruct (bind_param a) as [a'| |]; cbn [mbind Res_bind]; try discriminate.
  destruct (bind_param c) as [c'| |]; cbn [mbind Res_bind]; try discriminate.
  destruct (integer_affinity a') as [a''| |]; cbn [mbind Res_bind]; try discriminate.
  destruct (text_affinity c') as [c''| |]; cbn [mbind Res_bind]; try discriminate.
  intros _. exists a'', c''. reflexivity.
Qed.

(** A successful save of the profile and a successful POST of a log
    entry can be served in either order: the database is the same. *)
Theorem profile_and_log_posts_commute
    (now : string) (pbody lbody : JValue) (d d1 d2 : Db) :
  post_profile pbody d = Ok d1 ->
  post_logs now lbody d = Ok d2 ->
  exists d12, post_logs now lbody d1 = Ok d12 /\ post_profile pbody d2 = Ok d12.
Proof.
  intros Hp Hl.
  destruct (post_profile_shape _ _ _ Hp) as (a & c & Hpshape).
  destruct (post_logs_shape _ _ _ _ Hl) as (u & f & an & flag & _ & Hlshape).
  rewrite (Hpshape d) in Hp. injection Hp as <-.
  rewrite (Hlshape d) in Hl. injection Hl as <-.
  eexists. rewrite Hlshape, Hpshape. split; reflexivity.
Qed.

Lemma profile_and_log_posts_commute_witness :
  let lbody := JObj [("image_url", JStr "u"); ("food_name", JStr "백미밥");
                     ("analysis", JStr "a"); ("is_safe", JBool true)] in
  let d := {| user_profile := []; food_logs := []; food_logs_seq := 0 |} in
  exists d1 d2 d12,
    post_profile (profile_body 70 "당뇨") d = Ok d1
    /\ post_logs "2026-01-01 12:00:00" lbody d = Ok d2
    /\ post_logs "2026-01-01 12:00:00" lbody d1 = Ok d12
    /\ post_profile (profile_body 70 "당뇨") d2 = Ok d12.
Proof.
  intros lbody d.
  destruct (post_profile (profile_body 70 "당뇨") d) as [d1| |] eqn:Hp;
    [ | vm_compute in Hp; discriminate Hp | vm_compute in Hp; discriminate Hp ].
  destruct (post_logs "2026-01-01 12:00:00" lbody d) as [d2| |] eqn:Hl;
    [ | vm_compute in Hl; discriminate Hl | vm_compute in Hl; discriminate Hl ].
  destruct (profile_and_log_posts_commute _ _ _ _ _ _ Hp Hl) as (d12 & H1 & H2).
  exists d1, d2, d12. repeat split; assumption.
Defined.

End StoreProps.

(** ** More about the advisory client *)

Module ClientProps.
Import JS JSON Stringify Server Advisory App Views Invariants.
Local Open Scope list_scope.

(** *** The image payload *)

Lemma split_comma_whole (s : string) :
  no_comma s = true -> split_comma s = [s].
Proof.
  induction s as [|c r IH]; [ reflexivity | ].
  cbn [no_comma split_comma]. intros H. apply andb_true_iff in H as [Hc Hr].
  apply negb_true_iff in Hc. rewrite Hc, (IH Hr). reflexivity.
Qed.

Lemma split_comma_header (p d : string) :
  no_comma p = true ->
  split_comma (p ++ String "," d)%string = p :: split_comma d.
Proof.
  induction p as [|c r IH]; [ reflexivity | ].
  cbn [no_comma]. intros H. apply andb_true_iff in H as [Hc Hr].
  apply negb_true_iff in Hc.
  change (split_comma (String c r ++ String "," d)%string)
    with (if (c =? ",")%char then "" :: split_comma (r ++ String "," d)%string
          else match split_comma (r ++ String "," d)%string with
               | x :: xs => String c x :: xs
               | [] => [String c ""]
               end).
  rewrite Hc, (IH Hr). reflexivity.
Qed.

(** The data sent for an image: a data URL loses its header up to the
    comma; a text without a comma, or with nothing after its comma, is
    sent whole; and the data is empty only for the empty text. *)
Theorem image_data_strips_header :
  (forall b, no_comma b = true -> image_data b = b)
  /\ (forall p d, no_comma p = true -> no_comma d = true -> d <> "" ->
       image_data (p ++ String "," d)%string = d)
  /\ (forall p, no_comma p = true ->
       image_data (p ++ ",")%string = (p ++ ",")%string)
  /\ (forall b, b <> "" -> image_data b <> "").
Proof.
  split; [ | split; [ | split ] ].
  - intros b Hb. unfold image_data. rewrite (split_comma_whole b Hb). reflexivity.
  - intros p d Hp Hd Hne. unfold image_data.
    rewrite (split_comma_header p d Hp), (split_comma_whole d Hd).
    destruct (String.eqb_spec d ""); [ contradiction | reflexivity ].
  - intros p Hp. unfold image_data.
    rewrite (split_comma_header p "" Hp). reflexivity.
  - intros b Hne. unfold image_data.
    destruct (split_comma b) as [|x [|y l]]; try exact Hne.
    destruct (String.eqb_spec y ""); assumption.
Qed.

Lemma image_data_strips_header_witness :
  (no_comma "data:image/jpeg;base64" = true /\ no_comma "QUJD" = true
   /\ "QUJD" <> "")
  /\ image_data "data:image/jpeg;base64,QUJD" = "QUJD".
Proof.
  assert (Hp : no_comma "data:image/jpeg;base64" = true) by reflexivity.
  assert (Hd : no_comma "QUJD" = true) by reflexivity.
  assert (Hne : "QUJD" <> "") by discriminate.
  split; [ split; [ exact Hp | split; [ exact Hd | exact Hne ] ] | ].
  exact (proj1 (proj2 image_data_strips_header)
           "data:image/jpeg;base64" "QUJD" Hp Hd Hne).
Defined.

(** *** Printing never leaves the embedding *)

Lemma to_string_modelled (v : JValue) : to_string v <> Unmodelled.
Proof.
  revert v. fix IH 1. intros [ | | [|] | n | s | items | props]; cbn [to_string];
    try discriminate.
  - assert (Helems :
      forall l,
        (fix elems (l : list JValue) : Res (list string) :=
           match l with
           | [] => Ok []
           | x :: l' =>
               p ← match x with
                   | JUndefined | JNull => Ok ""
                   | _ => to_string x
                   end;
               ps ← elems l';
               Ok (p :: ps)
           end) l <> Unmodelled).
    { fix IHl 1. intros [|x l]; [ discriminate | ].
      pose proof (IH x) as Hx. pose proof (IHl l) as Hl.
      assert (Hh : match x with
                   | JUndefined | JNull => Ok ""
                   | _ => to_string x
                   end <> Unmodelled)
        by (destruct x; solve [ discriminate | exact Hx ]).
      match type of Hl with ?r <> _ => set (rest := r) in * end.
      match type of Hh with ?h <> _ => set (head := h) in * end.
      change (head ≫= (fun p => rest ≫= (fun ps => Ok (p :: ps))) <> Unmodelled).
      destruct head; [ | discriminate | congruence ].
      destruct rest; [ discriminate | discriminate | congruence ]. }
    specialize (Helems items).
    match type of Helems with ?r <> _ => destruct r end;
      cbn [mbind Res_bind]; congruence.
  - destruct (assoc "toString" props); discriminate.
Qed.

Lemma analyzeFoodImage_request_modelled b a c :
  analyzeFoodImage_request b a c <> Unmodelled.
Proof.
  unfold analyzeFoodImage_request.
  pose proof (to_string_modelled a) as Ha. pose proof (to_string_modelled c) as Hc.
  destruct (to_string a); cbn [mbind Res_bind]; try congruence.
  destruct (to_string c); cbn [mbind Res_bind]; try congruence.
  destruct b; discriminate.
Qed.

Lemma getDailyRecommendation_request_modelled l a c :
  getDailyRecommendation_request l a c <> Unmodelled.
Proof.
  unfold getDailyRecommendation_request.
  pose proof (to_string_modelled a) as Ha. pose proof (to_string_modelled c) as Hc.
  destruct (to_string a); cbn [mbind Res_bind]; try congruence.
  destruct (to_string c); cbn [mbind Res_bind]; try congruence.
Qed.

End ClientProps.

(** ** The domain of the embedding *)

Module DomainProps.
Import JS JSON Stringify Server Advisory App Invariants.
Import ServerProps AppProps StoreProps ClientProps.
Local Open Scope list_scope.

(** *** Properties of objects *)

Lemma assoc_set_prop_same (k : string) (v : JValue)
    (props : list (string * JValue)) :
  assoc k (set_prop k v props) = Some v.
Proof.
  induction props as [|[k' v'] props IH]; cbn [set_prop assoc].
  - by rewrite String.eqb_refl.
  - destruct (String.eqb k k') eqn:E; cbn [assoc]; rewrite E; [ reflexivity | exact IH ].
Qed.

Lemma assoc_set_prop_other (k k' : string) (v : JValue)
    (props : list (string * JValue)) :
  k <> k' -> assoc k (set_prop k' v props) = assoc k props.
Proof.
  intros Hne. induction props as [|[k2 v2] props IH]; cbn [set_prop assoc].
  - destruct (String.eqb k k') eqn:E; [ | reflexivity ].
    apply String.eqb_eq in E. contradiction.
  - destruct (String.eqb k' k2) eqn:E; cbn [assoc].
    + apply String.eqb_eq in E. subst k2.
      destruct (String.eqb k k') eqn:E'; [ | reflexivity ].
      apply String.eqb_eq in E'. contradiction.
    + by rewrite IH.
Qed.

Lemma assoc_sent_props (k : string) (v : JValue) (props : list (string * JValue)) :
  assoc k props = Some v -> v <> JUndefined -> assoc k (sent_props props) = Some v.
Proof.
  intros Hk Hv. induction props as [|[k' v'] props IH]; [ discriminate | ].
  cbn [assoc] in Hk. destruct (String.eqb k k') eqn:E.
  - injection Hk as ->. destruct v; try contradiction; cbn [sent_props assoc];
      by rewrite E.
  - specialize (IH Hk). destruct v'; cbn [sent_props assoc]; rewrite ?E; exact IH.
Qed.

Lemma assoc_sent_set_prop_other (k k' : string) (v : JValue)
    (props : list (string * JValue)) :
  k <> k' -> v <> JUndefined ->
  assoc k (sent_props (set_prop k' v props)) = assoc k (sent_props props).
Proof.
  intros Hne Hv.
  assert (Hk : String.eqb k k' = false) by (by apply String.eqb_neq).
  induction props as [|[k0 v0] props IH]; cbn [set_prop].
  - destruct v; try contradiction; cbn [sent_props assoc]; by rewrite Hk.
  - destruct (String.eqb k' k0) eqn:E0.
    + apply String.eqb_eq in E0. subst k0.
      destruct v; try contradiction; destruct v0; cbn [sent_props assoc];
        rewrite ?Hk; reflexivity.
    + destruct v0; cbn [sent_props assoc]; rewrite ?IH; reflexivity.
Qed.

Lemma field_sent_set_prop (k k' : string) (v : JValue)
    (props : list (string * JValue)) :
  v <> JUndefined ->
  field (sent_props (set_prop k' v props)) k
  = if String.eqb k k' then v else field (sent_props props) k.
Proof.
  intros Hv. unfold field. destruct (String.eqb k k') eqn:E.
  - apply String.eqb_eq in E. subst k'.
    by rewrite (assoc_sent_props _ _ _ (assoc_set_prop_same k v props) Hv).
  - apply String.eqb_neq in E. by rewrite assoc_sent_set_prop_other.
Qed.

(** *** Nothing the handlers compute leaves the embedding *)

Lemma get_modelled (v : JValue) (k : string) : get v k <> Unmodelled.
Proof. by destruct v. Qed.

Lemma concat_modelled (a b : JValue) : concat a b <> Unmodelled.
Proof.
  unfold concat. pose proof (to_string_modelled a). pose proof (to_string_modelled b).
  destruct (to_string a); cbn [mbind Res_bind]; try congruence.
  destruct (to_string b); cbn [mbind Res_bind]; congruence.
Qed.

Lemma log_body_outcome (b : string) (result : JValue) :
  (exists e, log_body b result = Throw e)
  \/ exists fn an sf,
       get result "foodName" = Ok fn
       /\ log_body b result
          = Ok [("image_url", JStr b); ("food_name", fn); ("analysis", JStr an);
                ("is_safe", sf)].
Proof.
  unfold log_body, concat.
  pose proof (get_modelled result "foodName").
  destruct (get result "foodName") as [fn|e|]; cbn [mbind Res_bind];
    [ | eauto | congruence ].
  pose proof (get_modelled result "analysis").
  destruct (get result "analysis") as [an|e|]; cbn [mbind Res_bind];
    [ | eauto | congruence ].
  pose proof (to_string_modelled an).
  destruct (to_string an) as [san|e|]; cbn [mbind Res_bind to_string];
    [ | eauto | congruence ].
  pose proof (get_modelled result "tips").
  destruct (get result "tips") as [tp|e|]; cbn [mbind Res_bind];
    [ | eauto | congruence ].
  pose proof (to_string_modelled tp).
  destruct (to_string tp) as [stp|e|]; cbn [mbind Res_bind];
    [ | eauto | congruence ].
  pose proof (get_modelled result "isSafe").
  destruct (get result "isSafe") as [sf|e|]; cbn [mbind Res_bind];
    [ | eauto | congruence ].
  right. eauto 10.
Qed.

Lemma onloadend_defined (f : File) (p : JValue) (st : AppState) :
  exists r, onloadend f p st = Some r.
Proof.
  unfold onloadend.
  pose proof (get_modelled p "age").
  destruct (get p "age") as [a|e|]; cbn [mbind Res_bind]; [ | eauto | congruence ].
  pose proof (get_modelled p "condition").
  destruct (get p "condition") as [c|e|]; cbn [mbind Res_bind];
    [ | eauto | congruence ].
  pose proof (analyzeFoodImage_request_modelled (data_url f) a c).
  destruct (analyzeFoodImage_request (data_url f) a c) as [req|e|];
    cbn [mbind Res_bind]; [ eauto | eauto | congruence ].
Qed.

Lemma analysed_defined (b : string) (reply : ProviderReply) (st : AppState) :
  reply_embedded reply = true ->
  name_embedded reply = true ->
  exists st' outs next,
    analysed b reply st = Some (st', outs, next)
    /\ match next with
       | Some t => task_typed t
       | None => True
       end.
Proof.
  unfold reply_embedded, name_embedded, analysed.
  destruct (parse_reply reply) as [result|e|]; [ | | discriminate ].
  - intros _ Hname.
    destruct (log_body_outcome b result) as [[e ->] | (fn & an & sf & Hfn & ->)].
    + unfold caught. do 3 eexists. by split.
    + rewrite Hfn in Hname. do 3 eexists. split; [ reflexivity | ].
      cbn [task_typed]. eauto 10.
  - intros _ _. unfold caught. do 3 eexists. by split.
Qed.

Lemma recommended_defined (reply : ProviderReply) (st : AppState) :
  reply_embedded reply = true ->
  exists st' outs,
    recommended reply st = Some (st', outs) /\ profile st' = profile st.
Proof.
  unfold reply_embedded, recommended.
  destruct (parse_reply reply) as [data|e|]; [ | | discriminate ]; intros _;
    cbn [mbind Res_bind].
  - pose proof (get_modelled data "recommendation").
    destruct (get data "recommendation") as [r|e|]; [ | | congruence ]; eauto.
  - eauto.
Qed.

Lemma recommendation_effect_object (st : AppState)
    (props : list (string * JValue)) :
  profile st = JObj props ->
  exists outs ts, recommendation_effect st = Some (outs, ts).
Proof.
  intros Hp. unfold recommendation_effect. rewrite Hp, get_object.
  destruct (truthy (field props "age") && negb (length (logs st) =? 0)%nat);
    [ | eauto ].
  unfold fetchRecommendation. rewrite Hp, !get_object. cbn [mbind Res_bind].
  pose proof (getDailyRecommendation_request_modelled (take 5 (logs st))
                (field props "age") (field props "condition")) as Hm.
  destruct (getDailyRecommendation_request _ _ _); [ eauto | eauto | congruence ].
Qed.

Lemma recommendation_effect_typed (st : AppState) (outs : list Output)
    (ts : list Task) :
  recommendation_effect st = Some (outs, ts) -> Forall task_typed ts.
Proof.
  unfold recommendation_effect.
  destruct (get (profile st) "age") as [a| |]; try discriminate.
  destruct (truthy a && negb (length (logs st) =? 0)%nat);
    [ | intros [= <- <-]; constructor ].
  unfold fetchRecommendation.
  destruct (_ ≫= _) as [req|e|]; [ | | discriminate ]; intros [= <- <-];
    repeat constructor.
Qed.

Lemma with_effect_defined (st : AppState) (d : Db) (ts : list Task)
    (outs : list Output) (props : list (string * JValue)) :
  profile st = JObj props ->
  exists outs' ts',
    with_effect st d ts outs
    = Some ({| app := st; db := d; tasks := ts ++ ts' |}, outs ++ outs')
    /\ Forall task_typed ts'.
Proof.
  intros Hp. destruct (recommendation_effect_object st props Hp) as (o & t & Heff).
  exists o, t. unfold with_effect. rewrite Heff. split; [ reflexivity | ].
  exact (recommendation_effect_typed _ _ _ Heff).
Qed.

(** *** The routes on what the component sends *)

Lemma http_post_logs_defined (now : string) (body : list (string * JValue))
    (d : Db) :
  task_typed (posting_log body) ->
  exists d', http_post (post_logs now) body d = Some d'
             /\ user_profile d' = user_profile d.
Proof.
  intros (b & fn & an & sf & -> & Hfn). unfold http_post.
  destruct (JSON_stringify_object
              [("image_url", JStr b); ("food_name", fn); ("analysis", JStr an);
               ("is_safe", sf)]) as [t ->].
  destruct (Z.of_nat (String.length t) <=? body_limit); [ | eauto ].
  destruct fn; try discriminate Hfn; destruct sf; cbn; eauto.
Qed.

Lemma upsert_profile_typed (a c : SqlValue) (rows : list ProfileRow) :
  typed_row {| profile_id := 1; age := a; condition := c |} = true ->
  Forall (fun r => typed_row r = true) rows ->
  Forall (fun r => typed_row r = true) (upsert_profile a c rows).
Proof.
  intros Hnew. induction 1 as [|r rows Hr Hrows IH]; cbn [upsert_profile].
  - by repeat constructor.
  - destruct (profile_id r =? 1); constructor; auto.
Qed.

Lemma http_post_profile_defined (props : list (string * JValue)) (d : Db) :
  profile_typed (JObj props) ->
  typed d ->
  exists d', http_post post_profile props d = Some d'
             /\ typed d'.
Proof.
  intros (props' & [= <-] & Ha & Hc) Htyped. unfold http_post.
  destruct (JSON_stringify_object props) as [t ->].
  destruct (Z.of_nat (String.length t) <=? body_limit); [ | eauto ].
  unfold post_profile. rewrite !get_object. cbn [mbind Res_bind].
  destruct (field (sent_props props) "age"); try discriminate Ha;
    destruct (field (sent_props props) "condition"); try discriminate Hc;
    cbn; eexists; (split; [ reflexivity | ]);
    unfold typed; cbn [user_profile]; by apply upsert_profile_typed.
Qed.

Lemma lost_response_logs_defined (served : option string)
    (body : list (string * JValue)) (d : Db) :
  task_typed (posting_log body) ->
  exists d', lost_response (fun now => http_post (post_logs now) body) served d
             = Some d'
             /\ user_profile d' = user_profile d.
Proof.
  intros Hbody. destruct served as [now|]; cbn [lost_response]; [ | eauto ].
  by apply http_post_logs_defined.
Qed.

Lemma lost_response_profile_defined (served : option string)
    (props : list (string * JValue)) (d : Db) :
  profile_typed (JObj props) ->
  typed d ->
  exists d', lost_response (fun _ => http_post post_profile props) served d
             = Some d'
             /\ typed d'.
Proof.
  intros Hp Hd. destruct served as [now|]; cbn [lost_response]; [ | eauto ].
  by apply http_post_profile_defined.
Qed.

Lemma get_profile_typed (d : Db) : typed d -> profile_typed (get_profile d).
Proof.
  intros Htyped. unfold get_profile, select_profile.
  destruct (List.find _ (user_profile d)) as [r|] eqn:Hfind.
  - apply List.find_some in Hfind as [Hin _].
    unfold typed in Htyped. rewrite List.Forall_forall in Htyped.
    specialize (Htyped r Hin). unfold typed_row in Htyped.
    unfold profile_to_js. eexists. split; [ reflexivity | ].
    destruct (age r), (condition r); try discriminate Htyped; split; reflexivity.
  - exists []. repeat split.
Qed.

Lemma spread_age_typed (props : list (string * JValue)) (a : Z) :
  profile_typed (JObj props) ->
  profile_typed (JObj (set_prop "age" (JNum a) props)).
Proof.
  intros (props' & [= <-] & Ha & Hc). eexists. split; [ reflexivity | ].
  rewrite !field_sent_set_prop by discriminate. by split.
Qed.

Lemma spread_condition_typed (props : list (string * JValue)) (c : string) :
  profile_typed (JObj props) ->
  profile_typed (JObj (set_prop "condition" (JStr c) props)).
Proof.
  intros (props' & [= <-] & Ha & Hc). eexists. split; [ reflexivity | ].
  rewrite !field_sent_set_prop by discriminate. by split.
Qed.

(** *** Every admitted event is taken *)

Lemma Forall_delete_typed (ts : list Task) (i : nat) :
  Forall task_typed ts -> Forall task_typed (delete i ts).
Proof.
  intros H. revert i. induction H as [|t ts Ht Hts IH]; intros [|i];
    try constructor; auto.
Qed.

Lemma Forall_insert_typed (ts : list Task) (i : nat) (t : Task) :
  Forall task_typed ts -> task_typed t -> Forall task_typed (<[i := t]> ts).
Proof.
  intros H Ht. revert i. induction H as [|x ts Hx Hts IH]; intros [|i];
    try constructor; auto.
Qed.

Lemma Forall_continue_typed (ts : list Task) (i : nat) (next : option Task) :
  Forall task_typed ts ->
  match next with Some t => task_typed t | None => True end ->
  Forall task_typed (continue i next ts).
Proof.
  intros H Hn. destruct next; cbn [continue];
    [ by apply Forall_insert_typed | by apply Forall_delete_typed ].
Qed.

Lemma lookup_typed (ts : list Task) (i : nat) (t : Task) :
  Forall task_typed ts -> ts !! i = Some t -> task_typed t.
Proof.
  intros H Hi. rewrite Forall_forall in H. apply H.
  by apply list_elem_of_lookup_2 in Hi.
Qed.

Lemma handleImageUpload_object (file : option File) (st : AppState)
    (props : list (string * JValue)) :
  profile st = JObj props ->
  exists st' outs next,
    handleImageUpload file st = Ok (st', outs, next)
    /\ profile st' = profile st
    /\ match next with Some t => task_typed t | None => True end.
Proof.
  intros Hp. unfold handleImageUpload.
  destruct file as [f|]; [ | do 3 eexists; by repeat split ].
  rewrite Hp, !get_object. cbn [mbind Res_bind].
  destruct (negb (truthy (field props "age")));
    [ do 3 eexists; by repeat split | ].
  destruct (negb (truthy (field props "condition")));
    do 3 eexists; by repeat split.
Qed.

Lemma onloadend_typed (f : File) (p : JValue) (st st' : AppState)
    (outs : list Output) (next : option Task) :
  onloadend f p st = Some (st', outs, next) ->
  profile st' = profile st
  /\ match next with Some t => task_typed t | None => True end.
Proof.
  unfold onloadend.
  destruct (_ ≫= _) as [[req b]|e|]; [ | | discriminate ];
    intros [= <- <- <-]; by split.
Qed.

Lemma analysed_profile (b : string) (reply : ProviderReply) (st st' : AppState)
    (outs : list Output) (next : option Task) :
  analysed b reply st = Some (st', outs, next) -> profile st' = profile st.
Proof.
  unfold analysed.
  destruct (parse_reply reply) as [result|e|]; [ | | discriminate ].
  - destruct (log_body b result) as [body|e|]; [ | | discriminate ];
      by intros [= <- <- <-].
  - by intros [= <- <- <-].
Qed.

(** In a world the component can be in, every admitted event is taken,
    and leads to such a world. *)
Lemma step_defined (e : Event) (w : World) :
  sane w ->
  admits e w = true ->
  exists w' outs, step e w = Some (w', outs) /\ sane w'.
Proof.
  intros (Hprof & Hdb & Htasks) Hadm.
  pose proof Hprof as (props & Hp & Hpa & Hpc).
  unfold step.
  destruct e as [file|t|a|c| | | |i|i reply|i now|i served]; cbn [admits] in Hadm.
  - destruct (handleImageUpload_object file (app w) props Hp)
      as (st' & outs & next & -> & Hp' & Hnext).
    do 2 eexists. split; [ reflexivity | ].
    split; [ cbn [app]; by rewrite Hp' | ]. split; [ exact Hdb | ].
    cbn [tasks]. apply Forall_app. split; [ exact Htasks | ].
    destruct next; cbn [option_list]; by repeat constructor.
  - do 2 eexists. split; [ reflexivity | ]. by repeat split.
  - rewrite Hp. cbn [spread_with].
    destruct (with_effect_defined
                (setProfile (JObj (set_prop "age" (JNum a) props)) (app w))
                (db w) (tasks w) [] _ eq_refl) as (o & ts & -> & Hts).
    do 2 eexists. split; [ reflexivity | ].
    split; [ cbn [app profile setProfile]; apply spread_age_typed;
             rewrite <- Hp; exact Hprof | ].
    split; [ exact Hdb | ]. cbn [tasks]. by apply Forall_app.
  - rewrite Hp. cbn [spread_with].
    destruct (with_effect_defined
                (setProfile (JObj (set_prop "condition" (JStr c) props)) (app w))
                (db w) (tasks w) [] _ eq_refl) as (o & ts & -> & Hts).
    do 2 eexists. split; [ reflexivity | ].
    split; [ cbn [app profile setProfile]; apply spread_condition_typed;
             rewrite <- Hp; exact Hprof | ].
    split; [ exact Hdb | ]. cbn [tasks]. by apply Forall_app.
  - do 2 eexists. split; [ reflexivity | ].
    split; [ exact Hprof | ]. split; [ exact Hdb | ].
    cbn [tasks]. apply Forall_app. split; [ exact Htasks | ].
    by repeat constructor.
  - do 2 eexists. split; [ reflexivity | ]. by repeat split.
  - do 2 eexists. split; [ reflexivity | ]. by repeat split.
  - destruct (tasks w !! i) as [[f p| | | | | | ]|] eqn:Hi; try discriminate Hadm.
    destruct (onloadend_defined f p (app w)) as [[[st' outs] next] Hon].
    rewrite Hon. apply onloadend_typed in Hon as [Hp' Hnext].
    do 2 eexists. split; [ reflexivity | ].
    split; [ cbn [app]; by rewrite Hp' | ]. split; [ exact Hdb | ].
    cbn [tasks]. by apply Forall_continue_typed.
  - destruct (tasks w !! i) as [[ |b req| | | |req| ]|] eqn:Hi;
      try discriminate Hadm.
    + apply andb_true_iff in Hadm as [Hre Hne].
      destruct (analysed_defined b reply (app w) Hre Hne)
        as (st' & outs & next & Han & Hnext).
      rewrite Han. apply analysed_profile in Han.
      do 2 eexists. split; [ reflexivity | ].
      split; [ cbn [app]; by rewrite Han | ]. split; [ exact Hdb | ].
      cbn [tasks]. by apply Forall_continue_typed.
    + destruct (recommended_defined reply (app w) Hadm) as (st' & outs & -> & Hp').
      do 2 eexists. split; [ reflexivity | ].
      split; [ cbn [app]; by rewrite Hp' | ]. split; [ exact Hdb | ].
      cbn [tasks]. by apply Forall_delete_typed.
  - destruct (tasks w !! i) as [[ | |body| | | |body]|] eqn:Hi;
      try discriminate Hadm.
    + destruct (http_post_logs_defined now body (db w)
                  (lookup_typed _ _ _ Htasks Hi)) as (d' & -> & Hd').
      cbn [posted]. do 2 eexists. split; [ reflexivity | ].
      split; [ exact Hprof | ].
      split; [ unfold typed in *; cbn [db]; by rewrite Hd' | ].
      cbn [tasks]. apply Forall_app.
      split; [ by apply Forall_delete_typed | by repeat constructor ].
    + cbn [get_logs].
      destruct (with_effect_defined
                  (setLogs (map log_to_js (select_logs (db w))) (app w))
                  (db w) (delete i (tasks w)) [] props Hp) as (o & ts & -> & Hts).
      do 2 eexists. split; [ reflexivity | ].
      split; [ exact Hprof | ]. split; [ exact Hdb | ].
      cbn [tasks]. apply Forall_app.
      split; [ by apply Forall_delete_typed | exact Hts ].
    + pose proof (get_profile_typed (db w) Hdb) as Hgp.
      pose proof Hgp as (props' & Hp' & _).
      destruct (with_effect_defined
                  (setProfile (get_profile (db w)) (app w))
                  (db w) (delete i (tasks w)) [] props' Hp') as (o & ts & -> & Hts).
      do 2 eexists. split; [ reflexivity | ].
      split; [ exact Hgp | ]. split; [ exact Hdb | ].
      cbn [tasks]. apply Forall_app.
      split; [ by apply Forall_delete_typed | exact Hts ].
    + pose proof (lookup_typed _ _ _ Htasks Hi) as Hbody.
      cbn [task_typed] in Hbody. pose proof Hbody as (bprops & -> & _).
      destruct (http_post_profile_defined bprops (db w) Hbody Hdb) as (d' & -> & Hd').
      do 2 eexists. split; [ reflexivity | ].
      split; [ exact Hprof | ]. split; [ exact Hd' | ].
      cbn [tasks]. by apply Forall_delete_typed.
  - destruct (tasks w !! i) as [[ | |body| | | |body]|] eqn:Hi;
      try discriminate Hadm.
    + destruct (lost_response_logs_defined served body (db w)
                  (lookup_typed _ _ _ Htasks Hi)) as (d' & -> & Hd').
      cbn [caught]. do 2 eexists. split; [ reflexivity | ].
      split; [ exact Hprof | ].
      split; [ unfold typed in *; cbn [db]; by rewrite Hd' | ].
      cbn [tasks]. by apply Forall_delete_typed.
    + do 2 eexists. split; [ reflexivity | ].
      split; [ exact Hprof | ]. split; [ exact Hdb | ].
      cbn [tasks]. by apply Forall_delete_typed.
    + do 2 eexists. split; [ reflexivity | ].
      split; [ exact Hprof | ]. split; [ exact Hdb | ].
      cbn [tasks]. by apply Forall_delete_typed.
    + pose proof (lookup_typed _ _ _ Htasks Hi) as Hbody.
      cbn [task_typed] in Hbody. pose proof Hbody as (bprops & -> & _).
      destruct (lost_response_profile_defined served bprops (db w) Hbody Hdb)
        as (d' & -> & Hd').
      do 2 eexists. split; [ reflexivity | ].
      split; [ exact Hprof | ]. split; [ exact Hd' | ].
      cbn [tasks]. by apply Forall_delete_typed.
Qed.

Lemma mount_sane (d : Db) : typed d -> sane (mount d).
Proof.
  intros Hd. split; [ | split; [ exact Hd | by repeat constructor ] ].
  exists []. repeat split.
Qed.

(** An admissible run is carried out to its end. *)
Lemma run_defined (es : list Event) (w : World) :
  sane w ->
  admissible es w = true ->
  exists w' outs, run es w = Some (w', outs) /\ sane w'.
Proof.
  revert w. induction es as [|e es IH]; intros w Hsane Hadm.
  - exists w, []. by split.
  - cbn [admissible] in Hadm. apply andb_true_iff in Hadm as [He Hes].
    destruct (step_defined e w Hsane He) as (w1 & o1 & Hstep & Hsane1).
    rewrite Hstep in Hes. destruct (IH w1 Hsane1 Hes) as (w2 & o2 & Hrun & Hsane2).
    exists w2, (o1 ++ o2). cbn [run]. rewrite Hstep, Hrun. by split.
Qed.

End DomainProps.

(** ** More about the analysis flow *)

Module FlowProps.
Import JS JSON Stringify Server Advisory App Views Invariants.
Import ServerProps AppProps StoreProps ClientProps DomainProps.
Local Open Scope list_scope.

(** *** Every way a capture can end *)

Lemma analysis_flow_answered (f : File) (reply : ProviderReply) (now : string)
    (w : World) :
  analysis_flow f reply now w = capture_flow f reply (answered now) w.
Proof. reflexivity. Qed.

Lemma capture_not_started (w : World) (f : File) (reply : ProviderReply)
    (post : PostOutcome) (st' : AppState) (outs : list Output) :
  handleImageUpload (Some f) (app w) = Ok (st', outs, None) ->
  capture_flow f reply post w
  = Some ({| app := st'; db := db w; tasks := tasks w |}, outs).
Proof.
  intros Hh. unfold capture_flow, step. rewrite Hh. cbn [option_list tasks].
  rewrite app_nil_r, lookup_ge_None_2 by lia. reflexivity.
Qed.

Lemma capture_handler_throws (w : World) (f : File) (reply : ProviderReply)
    (post : PostOutcome) (e : JsError) :
  handleImageUpload (Some f) (app w) = Throw e ->
  capture_flow f reply post w = Some (w, [console_error e]).
Proof.
  intros Hh. unfold capture_flow, step. rewrite Hh.
  rewrite lookup_ge_None_2 by lia. reflexivity.
Qed.

Section Started.
Variables (w : World) (f : File) (reply : ProviderReply) (post : PostOutcome).
Variables (a c : JValue).
Hypothesis Hage : get (profile (app w)) "age" = Ok a.
Hypothesis Hage_truthy : truthy a = true.
Hypothesis Hcond : get (profile (app w)) "condition" = Ok c.
Hypothesis Hcond_truthy : truthy c = true.

Lemma capture_request_throws (e : JsError) :
  analyzeFoodImage_request (data_url f) a c = Throw e ->
  capture_flow f reply post w
  = Some ({| app := setLoading false (capturing (app w)); db := db w;
             tasks := tasks w |},
          [console_error e; alert analysis_failed]).
Proof.
  intros Hreq. unfold capture_flow.
  rewrite (step_change_starts w f a c Hage Hage_truthy Hcond Hcond_truthy).
  cbn [tasks]. rewrite lookup_last.
  unfold step. cbn [tasks app db]. rewrite lookup_last.
  unfold onloadend. rewrite Hage, Hcond. cbn [mbind Res_bind].
  rewrite Hreq. cbn [mbind Res_bind caught continue].
  rewrite delete_last. cbn [tasks]. rewrite lookup_ge_None_2 by lia.
  reflexivity.
Qed.

Variable req : Request.
Hypothesis Hreq : analyzeFoodImage_request (data_url f) a c = Ok req.

Lemma capture_reaches_provider :
  capture_flow f reply post w
  = let i := length (tasks w) in
    let w2 := {| app := capturing (app w); db := db w;
                 tasks := tasks w ++ [analysing (default "" (data_url f)) req] |} in
    match step (provider_reply i reply) w2 with
    | Some (w3, o3) =>
        match tasks w3 !! i with
        | Some (posting_log _) =>
            match step (post_event i post) w3 with
            | Some (w4, o4) =>
                Some (w4, [advisory (analyzeFoodImage_call req)] ++ o3 ++ o4)
            | None => None
            end
        | _ => Some (w3, [advisory (analyzeFoodImage_call req)] ++ o3)
        end
    | None => None
    end.
Proof.
  unfold capture_flow.
  rewrite (step_change_starts w f a c Hage Hage_truthy Hcond Hcond_truthy).
  cbn [tasks]. rewrite lookup_last.
  unfold step at 1. cbn [tasks app db]. rewrite lookup_last.
  unfold onloadend. rewrite Hage, Hcond. cbn [mbind Res_bind].
  rewrite Hreq. cbn [mbind Res_bind continue].
  rewrite insert_last. cbn [tasks]. rewrite lookup_last.
  reflexivity.
Qed.

Lemma capture_parse_throws (e : JsError) :
  parse_reply reply = Throw e ->
  capture_flow f reply post w
  = Some ({| app := setLoading false (capturing (app w)); db := db w;
             tasks := tasks w |},
          [advisory (analyzeFoodImage_call req); console_error e;
           alert analysis_failed]).
Proof.
  intros Hparse. rewrite capture_reaches_provider. cbv zeta.
  unfold step. cbn [tasks app db]. rewrite lookup_last.
  unfold analysed. rewrite Hparse. cbn [caught continue].
  rewrite delete_last. cbn [tasks]. rewrite lookup_ge_None_2 by lia.
  reflexivity.
Qed.

Variable result : JValue.
Hypothesis Hparse : parse_reply reply = Ok result.

Lemma capture_body_throws (e : JsError) :
  log_body (default "" (data_url f)) result = Throw e ->
  capture_flow f reply post w
  = Some ({| app := setLoading false (setAnalysisResult result (capturing (app w)));
             db := db w; tasks := tasks w |},
          [advisory (analyzeFoodImage_call req); console_error e;
           alert analysis_failed]).
Proof.
  intros Hbody. rewrite capture_reaches_provider. cbv zeta.
  unfold step. cbn [tasks app db]. rewrite lookup_last.
  unfold analysed. rewrite Hparse, Hbody. cbn [caught continue].
  rewrite delete_last. cbn [tasks]. rewrite lookup_ge_None_2 by lia.
  reflexivity.
Qed.

(** The POST is sent: the flow ends with the database the server
    leaves, in the [try] block when the POST is answered, in the [catch]
    block when its fetch rejects. *)
Lemma capture_posts (body : list (string * JValue)) (d' : Db) :
  log_body (default "" (data_url f)) result = Ok body ->
  post_served post body (db w) = Some d' ->
  capture_flow f reply post w
  = Some ({| app := setLoading false (setAnalysisResult result (capturing (app w)));
             db := d'; tasks := tasks w ++ post_tasks post |},
          advisory (analyzeFoodImage_call req) :: post_outputs post).
Proof.
  intros Hbody Hpost. rewrite capture_reaches_provider. cbv zeta.
  unfold step at 1. cbn [tasks app db]. rewrite lookup_last.
  unfold analysed. rewrite Hparse, Hbody. cbn [continue].
  rewrite insert_last. cbn [tasks]. rewrite lookup_last.
  unfold post_served in Hpost.
  destruct post as [now|served]; cbn [post_event served_at] in *;
    unfold step; cbn [tasks app db]; rewrite lookup_last.
  - rewrite Hpost. cbn [posted post_tasks post_outputs]. rewrite delete_last.
    reflexivity.
  - assert (Hlost : lost_response (fun now => http_post (post_logs now) body)
                      served (db w) = Some d')
      by (destruct served; exact Hpost).
    rewrite Hlost. cbn [caught post_tasks post_outputs]. rewrite delete_last.
    rewrite app_nil_r. reflexivity.
Qed.

End Started.

Lemma truthy_property_of_object (v : JValue) (k : string) (x : JValue) :
  get v k = Ok x -> truthy x = true -> exists props, v = JObj props.
Proof.
  destruct v; cbn [get]; try discriminate; try (intros [= <-]; discriminate).
  eauto.
Qed.

Lemma profile_first_is_not_failure : alert profile_first <> alert analysis_failed.
Proof. intros H. injection H as H. vm_compute in H. discriminate H. Qed.

Lemma post_served_defined (post : PostOutcome) (body : list (string * JValue))
    (d : Db) :
  task_typed (posting_log body) -> exists d', post_served post body d = Some d'.
Proof.
  intros Hbody. unfold post_served. destruct (served_at post) as [now|]; [ | eauto ].
  destruct (http_post_logs_defined now body d Hbody) as (d' & -> & _). eauto.
Qed.

(** A capture with a reply the embedding follows runs to its end, in one
    of three ways: it does not start; it starts and ends in the catch
    block before the POST; the POST is sent. *)
Lemma capture_outcome (w : World) (f : File) (reply : ProviderReply)
    (post : PostOutcome) :
  reply_embedded reply = true ->
  name_embedded reply = true ->
  exists w' outs,
    capture_flow f reply post w = Some (w', outs)
    /\ ((db w' = db w /\ tasks w' = tasks w /\ loading (app w') = loading (app w)
         /\ (alert analysis_failed ∉ outs)
         /\ (forall call, advisory call ∉ outs))
        \/ (db w' = db w /\ tasks w' = tasks w /\ loading (app w') = false
            /\ alert analysis_failed ∈ outs)
        \/ (exists req result body d',
              capture_proceeds w f req
              /\ parse_reply reply = Ok result
              /\ log_body (default "" (data_url f)) result = Ok body
              /\ post_served post body (db w) = Some d'
              /\ w' = {| app := setLoading false
                                  (setAnalysisResult result (capturing (app w)));
                         db := d'; tasks := tasks w ++ post_tasks post |}
              /\ outs = advisory (analyzeFoodImage_call req) :: post_outputs post)).
Proof.
  intros Hre Hne.
  destruct (handleImageUpload (Some f) (app w)) as [[[st' o] next]|e|] eqn:Hh.
  - pose proof Hh as Hh0. unfold handleImageUpload in Hh.
    destruct (get (profile (app w)) "age") as [a| |] eqn:Ha;
      cbn [mbind Res_bind] in Hh; try discriminate.
    assert (Hredirect :
      Ok (setActiveTab profile_tab (app w), [alert profile_first], None)
      = Ok (st', o, next) ->
      exists w' outs,
        capture_flow f reply post w = Some (w', outs)
        /\ db w' = db w /\ tasks w' = tasks w /\ loading (app w') = loading (app w)
        /\ (alert analysis_failed ∉ outs) /\ (forall call, advisory call ∉ outs)).
    { intros [= <- <- <-].
      rewrite (capture_not_started w f reply post _ _ Hh0).
      do 2 eexists. split; [ reflexivity | ]. cbn.
      repeat split; try reflexivity.
      + intros Hin. apply list_elem_of_singleton in Hin.
        symmetry in Hin. exact (profile_first_is_not_failure Hin).
      + intros call Hin. apply list_elem_of_singleton in Hin. discriminate Hin. }
    assert (Hleft :
      Ok (setActiveTab profile_tab (app w), [alert profile_first], None)
      = Ok (st', o, next) ->
      exists w' outs,
        capture_flow f reply post w = Some (w', outs)
        /\ ((db w' = db w /\ tasks w' = tasks w
             /\ loading (app w') = loading (app w)
             /\ (alert analysis_failed ∉ outs)
             /\ (forall call, advisory call ∉ outs))
            \/ (db w' = db w /\ tasks w' = tasks w /\ loading (app w') = false
                /\ alert analysis_failed ∈ outs)
            \/ (exists req result body d',
                  capture_proceeds w f req
                  /\ parse_reply reply = Ok result
                  /\ log_body (default "" (data_url f)) result = Ok body
                  /\ post_served post body (db w) = Some d'
                  /\ w' = {| app := setLoading false
                                      (setAnalysisResult result (capturing (app w)));
                             db := d'; tasks := tasks w ++ post_tasks post |}
                  /\ outs = advisory (analyzeFoodImage_call req)
                            :: post_outputs post))).
    { intros Heq. destruct (Hredirect Heq) as (w' & outs & Hflow & Hrest).
      exists w', outs. split; [ exact Hflow | left; exact Hrest ]. }
    destruct (truthy a) eqn:Hta; cbn [negb] in Hh; [ | auto ].
    destruct (get (profile (app w)) "condition") as [c| |] eqn:Hc;
      cbn [mbind Res_bind] in Hh; try discriminate.
    destruct (truthy c) eqn:Htc; cbn [negb] in Hh; [ | auto ].
    clear Hredirect Hleft Hh Hh0.
    destruct (truthy_property_of_object _ _ _ Ha Hta) as [props Hprops].
    assert (Hcaught : forall st e outs,
      outs = [advisory st; console_error e; alert analysis_failed]
      -> alert analysis_failed ∈ outs).
    { intros st e outs ->.
      apply list_elem_of_further, list_elem_of_further, list_elem_of_here. }
    destruct (analyzeFoodImage_request (data_url f) a c) as [req|e|] eqn:Hreq.
    + unfold reply_embedded in Hre. unfold name_embedded in Hne.
      destruct (parse_reply reply) as [result|e|] eqn:Hparse; [ | | discriminate ].
      * destruct (log_body_outcome (default "" (data_url f)) result)
          as [[e Hbody] | (fn & an & sf & Hfn & Hbody)].
        -- rewrite (capture_body_throws w f reply post a c Ha Hta Hc Htc req Hreq
                      result Hparse e Hbody).
           do 2 eexists. split; [ reflexivity | ]. right. left. cbn.
           repeat split; try reflexivity. by eapply Hcaught.
        -- rewrite Hfn in Hne.
           assert (Htyped : task_typed
                              (posting_log
                                 [("image_url", JStr (default "" (data_url f)));
                                  ("food_name", fn); ("analysis", JStr an);
                                  ("is_safe", sf)]))
             by (cbn [task_typed]; eauto 10).
           destruct (post_served_defined post _ (db w) Htyped) as [d' Hpost].
           rewrite (capture_posts w f reply post a c Ha Hta Hc Htc req Hreq
                      result Hparse _ d' Hbody Hpost).
           do 2 eexists. split; [ reflexivity | ]. right. right.
           exists req, result. do 2 eexists.
           split; [ | split; [ reflexivity | split; [ exact Hbody | ] ];
                      split; [ exact Hpost | split; reflexivity ] ].
           exists props. rewrite Hprops in Ha, Hc.
           rewrite get_object in Ha, Hc. injection Ha as <-. injection Hc as <-.
           repeat split; assumption.
      * rewrite (capture_parse_throws w f reply post a c Ha Hta Hc Htc req Hreq
                   e Hparse).
        do 2 eexists. split; [ reflexivity | ]. right. left. cbn.
        repeat split; try reflexivity. by eapply Hcaught.
    + rewrite (capture_request_throws w f reply post a c Ha Hta Hc Htc e Hreq).
      do 2 eexists. split; [ reflexivity | ]. right. left. cbn.
      repeat split; try reflexivity.
      apply list_elem_of_further, list_elem_of_here.
    + exfalso. exact (analyzeFoodImage_request_modelled _ _ _ Hreq).
  - rewrite (capture_handler_throws w f reply post e Hh).
    do 2 eexists. split; [ reflexivity | ]. left. repeat split; try reflexivity.
    + intros Hin. apply list_elem_of_singleton in Hin. discriminate Hin.
    + intros call Hin. apply list_elem_of_singleton in Hin. discriminate Hin.
  - exfalso. unfold handleImageUpload in Hh.
    pose proof (get_modelled (profile (app w)) "age") as Hga.
    destruct (get (profile (app w)) "age") as [a| |]; cbn [mbind Res_bind] in Hh;
      try congruence.
    destruct (negb (truthy a)); [ discriminate | ].
    pose proof (get_modelled (profile (app w)) "condition") as Hgc.
    destruct (get (profile (app w)) "condition") as [c| |];
      cbn [mbind Res_bind] in Hh; try congruence.
    destruct (negb (truthy c)); discriminate.
Qed.

(** *** What the flow does to the database *)

Lemma log_body_shape (b : string) (result : JValue) (body : list (string * JValue)) :
  log_body b result = Ok body ->
  exists fn an sf,
    body = [("image_url", JStr b); ("food_name", fn); ("analysis", JStr an);
            ("is_safe", sf)].
Proof.
  unfold log_body, concat.
  destruct (get result "foodName") as [fn| |]; cbn [mbind Res_bind]; try discriminate.
  destruct (get result "analysis") as [an| |]; cbn [mbind Res_bind]; try discriminate.
  destruct (to_string an) as [san| |]; cbn [mbind Res_bind to_string]; try discriminate.
  destruct (get result "tips") as [tp| |]; cbn [mbind Res_bind]; try discriminate.
  destruct (to_string tp) as [stp| |]; cbn [mbind Res_bind]; try discriminate.
  destruct (get result "isSafe") as [sf| |]; cbn [mbind Res_bind]; try discriminate.
  intros [= <-]. eauto.
Qed.

(** What the server does with the body of a capture: nothing, or one
    row with the photo, the analysis text and the coerced flag. *)
Lemma http_post_log_body (now b an : string) (fn sf : JValue) (d d' : Db) :
  http_post (post_logs now)
    [("image_url", JStr b); ("food_name", fn); ("analysis", JStr an);
     ("is_safe", sf)] d = Some d' ->
  d' = d
  \/ exists name,
       d' = {| user_profile := user_profile d;
               food_logs := food_logs d
                            ++ [ {| log_id := next_log_id d;
                                    image_url := SqlText b;
                                    food_name := name;
                                    analysis := SqlText an;
                                    is_safe := SqlInt (if truthy sf then 1 else 0);
                                    created_at := now |} ];
               food_logs_seq := next_log_id d |}.
Proof.
  unfold http_post.
  destruct (JSON_stringify _) as [t|]; [ | discriminate ].
  destruct (Z.of_nat (String.length t) <=? body_limit);
    [ | intros [= <-]; left; reflexivity ].
  destruct fn, sf; cbn; intros [= <-];
    solve [ left; reflexivity | right; eexists; reflexivity ].
Qed.

Lemma request_needs_photo (b : option string) (a c : JValue) (req : Request) :
  analyzeFoodImage_request b a c = Ok req -> exists photo, b = Some photo.
Proof.
  unfold analyzeFoodImage_request.
  destruct (to_string a); cbn [mbind Res_bind]; try discriminate.
  destruct (to_string c); cbn [mbind Res_bind]; try discriminate.
  destruct b; [ eauto | discriminate ].
Qed.

Lemma post_served_rows (post : PostOutcome) (b an : string) (fn sf : JValue)
    (d d' : Db) :
  post_served post
    [("image_url", JStr b); ("food_name", fn); ("analysis", JStr an);
     ("is_safe", sf)] d = Some d' ->
  d' = d
  \/ exists now name,
       served_at post = Some now
       /\ d' = {| user_profile := user_profile d;
                  food_logs := food_logs d
                               ++ [ {| log_id := next_log_id d;
                                       image_url := SqlText b;
                                       food_name := name;
                                       analysis := SqlText an;
                                       is_safe := SqlInt (if truthy sf then 1 else 0);
                                       created_at := now |} ];
                  food_logs_seq := next_log_id d |}.
Proof.
  unfold post_served. destruct (served_at post) as [now|];
    [ | intros [= <-]; by left ].
  intros Hpost. apply http_post_log_body in Hpost as [-> | [name ->]];
    [ by left | right; eauto ].
Qed.

Lemma appended_row_changes (d : Db) (r : FoodLogRow) (seq : Z) :
  {| user_profile := user_profile d; food_logs := food_logs d ++ [r];
     food_logs_seq := seq |} <> d.
Proof.
  intros Heq. apply (f_equal (fun x => length (food_logs x))) in Heq.
  cbn [food_logs] in Heq. rewrite length_app in Heq. cbn [length] in Heq. lia.
Qed.

(** Whatever the provider replies, within what the embedding follows (a
    rejected call, a text that is not JSON, or JSON without fractions,
    exponents, integers beyond 2^53, [\u] escapes and keys made of
    digits, whose [foodName] is not a number, an array or an object),
    whatever the file and however the POST ends, a capture runs to its
    end, and it ends with the loading flag down when it started with it
    down. *)
Theorem capture_ends_with_loading_down (w : World) (f : File)
    (reply : ProviderReply) (post : PostOutcome) :
  reply_embedded reply = true ->
  name_embedded reply = true ->
  loading (app w) = false ->
  exists w' outs,
    capture_flow f reply post w = Some (w', outs)
    /\ loading (app w') = false.
Proof.
  intros Hre Hne Hdown.
  destruct (capture_outcome w f reply post Hre Hne)
    as (w' & outs & Hflow & [(_ & _ & Hsame & _) | [(_ & _ & Hfalse & _) | Hposted]]);
    exists w', outs; (split; [ exact Hflow | ]).
  - congruence.
  - exact Hfalse.
  - destruct Hposted as (req & result & body & d' & _ & _ & _ & _ & -> & _).
    reflexivity.
Qed.

Lemma capture_ends_with_loading_down_witness :
  (reply_embedded (responds (Some "[")) = true
   /\ name_embedded (responds (Some "[")) = true
   /\ loading (app example_world) = false)
  /\ exists w' outs,
       capture_flow example_file (responds (Some "[")) (lost None) example_world
       = Some (w', outs)
       /\ loading (app w') = false.
Proof.
  split; [ repeat split | ].
  exact (capture_ends_with_loading_down example_world example_file
           (responds (Some "[")) (lost None) eq_refl eq_refl eq_refl).
Defined.

(** For the same replies: a capture that alerts the failure has left the
    database as it was, unless the server had served the POST and the
    response was lost; that is the one case in which a row is stored and
    the failure alerted.  When the database changed and the POST was
    answered, the flow's only output is the advisory call. *)
Theorem failure_alert_stored_only_when_response_lost (w : World) (f : File)
    (reply : ProviderReply) (post : PostOutcome) :
  reply_embedded reply = true ->
  name_embedded reply = true ->
  exists w' outs,
    capture_flow f reply post w = Some (w', outs)
    /\ (alert analysis_failed ∈ outs ->
        db w' = db w \/ exists now, post = lost (Some now))
    /\ (db w' <> db w ->
        exists req,
          (exists now, post = answered now
                       /\ outs = [advisory (analyzeFoodImage_call req)])
          \/ (exists now, post = lost (Some now)
                          /\ outs = [advisory (analyzeFoodImage_call req);
                                     console_error TypeError;
                                     alert analysis_failed])).
Proof.
  intros Hre Hne.
  destruct (capture_outcome w f reply post Hre Hne)
    as (w' & outs & Hflow & [(Hdb & _) | [(Hdb & _) | Hposted]]);
    exists w', outs; (split; [ exact Hflow | ]).
  - split; [ intros _; by left | intros Hch; contradiction ].
  - split; [ intros _; by left | intros Hch; contradiction ].
  - destruct Hposted as (req & result & body & d' & _ & _ & _ & Hpost & -> & ->).
    cbn [db]. destruct post as [now|[now|]]; cbn [post_outputs].
    + split; [ | intros _; exists req; left; eauto ].
      intros Hin. apply list_elem_of_singleton in Hin. discriminate Hin.
    + split; [ intros _; right; eauto | intros _; exists req; right; eauto ].
    + injection Hpost as <-.
      split; [ intros _; by left | intros Hch; contradiction ].
Qed.

Lemma failure_alert_stored_only_when_response_lost_witness :
  (reply_embedded canned_reply = true /\ name_embedded canned_reply = true)
  /\ exists w' outs,
       capture_flow example_file canned_reply (lost (Some example_now))
         example_world = Some (w', outs)
       /\ (alert analysis_failed ∈ outs ->
           db w' = db example_world
           \/ exists now, lost (Some example_now) = lost (Some now))
       /\ (db w' <> db example_world ->
           exists req,
             (exists now, lost (Some example_now) = answered now
                          /\ outs = [advisory (analyzeFoodImage_call req)])
             \/ (exists now, lost (Some example_now) = lost (Some now)
                             /\ outs = [advisory (analyzeFoodImage_call req);
                                        console_error TypeError;
                                        alert analysis_failed])).
Proof.
  split; [ split; reflexivity | ].
  exact (failure_alert_stored_only_when_response_lost example_world example_file
           canned_reply (lost (Some example_now)) eq_refl eq_refl).
Defined.

(** The lost response at work: the canned reply, the row written, the
    failure alerted. *)
Example lost_response_stores_and_alerts :
  exists w' row,
    capture_flow example_file canned_reply (lost (Some example_now)) example_world
    = Some (w', [advisory (analyzeFoodImage_call example_request);
                 console_error TypeError; alert analysis_failed])
    /\ food_logs (db w') = food_logs (db example_world) ++ [row]
    /\ food_name row = SqlText "백미밥".
Proof. do 2 eexists. split; [ vm_compute; reflexivity | split; reflexivity ]. Qed.

(** For the same replies: a capture runs to its end, never touches the
    profile table, and leaves the log table as it was or with one row
    appended; the row is there only if the server served the POST, and
    it holds the photo's data URL, the time the server served it at, a
    flag that is 0 or 1 and an id above every earlier id. *)
Theorem capture_appends_at_most_one_row (w : World) (f : File)
    (reply : ProviderReply) (post : PostOutcome) :
  reply_embedded reply = true ->
  name_embedded reply = true ->
  exists w' outs,
    capture_flow f reply post w = Some (w', outs)
    /\ user_profile (db w') = user_profile (db w)
    /\ (food_logs (db w') = food_logs (db w)
        \/ exists photo now row,
             data_url f = Some photo
             /\ served_at post = Some now
             /\ food_logs (db w') = food_logs (db w) ++ [row]
             /\ image_url row = SqlText photo
             /\ created_at row = now
             /\ flag_ok row
             /\ Forall (fun r => log_id r < log_id row) (food_logs (db w))).
Proof.
  intros Hre Hne.
  destruct (capture_outcome w f reply post Hre Hne)
    as (w' & outs & Hflow & [(Hdb & _) | [(Hdb & _) | Hposted]]);
    exists w', outs; (split; [ exact Hflow | ]).
  - rewrite Hdb. auto.
  - rewrite Hdb. auto.
  - destruct Hposted as (req & result & body & d' & Hgo & _ & Hbody & Hpost & -> & _).
    cbn [db].
    destruct Hgo as (props & _ & _ & _ & Hreq).
    destruct (request_needs_photo _ _ _ _ Hreq) as [photo Hphoto].
    rewrite Hphoto in Hbody. cbn [default from_option] in Hbody.
    destruct (log_body_shape _ _ _ Hbody) as (fn & an & sf & ->).
    apply post_served_rows in Hpost as [-> | (now & name & Hnow & ->)]; [ auto | ].
    cbn [user_profile food_logs]. split; [ reflexivity | ]. right.
    exists photo, now. eexists. split; [ exact Hphoto | ].
    split; [ exact Hnow | ].
    split; [ reflexivity | ]. cbn.
    split; [ reflexivity | ]. split; [ reflexivity | ].
    split; [ unfold flag_ok; cbn; destruct (truthy sf); auto | ].
    apply next_log_id_above_rows.
Qed.

Lemma capture_appends_at_most_one_row_witness :
  (reply_embedded canned_reply = true /\ name_embedded canned_reply = true)
  /\ exists w' outs,
       capture_flow example_file canned_reply (answered example_now) example_world
       = Some (w', outs)
       /\ user_profile (db w') = user_profile (db example_world)
       /\ (food_logs (db w') = food_logs (db example_world)
           \/ exists photo now row,
                data_url example_file = Some photo
                /\ served_at (answered example_now) = Some now
                /\ food_logs (db w') = food_logs (db example_world) ++ [row]
                /\ image_url row = SqlText photo
                /\ created_at row = now
                /\ flag_ok row
                /\ Forall (fun r => log_id r < log_id row)
                          (food_logs (db example_world))).
Proof.
  split; [ split; reflexivity | ].
  exact (capture_appends_at_most_one_row example_world example_file canned_reply
           (answered example_now) eq_refl eq_refl).
Defined.

(** *** A photo beyond the body limit *)

Lemma string_length_app (s1 s2 : string) :
  String.length (s1 ++ s2)%string = (String.length s1 + String.length s2)%nat.
Proof. induction s1 as [|c s1 IH]; simpl; [ reflexivity | f_equal; exact IH ]. Qed.

Lemma repeat_char_length (n : nat) (c : ascii) :
  String.length (repeat_char n c) = n.
Proof. induction n as [|n IH]; simpl; [ reflexivity | f_equal; exact IH ]. Qed.

Lemma quote_char_length (c : ascii) : (1 <= String.length (quote_char c))%nat.
Proof.
  unfold quote_char.
  repeat match goal with
         | |- context [if ?b then _ else _] => destruct b
         end; cbn; lia.
Qed.

Lemma quote_chars_length (s : string) :
  (String.length s <= String.length (quote_chars s))%nat.
Proof.
  induction s as [|c s IH]; [ reflexivity | ].
  cbn [quote_chars]. rewrite string_length_app. cbn [String.length].
  pose proof (quote_char_length c). lia.
Qed.

Lemma comma_fold_length (ps : list string) (acc : string) :
  (String.length acc
   <= String.length (fold_left (fun acc q => (acc ++ "," ++ q)%string) ps acc))%nat.
Proof.
  revert acc. induction ps as [|p ps IH]; intros acc; cbn [fold_left]; [ lia | ].
  etransitivity; [ | apply IH ]. rewrite string_length_app. lia.
Qed.

Lemma body_text_length (b : string) (rest : list (string * JValue)) (t : string) :
  JSON_stringify (JObj (("image_url", JStr b) :: rest)) = Some t ->
  (String.length b <= String.length t)%nat.
Proof.
  cbn [JSON_stringify]. intros [= <-].
  cbn [comma_join].
  rewrite !string_length_app.
  match goal with
  | |- context [fold_left ?f ?ps ?acc] =>
      pose proof (comma_fold_length ps acc) as Hfold
  end.
  rewrite !string_length_app in Hfold. unfold quote at 2 in Hfold.
  cbn [String.length] in Hfold. rewrite string_length_app in Hfold.
  pose proof (quote_chars_length b). lia.
Qed.

Lemma oversized_body_is_refused (route : JValue -> Db -> Res Db) (b : string)
    (rest : list (string * JValue)) (d : Db) :
  body_limit < Z.of_nat (String.length b) ->
  http_post route (("image_url", JStr b) :: rest) d = Some d.
Proof.
  intros Hlong. unfold http_post.
  destruct (JSON_stringify_object (("image_url", JStr b) :: rest)) as [t Ht].
  rewrite Ht. pose proof (body_text_length b rest t Ht) as Hlen.
  destruct (Z.leb_spec (Z.of_nat (String.length t)) body_limit); [ lia | reflexivity ].
Qed.

(** When the photo's data URL alone is longer than the server's body
    limit, the flow still shows the verdict and starts [fetchLogs()], but
    the database is left as it was and nothing is alerted. *)
Theorem oversized_photo_is_dropped_silently (w : World) (f : File)
    (photo : string) (req : Request) (reply : ProviderReply) (result : JValue)
    (body : list (string * JValue)) (now : string) :
  capture_proceeds w f req ->
  data_url f = Some photo ->
  body_limit < Z.of_nat (String.length photo) ->
  parse_reply reply = Ok result ->
  log_body photo result = Ok body ->
  analysis_flow f reply now w
  = Some ({| app := setLoading false
                      (setAnalysisResult result (capturing (app w)));
             db := db w; tasks := tasks w ++ [fetching_logs] |},
          [advisory (analyzeFoodImage_call req)]).
Proof.
  intros Hgo Hphoto Hlong Hparse Hbody.
  destruct (capture_proceeds_flow w f req reply now Hgo)
    as (a & c & Ha & Hta & Hc & Htc & Hreq).
  apply (flow_posts w f reply now a c Ha Hta Hc Htc req Hreq result Hparse body).
  - rewrite Hphoto. exact Hbody.
  - destruct (log_body_shape _ _ _ Hbody) as (fn & an & sf & ->).
    apply oversized_body_is_refused. exact Hlong.
Qed.

Lemma long_photo_is_long : body_limit < Z.of_nat (String.length long_photo).
Proof.
  unfold long_photo. rewrite string_length_app, repeat_char_length.
  rewrite Nat2Z.inj_add, Z2Nat.id by (unfold body_limit; lia).
  cbn [String.length]. lia.
Qed.

Lemma long_capture_proceeds : capture_proceeds example_world long_file long_request.
Proof.
  exists [("id", JNum 1); ("age", JNum 70); ("condition", JStr "당뇨")].
  split; [ reflexivity | ]. split; [ reflexivity | ]. split; reflexivity.
Qed.

Lemma oversized_photo_is_dropped_silently_witness :
  (capture_proceeds example_world long_file long_request
   /\ body_limit < Z.of_nat (String.length long_photo))
  /\ exists w',
       analysis_flow long_file canned_reply example_now example_world
       = Some (w', [advisory (analyzeFoodImage_call long_request)])
       /\ db w' = db example_world.
Proof.
  split; [ split; [ exact long_capture_proceeds | exact long_photo_is_long ] | ].
  eexists. split.
  - apply (oversized_photo_is_dropped_silently example_world long_file long_photo
             long_request canned_reply
             (JObj [("foodName", JStr "백미밥"); ("isSafe", JBool true);
                    ("analysis", JStr "..."); ("tips", JStr "...")])
             (text_body long_photo "백미밥" "..." "..." (JBool true))
             example_now long_capture_proceeds eq_refl long_photo_is_long eq_refl).
    apply log_body_texts; reflexivity.
  - reflexivity.
Defined.

(** *** What a capture with a well-formed reply persists *)

Lemma http_post_refuses (route : JValue -> Db -> Res Db)
    (body : list (string * JValue)) (d : Db) :
  ~ body_fits body -> http_post route body d = Some d.
Proof.
  unfold body_fits, http_post. intros Hlong.
  destruct (JSON_stringify_object body) as [t Ht].
  rewrite Ht in *. cbv [default from_option id] in Hlong.
  destruct (Z.leb_spec (Z.of_nat (String.length t)) body_limit);
    [ contradiction | reflexivity ].
Qed.

(** A reply that parses to an object with string [foodName], [analysis]
    and [tips], whatever its [isSafe] is: the POST is sent, and the
    server adds one row when the request reaches it and its body passes
    the size limit, and nothing otherwise. *)
Lemma capture_text_reply (w : World) (f : File) (req : Request)
    (reply : ProviderReply) (post : PostOutcome)
    (rprops : list (string * JValue)) (n an tp : string) :
  capture_proceeds w f req ->
  parse_reply reply = Ok (JObj rprops) ->
  field rprops "foodName" = JStr n ->
  field rprops "analysis" = JStr an ->
  field rprops "tips" = JStr tp ->
  let body := text_body (default "" (data_url f)) n an tp (field rprops "isSafe") in
  exists d',
    capture_flow f reply post w
    = Some ({| app := setLoading false
                        (setAnalysisResult (JObj rprops) (capturing (app w)));
               db := d'; tasks := tasks w ++ post_tasks post |},
            advisory (analyzeFoodImage_call req) :: post_outputs post)
    /\ (forall now,
          served_at post = Some now ->
          body_fits body ->
          d' = {| user_profile := user_profile (db w);
                  food_logs :=
                    food_logs (db w)
                    ++ [ {| log_id := next_log_id (db w);
                            image_url := SqlText (default "" (data_url f));
                            food_name := SqlText n;
                            analysis := SqlText ((an ++ tip_separator) ++ tp)%string;
                            is_safe := SqlInt (if truthy (field rprops "isSafe")
                                               then 1 else 0);
                            created_at := now |} ];
                  food_logs_seq := next_log_id (db w) |})
    /\ (served_at post = None \/ ~ body_fits body -> d' = db w).
Proof.
  intros Hgo Hparse Hn Han Htp body.
  destruct (capture_proceeds_flow w f req reply "" Hgo)
    as (a & c & Ha & Hta & Hc & Htc & Hreq).
  pose proof (log_body_texts (default "" (data_url f)) n an tp rprops Hn Han Htp)
    as Hbody.
  assert (Hpost : exists d',
    post_served post body (db w) = Some d'
    /\ (forall now,
          served_at post = Some now ->
          body_fits body ->
          d' = {| user_profile := user_profile (db w);
                  food_logs :=
                    food_logs (db w)
                    ++ [ {| log_id := next_log_id (db w);
                            image_url := SqlText (default "" (data_url f));
                            food_name := SqlText n;
                            analysis := SqlText ((an ++ tip_separator) ++ tp)%string;
                            is_safe := SqlInt (if truthy (field rprops "isSafe")
                                               then 1 else 0);
                            created_at := now |} ];
                  food_logs_seq := next_log_id (db w) |})
    /\ (served_at post = None \/ ~ body_fits body -> d' = db w)).
  { unfold post_served. destruct (served_at post) as [now|].
    - destruct (Z.le_gt_cases
                  (Z.of_nat (String.length (default "" (JSON_stringify (JObj body)))))
                  body_limit) as [Hfits | Hlong].
      + eexists. split; [ exact (http_post_text_body now _ n _ _ (db w) Hfits) | ].
        split; [ by intros ? [= <-] _ | ].
        intros [Hnone | Hnot]; [ discriminate Hnone | contradiction ].
      + assert (Hnot : ~ body_fits body) by (apply Z.lt_nge; exact Hlong).
        exists (db w). split; [ exact (http_post_refuses _ body (db w) Hnot) | ].
        split; [ intros ? _ Hfits; contradiction | reflexivity ].
    - exists (db w). split; [ reflexivity | ].
      split; [ intros ? [=] | reflexivity ]. }
  destruct Hpost as (d' & Hpost & Hin & Hout).
  exists d'. split; [ | split; assumption ].
  exact (capture_posts w f reply post a c Ha Hta Hc Htc req Hreq _ Hparse
           body d' Hbody Hpost).
Qed.

Lemma one_more_row (rows : list FoodLogRow) (row : FoodLogRow) :
  rows <> rows ++ [row].
Proof.
  intros Heq. apply (f_equal length) in Heq. rewrite length_app in Heq.
  cbn [length] in Heq. lia.
Qed.

(** *** C2: the canned reply *)

(** The specification's statement fails on a photo whose data URL is
    longer than the server's body limit: the capture proceeds, the
    provider returns the canned reply, the POST is answered and the
    flow's only output is the advisory call, yet the database is as it
    was. *)
Lemma canned_reply_oversized_photo_not_persisted :
  capture_proceeds example_world long_file long_request
  /\ (exists w',
        analysis_flow long_file canned_reply example_now example_world
        = Some (w', [advisory (analyzeFoodImage_call long_request)])
        /\ db w' = db example_world)
  /\ ~ canned_reply_always_persisted.
Proof.
  destruct (capture_proceeds_flow example_world long_file long_request
              canned_reply example_now long_capture_proceeds)
    as (a & c & Ha & Hta & Hc & Htc & Hreq).
  assert (Hflow :
    analysis_flow long_file canned_reply example_now example_world
    = Some ({| app := setLoading false
                        (setAnalysisResult
                           (JObj [("foodName", JStr "백미밥"); ("isSafe", JBool true);
                                  ("analysis", JStr "..."); ("tips", JStr "...")])
                           (capturing (app example_world)));
               db := db example_world;
               tasks := tasks example_world ++ [fetching_logs] |},
            [advisory (analyzeFoodImage_call long_request)])).
  { apply (flow_posts example_world long_file canned_reply example_now a c
             Ha Hta Hc Htc long_request Hreq _ eq_refl
             (text_body long_photo "백미밥" "..." "..." (JBool true))).
    - apply log_body_texts; reflexivity.
    - apply oversized_body_is_refused. exact long_photo_is_long. }
  split; [ exact long_capture_proceeds | ]. split.
  - eexists. split; [ exact Hflow | reflexivity ].
  - intros Hclaim.
    destruct (Hclaim example_world long_file long_request example_now
                long_capture_proceeds) as (w' & outs & row & Hflow' & Hrows & _).
    rewrite Hflow in Hflow'. injection Hflow' as <- _.
    exact (one_more_row _ _ Hrows).
Qed.

(** C2, as the code has it.  When the capture proceeds and the
    provider's reply parses to [{foodName: "백미밥", isSafe: v, analysis:
    an, tips: tp}], the flow runs to its end and never touches the
    profile table.  When the POST is answered no alert is raised.  When
    the server served the POST and the request body passes the 10mb
    limit, exactly one row is appended to [food_logs], whose [food_name]
    is "백미밥" and whose [is_safe] is the integer 1 when [v] is truthy
    and 0 otherwise, so 1 for [isSafe: true].  When the request never
    reached the server, or its body is over the limit, the database is
    as it was. *)
Theorem canned_reply_persisted_when_body_fits (w : World) (f : File)
    (req : Request) (reply : ProviderReply) (post : PostOutcome) (v : JValue)
    (an tp : string) :
  capture_proceeds w f req ->
  parse_reply reply
  = Ok (JObj [("foodName", JStr "백미밥"); ("isSafe", v);
              ("analysis", JStr an); ("tips", JStr tp)]) ->
  let body := text_body (default "" (data_url f)) "백미밥" an tp v in
  exists w' outs,
    capture_flow f reply post w = Some (w', outs)
    /\ user_profile (db w') = user_profile (db w)
    /\ (forall now,
          post = answered now -> outs = [advisory (analyzeFoodImage_call req)])
    /\ (forall now,
          served_at post = Some now ->
          body_fits body ->
          exists row,
            food_logs (db w') = food_logs (db w) ++ [row]
            /\ food_name row = SqlText "백미밥"
            /\ is_safe row = SqlInt (if truthy v then 1 else 0)
            /\ (v = JBool true -> is_safe row = SqlInt 1)
            /\ created_at row = now)
    /\ (served_at post = None \/ ~ body_fits body -> db w' = db w).
Proof.
  intros Hgo Hparse body.
  destruct (capture_text_reply w f req reply post _ "백미밥" an tp Hgo Hparse
              eq_refl eq_refl eq_refl) as (d' & Hflow & Hin & Hout).
  do 2 eexists. split; [ exact Hflow | ]. cbn [db].
  assert (Hcases : d' = db w \/ exists now, served_at post = Some now /\ body_fits body).
  { destruct (served_at post) as [now|] eqn:Hs; [ | left; apply Hout; by left ].
    destruct (Z.le_gt_cases
                (Z.of_nat (String.length (default "" (JSON_stringify (JObj body)))))
                body_limit) as [Hfits | Hlong]; [ right; eauto | ].
    left. apply Hout. right. apply Z.lt_nge. exact Hlong. }
  split; [ | split; [ | split ] ].
  - destruct Hcases as [-> | (now & Hs & Hfits)]; [ reflexivity | ].
    by rewrite (Hin now Hs Hfits).
  - by intros now ->.
  - intros now Hs Hfits. rewrite (Hin now Hs Hfits). cbn [food_logs].
    eexists. split; [ reflexivity | ]. cbn [food_name is_safe created_at].
    repeat split; try reflexivity. by intros ->.
  - exact Hout.
Qed.

Lemma canned_reply_persisted_when_body_fits_witness :
  let body := text_body (default "" (data_url example_file)) "백미밥" "..." "..."
                (JBool true) in
  (capture_proceeds example_world example_file example_request
   /\ parse_reply canned_reply
      = Ok (JObj [("foodName", JStr "백미밥"); ("isSafe", JBool true);
                  ("analysis", JStr "..."); ("tips", JStr "...")]))
  /\ exists w' outs,
       capture_flow example_file canned_reply (answered example_now) example_world
       = Some (w', outs)
       /\ user_profile (db w') = user_profile (db example_world)
       /\ (forall now,
             answered example_now = answered now ->
             outs = [advisory (analyzeFoodImage_call example_request)])
       /\ (forall now,
             served_at (answered example_now) = Some now ->
             body_fits body ->
             exists row,
               food_logs (db w') = food_logs (db example_world) ++ [row]
               /\ food_name row = SqlText "백미밥"
               /\ is_safe row = SqlInt (if truthy (JBool true) then 1 else 0)
               /\ (JBool true = JBool true -> is_safe row = SqlInt 1)
               /\ created_at row = now)
       /\ (served_at (answered example_now) = None \/ ~ body_fits body ->
           db w' = db example_world).
Proof.
  intros body.
  assert (Hparse : parse_reply canned_reply
                   = Ok (JObj [("foodName", JStr "백미밥"); ("isSafe", JBool true);
                               ("analysis", JStr "..."); ("tips", JStr "...")]))
    by reflexivity.
  split; [ split; [ exact example_capture_proceeds | exact Hparse ] | ].
  exact (canned_reply_persisted_when_body_fits example_world example_file
           example_request canned_reply (answered example_now) (JBool true)
           "..." "..." example_capture_proceeds Hparse).
Defined.

(** The canned reply on the example photo: the row is there. *)
Example canned_reply_example_row :
  exists w' row,
    analysis_flow example_file canned_reply example_now example_world
    = Some (w', [advisory (analyzeFoodImage_call example_request)])
    /\ food_logs (db w') = food_logs (db example_world) ++ [row]
    /\ food_name row = SqlText "백미밥"
    /\ is_safe row = SqlInt 1.
Proof. do 2 eexists. split; [ vm_compute; reflexivity | repeat split ]. Qed.

(** *** C1: malformed replies *)




(** *** A photo that cannot be read *)

Lemma request_without_photo (a c : JValue) :
  exists e, analyzeFoodImage_request None a c = Throw e.
Proof.
  unfold analyzeFoodImage_request.
  pose proof (to_string_modelled a) as Ha. pose proof (to_string_modelled c) as Hc.
  destruct (to_string a); cbn [mbind Res_bind]; [ | eauto | congruence ].
  destruct (to_string c); cbn [mbind Res_bind]; [ | eauto | congruence ].
  eauto.
Qed.

(** When the read ends without a result, the flow alerts the failure and
    clears the loading flag without ever calling the provider: its
    outcome is the same whatever the provider would reply, and the
    database is untouched. *)
Theorem failed_read_alerts_without_provider (w : World) (f : File)
    (props : list (string * JValue)) :
  profile (app w) = JObj props ->
  truthy (field props "age") = true ->
  truthy (field props "condition") = true ->
  data_url f = None ->
  exists e,
    forall reply now,
      analysis_flow f reply now w
      = Some ({| app := setLoading false (capturing (app w)); db := db w;
                 tasks := tasks w |},
              [console_error e; alert analysis_failed]).
Proof.
  intros Hp Ha Hc Hnone.
  destruct (request_without_photo (field props "age") (field props "condition"))
    as [e He].
  exists e. intros reply now.
  apply (flow_request_throws w f reply now (field props "age")
           (field props "condition")).
  - rewrite Hp. apply get_object.
  - exact Ha.
  - rewrite Hp. apply get_object.
  - exact Hc.
  - rewrite Hnone. exact He.
Qed.

Lemma failed_read_alerts_without_provider_witness :
  let f := {| data_url := None |} in
  (profile (app example_world)
   = JObj [("id", JNum 1); ("age", JNum 70); ("condition", JStr "당뇨")]
   /\ data_url f = None)
  /\ exists e,
       forall reply now,
         analysis_flow f reply now example_world
         = Some ({| app := setLoading false (capturing (app example_world));
                    db := db example_world; tasks := tasks example_world |},
                 [console_error e; alert analysis_failed]).
Proof.
  intros f. split; [ split; reflexivity | ].
  exact (failed_read_alerts_without_provider example_world f
           [("id", JNum 1); ("age", JNum 70); ("condition", JStr "당뇨")]
           eq_refl eq_refl eq_refl eq_refl).
Defined.

(** *** The verdict on the screen and the verdict in the table *)

Lemma render_card_of_texts (st : AppState) (rprops : list (string * JValue))
    (n an tp : string) :
  loading st = false ->
  analysisResult st = JObj rprops ->
  field rprops "foodName" = JStr n ->
  field rprops "analysis" = JStr an ->
  field rprops "tips" = JStr tp ->
  render st = result_card (JObj rprops).
Proof.
  intros Hload Hres Hn Han Htp. unfold render, renderAnalysis, child.
  rewrite Hload, Hres, !get_object, Hn, Han, Htp. reflexivity.
Qed.

(** For a reply whose three texts are strings, the verdict card is what
    the flow leaves on the screen, and its colour, the stored flag and
    the badge of the stored row in the lists all follow the truthiness of
    [isSafe]: green, 1 and safe together, or red, 0 and unsafe
    together. *)
Theorem verdict_shown_is_verdict_stored (w : World) (f : File) (req : Request)
    (reply : ProviderReply) (now : string)
    (rprops : list (string * JValue)) (n an tp : string) :
  capture_proceeds w f req ->
  parse_reply reply = Ok (JObj rprops) ->
  field rprops "foodName" = JStr n ->
  field rprops "analysis" = JStr an ->
  field rprops "tips" = JStr tp ->
  body_fits (text_body (default "" (data_url f)) n an tp (field rprops "isSafe")) ->
  exists w' outs row,
    analysis_flow f reply now w = Some (w', outs)
    /\ render (app w') = result_card (JObj rprops)
    /\ food_logs (db w') = food_logs (db w) ++ [row]
    /\ card_is_safe (JObj rprops) = Ok (truthy (field rprops "isSafe"))
    /\ is_safe row = SqlInt (if truthy (field rprops "isSafe") then 1 else 0)
    /\ log_is_safe (log_to_js row) = Ok (truthy (field rprops "isSafe")).
Proof.
  intros Hgo Hparse Hn Han Htp Hfits.
  eexists. eexists. eexists. split.
  - exact (flow_persists_entry w f req reply now rprops n an tp Hgo Hparse
             Hn Han Htp Hfits).
  - cbn [db food_logs app].
    split; [ by apply (render_card_of_texts _ rprops n an tp) | ].
    split; [ reflexivity | ].
    split; [ reflexivity | ]. split; [ reflexivity | ].
    unfold log_is_safe, log_to_js. cbn.
    destruct (truthy (field rprops "isSafe")); reflexivity.
Qed.

Lemma verdict_shown_is_verdict_stored_witness :
  let rprops := [("foodName", JStr "백미밥"); ("analysis", JStr "...");
                 ("tips", JStr "...")] in
  (capture_proceeds example_world example_file example_request
   /\ parse_reply reply_without_isSafe = Ok (JObj rprops)
   /\ body_fits (text_body (default "" (data_url example_file))
                   "백미밥" "..." "..." JUndefined))
  /\ exists w' outs row,
       analysis_flow example_file reply_without_isSafe example_now example_world
       = Some (w', outs)
       /\ render (app w') = result_card (JObj rprops)
       /\ food_logs (db w') = food_logs (db example_world) ++ [row]
       /\ card_is_safe (JObj rprops) = Ok false
       /\ is_safe row = SqlInt 0
       /\ log_is_safe (log_to_js row) = Ok false.
Proof.
  intros rprops.
  assert (Hparse : parse_reply reply_without_isSafe = Ok (JObj rprops))
    by reflexivity.
  assert (Hfits : body_fits (text_body (default "" (data_url example_file))
                               "백미밥" "..." "..." JUndefined))
    by (unfold body_fits; vm_compute; discriminate).
  split; [ split; [ exact example_capture_proceeds
                  | split; [ exact Hparse | exact Hfits ] ] | ].
  exact (verdict_shown_is_verdict_stored example_world example_file
           example_request reply_without_isSafe example_now rprops
           "백미밥" "..." "..." example_capture_proceeds Hparse
           eq_refl eq_refl eq_refl Hfits).
Defined.

End FlowProps.

(** ** Runs of the component *)

Module RunProps.
Import JS JSON Stringify Server Advisory App Views Invariants.
Import ServerProps AppProps StoreProps ClientProps DomainProps FlowProps.
Local Open Scope list_scope.

(** *** The store along a run *)

Lemma grows_from_refl (d : Db) : grows_from d d.
Proof. split; [ reflexivity | auto ]. Qed.

Lemma grows_from_trans (d1 d2 d3 : Db) :
  grows_from d1 d2 -> grows_from d2 d3 -> grows_from d1 d3.
Proof.
  intros (Hp1 & Hs1 & Hf1) (Hp2 & Hs2 & Hf2).
  split; [ etransitivity; eassumption | auto ].
Qed.

Lemma post_logs_grows (now : string) (body : JValue) (d d' : Db) :
  post_logs now body d = Ok d' -> grows_from d d'.
Proof.
  intros Hpost.
  destruct (post_logs_step now body d d' Hpost) as (row & -> & Hid & _ & Hflag).
  split; [ | split ].
  - cbn [food_logs]. by apply prefix_app_r.
  - intros [Hprof Hids]. split; [ exact Hprof | ].
    unfold log_ids in *. cbn [food_logs]. rewrite map_app. cbn [map].
    apply NoDup_app. split; [ exact Hids | ]. split; [ | apply NoDup_singleton ].
    intros x Hx Hx'. apply list_elem_of_singleton in Hx'. subst x.
    apply list_elem_of_fmap in Hx as (r & Hr & Hin).
    pose proof (next_log_id_above_rows d) as Habove.
    rewrite Forall_forall in Habove. specialize (Habove r Hin). lia.
  - intros Hflags. cbn [food_logs]. apply Forall_app. split; [ exact Hflags | ].
    by constructor.
Qed.

Lemma post_profile_grows (body : JValue) (d d' : Db) :
  post_profile body d = Ok d' -> grows_from d d'.
Proof.
  intros Hpost.
  destruct (post_profile_shape body d d' Hpost) as (a & c & Hshape).
  rewrite (Hshape d) in Hpost. injection Hpost as <-.
  split; [ reflexivity | split; [ | auto ] ].
  intros [Hprof Hids]. split; [ | exact Hids ]. cbn [user_profile].
  rewrite (upsert_profile_singleton _ _ _ Hprof).
  apply singleton_profile_table_ok.
Qed.

Lemma http_post_outcome (route : JValue -> Db -> Res Db)
    (body : list (string * JValue)) (d d' : Db) :
  http_post route body d = Some d' ->
  d' = d \/ route (JObj (sent_props body)) d = Ok d'.
Proof.
  unfold http_post.
  destruct (JSON_stringify (JObj body)) as [t|]; [ | discriminate ].
  destruct (Z.of_nat (String.length t) <=? body_limit);
    [ | intros [= <-]; by left ].
  destruct (route (JObj (sent_props body)) d) as [d1|e|]; [ | | discriminate ].
  - intros [= <-]. by right.
  - intros [= <-]. by left.
Qed.

Lemma step_grows (e : Event) (w w' : World) (outs : list Output) :
  step e w = Some (w', outs) -> grows_from (db w) (db w').
Proof.
  unfold step.
  destruct e as [file|t|a|c| | | |i|i reply|i now|i served].
  - destruct (handleImageUpload file (app w)) as [[[st' o] next]|err|];
      [ | | discriminate ]; intros [= <- <-]; apply grows_from_refl.
  - intros [= <- <-]. apply grows_from_refl.
  - destruct (spread_with _ _ _) as [p|]; [ | discriminate ].
    intros Heff. apply with_effect_world in Heff as (_ & -> & _).
    apply grows_from_refl.
  - destruct (spread_with _ _ _) as [p|]; [ | discriminate ].
    intros Heff. apply with_effect_world in Heff as (_ & -> & _).
    apply grows_from_refl.
  - intros [= <- <-]. apply grows_from_refl.
  - intros [= <- <-]. apply grows_from_refl.
  - intros [= <- <-]. apply grows_from_refl.
  - destruct (tasks w !! i) as [[f p| | | | | | ]|]; try discriminate.
    destruct (onloadend f p (app w)) as [[[st' o] next]|]; [ | discriminate ].
    intros [= <- <-]. apply grows_from_refl.
  - destruct (tasks w !! i) as [[ |b req| | | |req| ]|]; try discriminate.
    + destruct (analysed b reply (app w)) as [[[st' o] next]|]; [ | discriminate ].
      intros [= <- <-]. apply grows_from_refl.
    + destruct (recommended reply (app w)) as [[st' o]|]; [ | discriminate ].
      intros [= <- <-]. apply grows_from_refl.
  - destruct (tasks w !! i) as [[ | |body| | | |body]|]; try discriminate.
    + destruct (http_post _ body (db w)) as [d'|] eqn:Hpost; [ | discriminate ].
      cbn [posted]. intros [= <- <-]. cbn [db].
      apply http_post_outcome in Hpost as [-> | Hpost];
        [ apply grows_from_refl | exact (post_logs_grows _ _ _ _ Hpost) ].
    + cbn [get_logs]. intros Heff.
      apply with_effect_world in Heff as (_ & -> & _). apply grows_from_refl.
    + intros Heff. apply with_effect_world in Heff as (_ & -> & _).
      apply grows_from_refl.
    + destruct body; try discriminate.
      destruct (http_post _ _ (db w)) as [d'|] eqn:Hpost; [ | discriminate ].
      intros [= <- <-]. cbn [db].
      apply http_post_outcome in Hpost as [-> | Hpost];
        [ apply grows_from_refl | exact (post_profile_grows _ _ _ Hpost) ].
  - destruct (tasks w !! i) as [[ | |body| | | |body]|]; try discriminate.
    + destruct (lost_response _ served (db w)) as [d'|] eqn:Hpost; [ | discriminate ].
      cbn [caught]. intros [= <- <-]. cbn [db].
      destruct served as [now|]; cbn [lost_response] in Hpost;
        [ | injection Hpost as <-; apply grows_from_refl ].
      apply http_post_outcome in Hpost as [-> | Hpost];
        [ apply grows_from_refl | exact (post_logs_grows _ _ _ _ Hpost) ].
    + intros [= <- <-]. apply grows_from_refl.
    + intros [= <- <-]. apply grows_from_refl.
    + destruct body; try discriminate.
      destruct (lost_response _ served (db w)) as [d'|] eqn:Hpost; [ | discriminate ].
      intros [= <- <-]. cbn [db].
      destruct served as [now|]; cbn [lost_response] in Hpost;
        [ | injection Hpost as <-; apply grows_from_refl ].
      apply http_post_outcome in Hpost as [-> | Hpost];
        [ apply grows_from_refl | exact (post_profile_grows _ _ _ Hpost) ].
Qed.

Lemma run_grows (es : list Event) (w w' : World) (outs : list Output) :
  run es w = Some (w', outs) -> grows_from (db w) (db w').
Proof.
  revert w outs. induction es as [|e es IH]; intros w outs.
  - intros [= <- <-]. apply grows_from_refl.
  - cbn [run]. destruct (step e w) as [[w1 o1]|] eqn:Hstep; [ | discriminate ].
    destruct (run es w1) as [[w2 o2]|] eqn:Hrun; [ | discriminate ].
    intros [= <- <-].
    exact (grows_from_trans _ _ _ (step_grows _ _ _ _ Hstep) (IH _ _ Hrun)).
Qed.

Lemma example_db_typed : typed example_db.
Proof. by repeat constructor. Qed.

(** The component never removes or rewrites a stored meal.  Take a
    database whose profile row, if any, holds an integer or no age and a
    text or no condition, and any sequence of events from the first
    render in which the user does whatever the handlers allow, every
    read that ends, every reply and every failed fetch (served or not)
    belongs to a pending operation of its kind, and the provider's
    replies are within the embedding (a rejected call, a text that is
    not JSON, or JSON without fractions, exponents, integers beyond
    2^53, [\u] escapes and keys made of digits, the [foodName] of an
    analysis not being a number, an array or an object).  Then the run is carried out to its end, the
    rows that were stored are still there, in place, before the new
    ones, the key constraints of both tables still hold and every flag is
    0 or 1. *)
Theorem run_only_appends_rows (d : Db) (es : list Event) :
  typed d ->
  store_ok d ->
  Forall flag_ok (food_logs d) ->
  admissible es (mount d) = true ->
  exists w' outs,
    run es (mount d) = Some (w', outs)
    /\ food_logs d `prefix_of` food_logs (db w')
    /\ store_ok (db w')
    /\ Forall flag_ok (food_logs (db w')).
Proof.
  intros Htyped Hok Hflags Hadm.
  destruct (run_defined es (mount d) (mount_sane d Htyped) Hadm)
    as (w' & outs & Hrun & _).
  exists w', outs. split; [ exact Hrun | ].
  destruct (run_grows es (mount d) w' outs Hrun) as (Hpre & Hs & Hf). auto.
Qed.

Lemma run_only_appends_rows_witness :
  let es := full_capture ++ [fetch_fails 0%nat None] in
  (typed example_db
   /\ store_ok example_db
   /\ Forall flag_ok (food_logs example_db)
   /\ admissible es (mount example_db) = true)
  /\ exists w' outs,
       run es (mount example_db) = Some (w', outs)
       /\ food_logs example_db `prefix_of` food_logs (db w')
       /\ store_ok (db w')
       /\ Forall flag_ok (food_logs (db w')).
Proof.
  intros es.
  assert (Hok : store_ok example_db).
  { split; [ apply singleton_profile_table_ok | apply NoDup_nil_2 ]. }
  assert (Hadm : admissible es (mount example_db) = true) by (vm_compute; reflexivity).
  split; [ split; [ exact example_db_typed
                  | split; [ exact Hok | split; [ constructor | exact Hadm ] ] ] | ].
  exact (run_only_appends_rows example_db es example_db_typed Hok (Forall_nil_2 _)
           Hadm).
Defined.

(** The run of the example stores its meal. *)
Example full_capture_stores_a_row :
  exists w' outs,
    run full_capture (mount example_db) = Some (w', outs)
    /\ length (food_logs (db w')) = 1%nat.
Proof. do 2 eexists. split; [ vm_compute; reflexivity | reflexivity ]. Qed.

(** *** Runs without a photo *)

Lemma recommendation_effect_quiet (st : AppState) (outs : list Output)
    (ts : list Task) :
  recommendation_effect st = Some (outs, ts) -> quiet outs.
Proof.
  unfold recommendation_effect.
  destruct (get (profile st) "age") as [a| |]; try discriminate.
  destruct (truthy a && negb (length (logs st) =? 0)%nat);
    [ | intros [= <- <-]; constructor ].
  unfold fetchRecommendation.
  destruct (_ ≫= _) as [req|e|]; [ | | discriminate ]; intros [= <- <-];
    repeat constructor.
Qed.

Lemma with_effect_quiet (st : AppState) (d : Db) (ts : list Task) (w' : World)
    (outs' : list Output) :
  with_effect st d ts [] = Some (w', outs') -> quiet outs'.
Proof.
  unfold with_effect.
  destruct (recommendation_effect st) as [[o t]|] eqn:Heff; [ | discriminate ].
  intros [= <- <-]. exact (recommendation_effect_quiet _ _ _ Heff).
Qed.

Lemma count_zero_lookup (p : Task -> bool) (ts : list Task) (i : nat) (t : Task) :
  count p ts = 0%nat -> ts !! i = Some t -> p t = false.
Proof.
  intros Hzero Hi. pose proof (count_delete p ts i t Hi) as Hc.
  unfold weight in Hc. destruct (p t); [ lia | reflexivity ].
Qed.

Lemma count_zero_delete (p : Task -> bool) (ts : list Task) (i : nat) :
  count p ts = 0%nat -> count p (delete i ts) = 0%nat.
Proof.
  intros Hzero. destruct (ts !! i) as [t|] eqn:Hi.
  - pose proof (count_delete p ts i t Hi). lia.
  - revert i Hi. induction ts as [|x ts IH]; intros i Hi; [ by destruct i | ].
    destruct i as [|i]; [ discriminate | ].
    change (delete (S i) (x :: ts)) with (x :: delete i ts).
    rewrite count_cons in *. rewrite (IH ltac:(lia) i Hi). lia.
Qed.

(** A step while no capture is under way and no photo is chosen. *)
Lemma step_idle (e : Event) (w w' : World) (outs : list Output) :
  starts_capture e = 0%nat ->
  captures_in_progress w = 0%nat ->
  loading (app w) = false ->
  step e w = Some (w', outs) ->
  quiet outs
  /\ captures_in_progress w' = 0%nat
  /\ loading (app w') = false
  /\ analysisResult (app w')
     = (if is_dismiss e then JNull else analysisResult (app w))
  /\ food_logs (db w') = food_logs (db w).
Proof.
  unfold captures_in_progress. intros Hstart Hzero Hload.
  unfold step.
  destruct e as [file|t|a|c| | | |i|i reply|i now|i served]; cbn [is_dismiss].
  - destruct file as [f|]; [ discriminate Hstart | ].
    cbn [handleImageUpload]. intros [= <- <-]. cbn [app db tasks option_list].
    rewrite app_nil_r. split; [ constructor | auto ].
  - intros [= <- <-]. split; [ constructor | auto ].
  - destruct (spread_with _ _ _) as [p|]; [ | discriminate ].
    intros Heff. pose proof (with_effect_quiet _ _ _ _ _ Heff) as Hq.
    apply with_effect_world in Heff as (-> & -> & ->). auto.
  - destruct (spread_with _ _ _) as [p|]; [ | discriminate ].
    intros Heff. pose proof (with_effect_quiet _ _ _ _ _ Heff) as Hq.
    apply with_effect_world in Heff as (-> & -> & ->). auto.
  - intros [= <- <-]. cbn [app db tasks]. rewrite count_app.
    split; [ constructor | ]. split; [ cbn; lia | auto ].
  - intros [= <- <-]. split; [ constructor | auto ].
  - intros [= <- <-]. split; [ constructor | auto ].
  - destruct (tasks w !! i) as [[f p| | | | | | ]|] eqn:Hi; try discriminate.
    by pose proof (count_zero_lookup _ _ _ _ Hzero Hi).
  - destruct (tasks w !! i) as [[ |b req| | | |req| ]|] eqn:Hi; try discriminate.
    + by pose proof (count_zero_lookup _ _ _ _ Hzero Hi).
    + unfold recommended.
      destruct (_ ≫= _) as [r|err|]; [ | | discriminate ]; intros [= <- <-];
        cbn [app db tasks];
        (split; [ repeat constructor | ]);
        (split; [ by apply count_zero_delete | auto ]).
  - destruct (tasks w !! i) as [[ | |body| | | |body]|] eqn:Hi; try discriminate.
    + by pose proof (count_zero_lookup _ _ _ _ Hzero Hi).
    + cbn [get_logs]. intros Heff.
      pose proof (with_effect_quiet _ _ _ _ _ Heff) as Hq.
      apply with_effect_world in Heff as (-> & -> & ->).
      split; [ exact Hq | ]. split; [ by apply count_zero_delete | auto ].
    + intros Heff. pose proof (with_effect_quiet _ _ _ _ _ Heff) as Hq.
      apply with_effect_world in Heff as (-> & -> & ->).
      split; [ exact Hq | ]. split; [ by apply count_zero_delete | auto ].
    + destruct body; try discriminate.
      destruct (http_post _ _ (db w)) as [d'|] eqn:Hpost; [ | discriminate ].
      intros [= <- <-]. cbn [app db tasks].
      split; [ constructor | ]. split; [ by apply count_zero_delete | ].
      split; [ auto | ]. split; [ reflexivity | ].
      exact (http_post_profile_rows _ _ _ Hpost).
  - destruct (tasks w !! i) as [[ | |body| | | |body]|] eqn:Hi; try discriminate.
    + by pose proof (count_zero_lookup _ _ _ _ Hzero Hi).
    + intros [= <- <-]. cbn [app db tasks].
      split; [ constructor | ]. split; [ by apply count_zero_delete | auto ].
    + intros [= <- <-]. cbn [app db tasks].
      split; [ constructor | ]. split; [ by apply count_zero_delete | auto ].
    + destruct body; try discriminate.
      destruct (lost_response _ served (db w)) as [d'|] eqn:Hpost; [ | discriminate ].
      intros [= <- <-]. cbn [app db tasks].
      split; [ constructor | ]. split; [ by apply count_zero_delete | ].
      split; [ auto | ]. split; [ reflexivity | ].
      destruct served as [now|]; cbn [lost_response] in Hpost.
      * exact (http_post_profile_rows _ _ _ Hpost).
      * by injection Hpost as <-.
Qed.

Lemma run_without_photo (es : list Event) (w w' : World) (outs : list Output) :
  capture_events es = 0%nat ->
  captures_in_progress w = 0%nat ->
  loading (app w) = false /\ analysisResult (app w) = JNull ->
  run es w = Some (w', outs) ->
  quiet outs
  /\ (loading (app w') = false /\ analysisResult (app w') = JNull)
  /\ food_logs (db w') = food_logs (db w).
Proof.
  revert w outs. induction es as [|e es IH]; intros w outs Hev Hzero [Hload Hres].
  - intros [= <- <-]. split; [ constructor | auto ].
  - cbn [run capture_events] in *.
    destruct (step e w) as [[w1 o1]|] eqn:Hstep; [ | discriminate ].
    destruct (run es w1) as [[w2 o2]|] eqn:Hrun; [ | discriminate ].
    intros [= <- <-].
    destruct (step_idle e w w1 o1 ltac:(lia) Hzero Hload Hstep)
      as (Hq1 & Hzero1 & Hload1 & Hres1 & Hrows1).
    assert (Hnull : analysisResult (app w1) = JNull)
      by (rewrite Hres1; by destruct (is_dismiss e)).
    destruct (IH w1 o2 ltac:(lia) Hzero1 (conj Hload1 Hnull) Hrun)
      as (Hq2 & Hst2 & Hrows2).
    split; [ by apply Forall_app | ]. split; [ exact Hst2 | congruence ].
Qed.

Ltac tab_view_cases :=
  unfold renderHome, renderHistory, renderProfile;
  repeat match goal with
         | |- context [match get ?v ?k with _ => _ end] => destruct (get v k)
         | |- context [if ?b then _ else _] => destruct b
         end.

(** The tab views are neither the spinner, nor a verdict card, nor the
    photo prompt. *)
Lemma tab_view_cases_of (st : AppState) :
  let s := match activeTab st with
           | home => renderHome st
           | history => renderHistory st
           | profile_tab => renderProfile st
           | analyze => nothing
           end in
  s = home_view \/ s = history_view \/ s = profile_view \/ s = nothing
  \/ s = unmounted.
Proof. cbv zeta. destruct (activeTab st); tab_view_cases; auto. Qed.

Lemma render_idle (st : AppState) :
  loading st = false ->
  truthy (analysisResult st) = false ->
  render st = home_view \/ render st = history_view \/ render st = profile_view
  \/ render st = nothing \/ render st = unmounted.
Proof.
  intros Hload Hres. unfold render. rewrite Hload, Hres. cbn [orb].
  apply tab_view_cases_of.
Qed.

(** Until a photo is chosen, the user is never interrupted.  On any run
    from the first render, over a database whose profile row holds an
    integer or no age and a text or no condition, without a file in a
    change event, in which every reply and failed fetch belongs to a
    pending operation and the provider's replies are within the
    embedding: the run is carried out, no alert is raised (a failed
    daily recommendation only reaches the console), no analysis is
    requested, the component shows neither the spinner nor a verdict
    card, and no meal is stored. *)
Theorem no_alert_before_a_photo (d : Db) (es : list Event) :
  typed d ->
  capture_events es = 0%nat ->
  admissible es (mount d) = true ->
  exists w outs,
    run es (mount d) = Some (w, outs)
    /\ quiet outs
    /\ render (app w) <> spinner
    /\ (forall result, render (app w) <> result_card result)
    /\ food_logs (db w) = food_logs d.
Proof.
  intros Htyped Hev Hadm.
  destruct (run_defined es (mount d) (mount_sane d Htyped) Hadm)
    as (w & outs & Hrun & _).
  exists w, outs. split; [ exact Hrun | ].
  destruct (run_without_photo es (mount d) w outs Hev eq_refl
              (conj eq_refl eq_refl) Hrun) as (Hq & [Hload Hres] & Hrows).
  split; [ exact Hq | ].
  assert (Hidle : truthy (analysisResult (app w)) = false) by (by rewrite Hres).
  pose proof (render_idle (app w) Hload Hidle) as Hview.
  split; [ | split; [ | exact Hrows ] ]; intros;
    destruct Hview as [-> | [-> | [-> | [-> | ->]]]]; discriminate.
Qed.

Lemma no_alert_before_a_photo_witness :
  let d := {| user_profile := user_profile example_db;
              food_logs := [ {| log_id := 1; image_url := SqlText "u";
                                food_name := SqlText "죽"; analysis := SqlText "a";
                                is_safe := SqlInt 1;
                                created_at := "2026-01-01 09:00:00" |} ];
              food_logs_seq := 1 |} in
  let es := [http_reply 0%nat example_now; http_reply 0%nat example_now;
             click_tab history; provider_reply 0%nat rejects] in
  (typed d /\ capture_events es = 0%nat /\ admissible es (mount d) = true)
  /\ exists w outs,
       run es (mount d) = Some (w, outs)
       /\ quiet outs
       /\ render (app w) <> spinner
       /\ (forall result, render (app w) <> result_card result)
       /\ food_logs (db w) = food_logs d.
Proof.
  intros d es.
  assert (Htyped : typed d) by (by repeat constructor).
  assert (Hadm : admissible es (mount d) = true) by (vm_compute; reflexivity).
  split; [ split; [ exact Htyped | split; [ reflexivity | exact Hadm ] ] | ].
  exact (no_alert_before_a_photo d es Htyped eq_refl Hadm).
Defined.

(** On that run the failed recommendation reaches the console, and the
    history view is shown. *)
Example failed_recommendation_reaches_console :
  let d := {| user_profile := user_profile example_db;
              food_logs := [ {| log_id := 1; image_url := SqlText "u";
                                food_name := SqlText "죽"; analysis := SqlText "a";
                                is_safe := SqlInt 1;
                                created_at := "2026-01-01 09:00:00" |} ];
              food_logs_seq := 1 |} in
  exists w req,
    run [http_reply 0%nat example_now; http_reply 0%nat example_now;
         click_tab history; provider_reply 0%nat rejects] (mount d)
    = Some (w, [advisory (getDailyRecommendation_call req);
                console_error ProviderError])
    /\ render (app w) = history_view.
Proof. do 2 eexists. split; [ vm_compute; reflexivity | reflexivity ]. Qed.

(** *** The profile form *)

Lemma chosen_profile_fields (a : Z) (c : string) (props : list (string * JValue)) :
  assoc "age" (chosen_profile a c props) = Some (JNum a)
  /\ assoc "condition" (chosen_profile a c props) = Some (JStr c)
  /\ forall k, k <> "age" -> k <> "condition" ->
                assoc k (chosen_profile a c props) = assoc k props.
Proof.
  unfold chosen_profile. split; [ | split ].
  - rewrite assoc_set_prop_other by discriminate. apply assoc_set_prop_same.
  - apply assoc_set_prop_same.
  - intros k Ha Hc. by rewrite !assoc_set_prop_other.
Qed.

(** A body that carries a number as [age] and a text as [condition]
    is stored as the single row. *)
Lemma http_post_profile_fields (body : list (string * JValue)) (a : Z) (c : string)
    (d : Db) :
  assoc "age" body = Some (JNum a) ->
  assoc "condition" body = Some (JStr c) ->
  body_fits body ->
  profile_table_ok (user_profile d) ->
  http_post post_profile body d
  = Some {| user_profile := [ {| profile_id := 1; age := SqlInt a;
                                 condition := SqlText c |} ];
            food_logs := food_logs d; food_logs_seq := food_logs_seq d |}.
Proof.
  intros Ha Hc Hfits Hok. unfold body_fits in Hfits. unfold http_post.
  destruct (JSON_stringify_object body) as [t Ht]. rewrite Ht in *.
  cbv [default from_option id] in Hfits. apply Z.leb_le in Hfits. rewrite Hfits.
  unfold post_profile, get.
  rewrite (assoc_sent_props _ _ _ Ha) by discriminate.
  rewrite (assoc_sent_props _ _ _ Hc) by discriminate.
  cbn. by rewrite (upsert_profile_singleton _ _ _ Hok).
Qed.

(** A button of the profile form on a profile that is an object. *)
Lemma step_select (w : World) (props : list (string * JValue)) (k : string)
    (v : JValue) :
  profile (app w) = JObj props ->
  exists outs ts,
    with_effect (setProfile (JObj (set_prop k v props)) (app w)) (db w) (tasks w) []
    = Some ({| app := setProfile (JObj (set_prop k v props)) (app w);
               db := db w; tasks := tasks w ++ ts |}, outs)
    /\ quiet outs.
Proof.
  intros Hp.
  destruct (recommendation_effect_object
              (setProfile (JObj (set_prop k v props)) (app w)) _ eq_refl)
    as (outs & ts & Heff).
  exists outs, ts. unfold with_effect. rewrite Heff. split; [ reflexivity | ].
  exact (recommendation_effect_quiet _ _ _ Heff).
Qed.

(** Choosing an age and a condition and submitting the form stores
    exactly that pair as the single profile row, which GET /api/profile
    then returns; the other properties of the profile are kept in the
    component, the meals are untouched, no alert is raised and the Home
    tab is selected. *)
Theorem chosen_profile_is_saved (w : World) (props : list (string * JValue))
    (a : Z) (c : string) (now : string) :
  profile (app w) = JObj props ->
  profile_table_ok (user_profile (db w)) ->
  body_fits (chosen_profile a c props) ->
  exists i w' outs,
    run (fill_and_save a c i now) w = Some (w', outs)
    /\ quiet outs
    /\ profile (app w') = JObj (chosen_profile a c props)
    /\ (forall k, k <> "age" -> k <> "condition" ->
                  field (chosen_profile a c props) k = field props k)
    /\ activeTab (app w') = home
    /\ user_profile (db w')
       = [ {| profile_id := 1; age := SqlInt a; condition := SqlText c |} ]
    /\ get_profile (db w')
       = JObj [("id", JNum 1); ("age", JNum a); ("condition", JStr c)]
    /\ food_logs (db w') = food_logs (db w).
Proof.
  intros Hp Hok Hfits.
  destruct (chosen_profile_fields a c props) as (Hage & Hcond & Hother).
  destruct (step_select w props "age" (JNum a) Hp) as (o1 & t1 & Hs1 & Hq1).
  set (w1 := {| app := setProfile (JObj (set_prop "age" (JNum a) props)) (app w);
                db := db w; tasks := tasks w ++ t1 |}) in *.
  destruct (step_select w1 (set_prop "age" (JNum a) props) "condition" (JStr c)
              eq_refl) as (o2 & t2 & Hs2 & Hq2).
  exists (length ((tasks w ++ t1) ++ t2)). eexists. eexists.
  unfold fill_and_save. cbn [run].
  assert (H1 : step (select_age a) w = Some (w1, o1)).
  { unfold step. rewrite Hp. cbn [spread_with]. exact Hs1. }
  rewrite H1.
  assert (H2 : step (select_condition c) w1
               = Some ({| app := setProfile (JObj (chosen_profile a c props)) (app w1);
                          db := db w; tasks := (tasks w ++ t1) ++ t2 |}, o2)).
  { unfold step. cbn [app w1 profile setProfile spread_with]. exact Hs2. }
  rewrite H2. cbn [step app db tasks profile setProfile].
  rewrite list_lookup_middle by reflexivity.
  rewrite (http_post_profile_fields _ a c (db w) Hage Hcond Hfits Hok).
  split; [ reflexivity | ].
  split.
  { rewrite !app_nil_r. by apply Forall_app. }
  split; [ reflexivity | ].
  split.
  { intros k Hk1 Hk2. unfold field. by rewrite Hother. }
  split; [ reflexivity | ]. split; [ reflexivity | ]. split; reflexivity.
Qed.

Lemma chosen_profile_is_saved_witness :
  let w := {| app := setProfile (JObj []) initial;
              db := {| user_profile := []; food_logs := []; food_logs_seq := 0 |};
              tasks := [] |} in
  (profile (app w) = JObj []
   /\ profile_table_ok (user_profile (db w))
   /\ body_fits (chosen_profile 70 "당뇨" []))
  /\ exists i w' outs,
       run (fill_and_save 70 "당뇨" i example_now) w = Some (w', outs)
       /\ activeTab (app w') = home
       /\ get_profile (db w')
          = JObj [("id", JNum 1); ("age", JNum 70); ("condition", JStr "당뇨")].
Proof.
  intros w.
  assert (Hok : profile_table_ok (user_profile (db w)))
    by (split; [ constructor | apply NoDup_nil_2 ]).
  assert (Hfits : body_fits (chosen_profile 70 "당뇨" []))
    by (unfold body_fits; vm_compute; discriminate).
  split; [ split; [ reflexivity | split; [ exact Hok | exact Hfits ] ] | ].
  destruct (chosen_profile_is_saved w [] 70 "당뇨" example_now eq_refl Hok Hfits)
    as (i & w' & outs & Hrun & _ & _ & _ & Htab & _ & Hget & _).
  exists i, w', outs. split; [ exact Hrun | ]. split; [ exact Htab | exact Hget ].
Defined.

(** *** From a capture to the next recommendation *)

Lemma request_prints_profile (b : option string) (a c : JValue) (req : Request)
    (logs : list JValue) :
  analyzeFoodImage_request b a c = Ok req ->
  exists req', getDailyRecommendation_request logs a c = Ok req'.
Proof.
  unfold analyzeFoodImage_request, getDailyRecommendation_request.
  destruct (to_string a); cbn [mbind Res_bind]; try discriminate.
  destruct (to_string c); cbn [mbind Res_bind]; try discriminate.
  eauto.
Qed.

Lemma refresh_effect (st : AppState) (a c : JValue) (req : Request)
    (x : JValue) (rest : list JValue) :
  get (profile st) "age" = Ok a ->
  truthy a = true ->
  get (profile st) "condition" = Ok c ->
  getDailyRecommendation_request (take 5 (x :: rest)) a c = Ok req ->
  recommendation_effect (setLogs (x :: rest) st)
  = Some ([advisory (getDailyRecommendation_call req)], [recommending req]).
Proof.
  intros Ha Hta Hc Hreq. unfold recommendation_effect, fetchRecommendation.
  cbn [profile logs setLogs]. rewrite Ha, Hta, Hc. cbn [mbind Res_bind length].
  cbn [Nat.eqb negb andb]. by rewrite Hreq.
Qed.

(** A capture that is stored shows up at once: when the list the flow
    asked for arrives, the new meal is its first entry (its timestamp
    being the latest), the verdict card is still on the screen, and one
    daily recommendation is requested for the logs that now begin with
    this meal. *)
Theorem capture_refreshes_the_recommendation (w : World) (f : File)
    (req : Request) (reply : ProviderReply) (now now' : string)
    (rprops : list (string * JValue)) (n an tp : string) :
  capture_proceeds w f req ->
  parse_reply reply = Ok (JObj rprops) ->
  field rprops "foodName" = JStr n ->
  field rprops "analysis" = JStr an ->
  field rprops "tips" = JStr tp ->
  body_fits (text_body (default "" (data_url f)) n an tp (field rprops "isSafe")) ->
  newer_than_all now (db w) ->
  exists w' row rest req' a c,
    capture_then_refresh f reply now now' w
    = Some (w', [advisory (analyzeFoodImage_call req);
                 advisory (getDailyRecommendation_call req')])
    /\ logs (app w') = log_to_js row :: rest
    /\ food_logs (db w') = food_logs (db w) ++ [row]
    /\ (food_name row = SqlText n /\ created_at row = now)
    /\ render (app w') = result_card (JObj rprops)
    /\ tasks w' = tasks w ++ [recommending req']
    /\ get (profile (app w)) "age" = Ok a
    /\ get (profile (app w)) "condition" = Ok c
    /\ getDailyRecommendation_request (take 5 (log_to_js row :: rest)) a c
       = Ok req'.
Proof.
  intros Hgo Hparse Hn Han Htp Hfits Hnewer.
  pose proof (flow_persists_entry w f req reply now rprops n an tp Hgo Hparse
                Hn Han Htp Hfits) as Hflow.
  destruct (capture_proceeds_flow w f req reply now Hgo)
    as (a & c & Ha & Hta & Hc & Htc & Hreq).
  set (row := {| log_id := next_log_id (db w);
                 image_url := SqlText (default "" (data_url f));
                 food_name := SqlText n;
                 analysis := SqlText ((an ++ tip_separator) ++ tp)%string;
                 is_safe := SqlInt (if truthy (field rprops "isSafe") then 1 else 0);
                 created_at := now |}) in *.
  destruct (newest_row_sorts_first (food_logs (db w)) row Hnewer) as [rest Hms].
  destruct (request_prints_profile _ _ _ _
              (take 5 (log_to_js row :: map log_to_js (take 49 rest))) Hreq)
    as [req' Hreq'].
  eexists. exists row, (map log_to_js (take 49 rest)), req', a, c.
  unfold capture_then_refresh. rewrite Hflow.
  unfold step. cbn [tasks app db]. rewrite list_lookup_middle by reflexivity.
  unfold get_logs, select_logs. cbn [food_logs]. rewrite Hms.
  change (take 50 (row :: rest)) with (row :: take 49 rest). cbn [map].
  rewrite delete_middle, app_nil_r.
  unfold with_effect.
  rewrite (refresh_effect
             (setLoading false (setAnalysisResult (JObj rprops) (capturing (app w))))
             a c req' _ _ Ha Hta Hc Hreq').
  split; [ reflexivity | ]. cbn [app db tasks food_logs logs setLogs].
  split; [ reflexivity | ]. split; [ reflexivity | ].
  split; [ split; reflexivity | ].
  split; [ by apply (render_card_of_texts _ rprops n an tp) | ].
  split; [ reflexivity | ].
  split; [ exact Ha | split; [ exact Hc | exact Hreq' ] ].
Qed.

Lemma capture_refreshes_the_recommendation_witness :
  let rprops := [("foodName", JStr "백미밥"); ("isSafe", JBool true);
                 ("analysis", JStr "..."); ("tips", JStr "...")] in
  (capture_proceeds example_world example_file example_request
   /\ parse_reply canned_reply = Ok (JObj rprops)
   /\ body_fits (text_body (default "" (data_url example_file))
                   "백미밥" "..." "..." (JBool true))
   /\ newer_than_all example_now (db example_world))
  /\ exists w' row rest req',
       capture_then_refresh example_file canned_reply example_now example_now
         example_world
       = Some (w', [advisory (analyzeFoodImage_call example_request);
                    advisory (getDailyRecommendation_call req')])
       /\ logs (app w') = log_to_js row :: rest
       /\ food_name row = SqlText "백미밥"
       /\ tasks w' = [recommending req'].
Proof.
  intros rprops.
  assert (Hparse : parse_reply canned_reply = Ok (JObj rprops)) by reflexivity.
  assert (Hfits : body_fits (text_body (default "" (data_url example_file))
                               "백미밥" "..." "..." (JBool true)))
    by (unfold body_fits; vm_compute; discriminate).
  assert (Hnewer : newer_than_all example_now (db example_world))
    by constructor.
  split; [ split; [ exact example_capture_proceeds
                  | split; [ exact Hparse | split; [ exact Hfits | exact Hnewer ] ] ]
         | ].
  destruct (capture_refreshes_the_recommendation example_world example_file
              example_request canned_reply example_now example_now rprops
              "백미밥" "..." "..." example_capture_proceeds Hparse
              eq_refl eq_refl eq_refl Hfits Hnewer)
    as (w' & row & rest & req' & a & c & Hrun & Hlogs & _ & [Hname _] & _
        & Htasks & _).
  exists w', row, rest, req'. auto.
Defined.

(** *** Leaving the verdict card *)

Lemma render_result_card (st : AppState) (r : JValue) :
  render st = result_card r
  <-> loading st = false /\ truthy (analysisResult st) = true
      /\ analysisResult st = r
      /\ child r "foodName" && child r "analysis" && child r "tips" = true.
Proof.
  split.
  - intros Hcard.
    destruct (loading st) eqn:Hload;
      [ unfold render, renderAnalysis in Hcard; rewrite Hload in Hcard;
        discriminate Hcard | ].
    destruct (truthy (analysisResult st)) eqn:Ht.
    + unfold render, renderAnalysis in Hcard. rewrite Hload, Ht in Hcard.
      cbn [orb] in Hcard.
      destruct (child (analysisResult st) "foodName"
                && child (analysisResult st) "analysis"
                && child (analysisResult st) "tips") eqn:Hch;
        [ | discriminate Hcard ].
      injection Hcard as <-. auto.
    + destruct (render_idle st Hload Ht) as [E | [E | [E | [E | E]]]];
        rewrite E in Hcard; discriminate Hcard.
  - intros (Hload & Ht & <- & Hch). unfold render, renderAnalysis.
    by rewrite Hload, Ht, Hch.
Qed.

Lemma run_keeps_result (es : list Event) (w w' : World) (outs : list Output) :
  capture_events es = 0%nat ->
  never_dismissed es = true ->
  captures_in_progress w = 0%nat ->
  loading (app w) = false ->
  run es w = Some (w', outs) ->
  captures_in_progress w' = 0%nat
  /\ loading (app w') = false
  /\ analysisResult (app w') = analysisResult (app w).
Proof.
  revert w outs. induction es as [|e es IH]; intros w outs Hev Hnd Hzero Hload.
  - intros [= <- <-]. auto.
  - cbn [run capture_events never_dismissed] in *.
    apply andb_true_iff in Hnd as [He Hnd].
    destruct (step e w) as [[w1 o1]|] eqn:Hstep; [ | discriminate ].
    destruct (run es w1) as [[w2 o2]|] eqn:Hrun; [ | discriminate ].
    intros [= <- <-].
    destruct (step_idle e w w1 o1 ltac:(lia) Hzero Hload Hstep)
      as (_ & Hzero1 & Hload1 & Hres1 & _).
    destruct (is_dismiss e); [ discriminate He | ].
    destruct (IH w1 o2 ltac:(lia) Hnd Hzero1 Hload1 Hrun) as (Hz & Hl & Hr).
    split; [ exact Hz | ]. split; [ exact Hl | congruence ].
Qed.

(** Once the component shows a verdict and no capture is under way,
    only the Home icon of the result view or a new photo takes the card
    away.  From a world a run can reach (the profile an object with a
    number or no age and a text or no condition, the profile table
    likewise, the pending POSTs as the handlers build them), on any
    sequence of events without the Home icon and without a file, in
    which every reply and failed fetch belongs to a pending operation
    and the provider's replies are within the embedding: the run is
    carried out and the component still shows the same card.  The Home
    icon then selects the Home view, rendered from the recommendation,
    the profile and the logs as they are at that time: the Home view, or
    a render that throws when the recommendation is an object. *)
Theorem verdict_card_stays_until_dismissed (es : list Event) (w : World)
    (r : JValue) :
  sane w ->
  render (app w) = result_card r ->
  captures_in_progress w = 0%nat ->
  capture_events es = 0%nat ->
  never_dismissed es = true ->
  admissible es w = true ->
  exists w' outs,
    run es w = Some (w', outs)
    /\ render (app w') = result_card r
    /\ exists w'',
         step dismiss_result w' = Some (w'', [])
         /\ render (app w'') = renderHome (app w')
         /\ (render (app w'') = home_view \/ render (app w'') = unmounted)
         /\ (truthy (recommendation (app w')) = true ->
             renderable (recommendation (app w')) = false ->
             render (app w'') = unmounted).
Proof.
  intros Hsane Hcard Hzero Hev Hnd Hadm.
  destruct (run_defined es w Hsane Hadm) as (w' & outs & Hrun & _).
  exists w', outs. split; [ exact Hrun | ].
  apply render_result_card in Hcard as (Hload & Ht & Hr & Hch).
  destruct (run_keeps_result es w w' outs Hev Hnd Hzero Hload Hrun)
    as (_ & Hload' & Hres').
  split.
  - apply render_result_card. rewrite Hres'. auto.
  - eexists. split; [ reflexivity | ].
    assert (Hhome : render (setActiveTab home (setAnalysisResult JNull (app w')))
                    = renderHome (app w')).
    { unfold render. cbn [app loading analysisResult activeTab setActiveTab
                          setAnalysisResult].
      by rewrite Hload'. }
    cbn [app]. rewrite Hhome. split; [ reflexivity | ]. split.
    + unfold renderHome.
      match goal with |- context [if ?b then _ else _] => destruct b end; auto.
    + intros Htr Hnr. unfold renderHome. by rewrite Htr, Hnr.
Qed.

Lemma after_full_capture_sane : sane after_full_capture.
Proof.
  destruct (run_defined full_capture (mount example_db)
              (mount_sane example_db example_db_typed) eq_refl)
    as (w & outs & Hrun & Hsane).
  unfold after_full_capture. by rewrite Hrun.
Qed.

Lemma verdict_card_stays_until_dismissed_witness :
  let w := after_full_capture in
  let es := [confirm_result; click_tab history; http_reply 0%nat example_now;
             click_tab home] in
  (sane w
   /\ render (app w) = result_card canned_result
   /\ captures_in_progress w = 0%nat
   /\ capture_events es = 0%nat
   /\ never_dismissed es = true
   /\ admissible es w = true)
  /\ exists w' outs,
       run es w = Some (w', outs)
       /\ render (app w') = result_card canned_result
       /\ exists w'',
            step dismiss_result w' = Some (w'', [])
            /\ render (app w'') = renderHome (app w')
            /\ (render (app w'') = home_view \/ render (app w'') = unmounted)
            /\ (truthy (recommendation (app w')) = true ->
                renderable (recommendation (app w')) = false ->
                render (app w'') = unmounted).
Proof.
  intros w es.
  assert (Hcard : render (app w) = result_card canned_result)
    by (vm_compute; reflexivity).
  assert (Hzero : captures_in_progress w = 0%nat) by (vm_compute; reflexivity).
  assert (Hadm : admissible es w = true) by (vm_compute; reflexivity).
  split; [ split; [ exact after_full_capture_sane
                  | split; [ exact Hcard
                           | split; [ exact Hzero
                                    | split; [ reflexivity
                                             | split; [ reflexivity
                                                      | exact Hadm ] ] ] ] ] | ].
  exact (verdict_card_stays_until_dismissed es w canned_result
           after_full_capture_sane Hcard Hzero eq_refl eq_refl Hadm).
Defined.

(** A daily recommendation that is an object empties the page: the
    Home view cannot render it. *)
Example object_recommendation_unmounts :
  let d := {| user_profile := user_profile example_db;
              food_logs := [ {| log_id := 1; image_url := SqlText "u";
                                food_name := SqlText "죽"; analysis := SqlText "a";
                                is_safe := SqlInt 1;
                                created_at := "2026-01-01 09:00:00" |} ];
              food_logs_seq := 1 |} in
  exists w outs,
    run [http_reply 0%nat example_now; http_reply 0%nat example_now;
         provider_reply 0%nat (responds (Some (js "{'recommendation':{}}")))]
      (mount d) = Some (w, outs)
    /\ recommendation (app w) = JObj []
    /\ render (app w) = unmounted.
Proof. do 2 eexists. split; [ vm_compute; reflexivity | split; reflexivity ]. Qed.

(** *** What is never on the screen *)

Lemma step_nav_tab (e : Event) (w w' : World) (outs : list Output) :
  nav_tabs_only [e] = true ->
  is_nav_tab (activeTab (app w)) = true ->
  step e w = Some (w', outs) ->
  is_nav_tab (activeTab (app w')) = true.
Proof.
  intros He Htab. unfold step.
  destruct e as [file|t|a|c| | | |i|i reply|i now|i served].
  - unfold handleImageUpload. destruct file as [f|]; [ | by intros [= <- <-] ].
    destruct (get (profile (app w)) "age") as [a| |]; cbn [mbind Res_bind];
      [ | by intros [= <- <-] | discriminate ].
    destruct (truthy a); cbn [negb]; [ | by intros [= <- <-] ].
    destruct (get (profile (app w)) "condition") as [c| |]; cbn [mbind Res_bind];
      [ | by intros [= <- <-] | discriminate ].
    destruct (truthy c); cbn [negb]; by intros [= <- <-].
  - intros [= <- <-]. cbn in *. by rewrite andb_true_r in He.
  - destruct (spread_with _ _ _) as [p|]; [ | discriminate ].
    intros Heff. by apply with_effect_world in Heff as (-> & _ & _).
  - destruct (spread_with _ _ _) as [p|]; [ | discriminate ].
    intros Heff. by apply with_effect_world in Heff as (-> & _ & _).
  - by intros [= <- <-].
  - by intros [= <- <-].
  - by intros [= <- <-].
  - destruct (tasks w !! i) as [[f p| | | | | | ]|]; try discriminate.
    unfold onloadend.
    destruct (_ ≫= _) as [[req b]|err|]; [ | | discriminate ]; by intros [= <- <-].
  - destruct (tasks w !! i) as [[ |b req| | | |req| ]|]; try discriminate.
    + unfold analysed.
      destruct (parse_reply reply) as [result|err|]; [ | | discriminate ].
      * destruct (log_body b result) as [body|err|]; [ | | discriminate ];
          by intros [= <- <-].
      * by intros [= <- <-].
    + unfold recommended.
      destruct (_ ≫= _) as [r|err|]; [ | | discriminate ]; by intros [= <- <-].
  - destruct (tasks w !! i) as [[ | |body| | | |body]|]; try discriminate.
    + destruct (http_post _ body (db w)) as [d'|]; [ | discriminate ].
      by intros [= <- <-].
    + cbn [get_logs]. intros Heff.
      by apply with_effect_world in Heff as (-> & _ & _).
    + intros Heff. by apply with_effect_world in Heff as (-> & _ & _).
    + destruct body; try discriminate.
      destruct (http_post _ _ (db w)) as [d'|]; [ | discriminate ].
      by intros [= <- <-].
  - destruct (tasks w !! i) as [[ | |body| | | |body]|]; try discriminate.
    + destruct (lost_response _ served (db w)) as [d'|]; [ | discriminate ].
      cbn [caught]. by intros [= <- <-].
    + by intros [= <- <-].
    + by intros [= <- <-].
    + destruct body; try discriminate.
      destruct (lost_response _ served (db w)) as [d'|]; [ | discriminate ].
      by intros [= <- <-].
Qed.

Lemma nav_tabs_only_cons (e : Event) (es : list Event) :
  nav_tabs_only (e :: es) = nav_tabs_only [e] && nav_tabs_only es.
Proof. destruct e; cbn; try reflexivity. by rewrite andb_true_r. Qed.

Lemma run_nav_tab (es : list Event) (w w' : World) (outs : list Output) :
  nav_tabs_only es = true ->
  is_nav_tab (activeTab (app w)) = true ->
  run es w = Some (w', outs) ->
  is_nav_tab (activeTab (app w')) = true.
Proof.
  revert w outs. induction es as [|e es IH]; intros w outs Hnav Htab.
  - by intros [= <- <-].
  - rewrite nav_tabs_only_cons in Hnav. apply andb_true_iff in Hnav as [He Hes].
    cbn [run].
    destruct (step e w) as [[w1 o1]|] eqn:Hstep; [ | discriminate ].
    destruct (run es w1) as [[w2 o2]|] eqn:Hrun; [ | discriminate ].
    intros [= <- <-].
    exact (IH w1 o2 Hes (step_nav_tab e w w1 o1 He Htab Hstep) Hrun).
Qed.

(** Two branches of the views are dead.  On any run from the first
    render whose tab clicks are those of the three tab buttons (over a
    database whose profile row holds an integer or no age and a text or
    no condition, every reply and failed fetch belonging to a pending
    operation, the provider's replies within the embedding), the run is
    carried out and the [analyze] tab, which has no view, is never
    selected, so the component never returns an empty main area for want
    of a view; and in no state at all does it return the photo prompt of
    the result view, which is rendered only while loading or holding a
    result.  A render that throws can still empty the page. *)
Theorem analyze_tab_and_photo_prompt_are_dead (d : Db) (es : list Event) :
  typed d ->
  nav_tabs_only es = true ->
  admissible es (mount d) = true ->
  exists w outs,
    run es (mount d) = Some (w, outs)
    /\ activeTab (app w) <> analyze
    /\ render (app w) <> nothing
    /\ forall st, render st <> capture_prompt.
Proof.
  intros Htyped Hnav Hadm.
  destruct (run_defined es (mount d) (mount_sane d Htyped) Hadm)
    as (w & outs & Hrun & _).
  exists w, outs. split; [ exact Hrun | ].
  pose proof (run_nav_tab es (mount d) w outs Hnav eq_refl Hrun) as Htab.
  split; [ | split ].
  - intros E. by rewrite E in Htab.
  - unfold render, renderAnalysis.
    destruct (loading (app w)); cbn [orb]; [ discriminate | ].
    destruct (truthy (analysisResult (app w)));
      [ match goal with |- context [if ?b then _ else _] => destruct b end;
        discriminate | ].
    destruct (activeTab (app w)); try discriminate Htab;
      tab_view_cases; discriminate.
  - intros st. unfold render, renderAnalysis.
    destruct (loading st); cbn [orb]; [ discriminate | ].
    destruct (truthy (analysisResult st));
      [ match goal with |- context [if ?b then _ else _] => destruct b end;
        discriminate | ].
    destruct (activeTab st); tab_view_cases; discriminate.
Qed.

Lemma analyze_tab_and_photo_prompt_are_dead_witness :
  let es := [http_reply 0%nat example_now; http_reply 0%nat example_now;
             click_tab history; click_tab profile_tab; select_age 80;
             submit_profile; http_reply 0%nat example_now] in
  (typed example_db
   /\ nav_tabs_only es = true
   /\ admissible es (mount example_db) = true)
  /\ exists w outs,
       run es (mount example_db) = Some (w, outs)
       /\ activeTab (app w) <> analyze
       /\ render (app w) <> nothing
       /\ forall st, render st <> capture_prompt.
Proof.
  intros es.
  assert (Hadm : admissible es (mount example_db) = true) by (vm_compute; reflexivity).
  split; [ split; [ exact example_db_typed | split; [ reflexivity | exact Hadm ] ] | ].
  exact (analyze_tab_and_photo_prompt_are_dead example_db es example_db_typed
           eq_refl Hadm).
Defined.

(** *** The list on the screen and the table *)

Lemma get_logs_from_store (d : Db) (x : JValue) :
  x ∈ (get_logs d).1 -> exists r, r ∈ food_logs d /\ x = log_to_js r.
Proof.
  unfold get_logs, select_logs. cbn [fst]. intros Hx.
  apply list_elem_of_fmap in Hx as (r & -> & Hr). exists r. split; [ | reflexivity ].
  apply elem_of_take in Hr as (i & Hi & _).
  apply list_elem_of_lookup_2 in Hi.
  by rewrite (order_Permutation (food_logs d)) in Hi.
Qed.

Lemma logs_from_store_grows (st : AppState) (d d' : Db) (ts ts' : list Task) :
  food_logs d `prefix_of` food_logs d' ->
  logs_from_store {| app := st; db := d; tasks := ts |} ->
  logs_from_store {| app := st; db := d'; tasks := ts' |}.
Proof.
  intros [k Hk] [Hin Hlen]. split; [ | exact Hlen ].
  intros x Hx. destruct (Hin x Hx) as (r & Hr & ->). exists r.
  split; [ | reflexivity ]. cbn [db] in *. rewrite Hk. apply elem_of_app. by left.
Qed.

Lemma step_logs (e : Event) (w w' : World) (outs : list Output) :
  step e w = Some (w', outs) ->
  logs (app w') = logs (app w)
  \/ (logs (app w') = (get_logs (db w)).1 /\ db w' = db w).
Proof.
  unfold step.
  destruct e as [file|t|a|c| | | |i|i reply|i now|i served].
  - unfold handleImageUpload. destruct file as [f|]; [ | intros [= <- <-]; by left ].
    destruct (get (profile (app w)) "age") as [a| |]; cbn [mbind Res_bind];
      [ | intros [= <- <-]; by left | discriminate ].
    destruct (truthy a); cbn [negb]; [ | intros [= <- <-]; by left ].
    destruct (get (profile (app w)) "condition") as [c| |]; cbn [mbind Res_bind];
      [ | intros [= <- <-]; by left | discriminate ].
    destruct (truthy c); cbn [negb]; intros [= <- <-]; by left.
  - intros [= <- <-]. by left.
  - destruct (spread_with _ _ _) as [p|]; [ | discriminate ].
    intros Heff. apply with_effect_world in Heff as (-> & _ & _). by left.
  - destruct (spread_with _ _ _) as [p|]; [ | discriminate ].
    intros Heff. apply with_effect_world in Heff as (-> & _ & _). by left.
  - intros [= <- <-]. by left.
  - intros [= <- <-]. by left.
  - intros [= <- <-]. by left.
  - destruct (tasks w !! i) as [[f p| | | | | | ]|]; try discriminate.
    unfold onloadend.
    destruct (_ ≫= _) as [[req b]|err|]; [ | | discriminate ];
      intros [= <- <-]; by left.
  - destruct (tasks w !! i) as [[ |b req| | | |req| ]|]; try discriminate.
    + unfold analysed.
      destruct (parse_reply reply) as [result|err|]; [ | | discriminate ].
      * destruct (log_body b result) as [body|err|]; [ | | discriminate ];
          intros [= <- <-]; by left.
      * intros [= <- <-]. by left.
    + unfold recommended.
      destruct (_ ≫= _) as [r|err|]; [ | | discriminate ];
        intros [= <- <-]; by left.
  - destruct (tasks w !! i) as [[ | |body| | | |body]|]; try discriminate.
    + destruct (http_post _ body (db w)) as [d'|]; [ | discriminate ].
      intros [= <- <-]. by left.
    + cbn [get_logs]. intros Heff.
      apply with_effect_world in Heff as (-> & -> & _). by right.
    + intros Heff. apply with_effect_world in Heff as (-> & _ & _). by left.
    + destruct body; try discriminate.
      destruct (http_post _ _ (db w)) as [d'|]; [ | discriminate ].
      intros [= <- <-]. by left.
  - destruct (tasks w !! i) as [[ | |body| | | |body]|]; try discriminate.
    + destruct (lost_response _ served (db w)) as [d'|]; [ | discriminate ].
      cbn [caught]. intros [= <- <-]. by left.
    + intros [= <- <-]. by left.
    + intros [= <- <-]. by left.
    + destruct body; try discriminate.
      destruct (lost_response _ served (db w)) as [d'|]; [ | discriminate ].
      intros [= <- <-]. by left.
Qed.

Lemma step_logs_from_store (e : Event) (w w' : World) (outs : list Output) :
  step e w = Some (w', outs) -> logs_from_store w -> logs_from_store w'.
Proof.
  intros Hstep Hinv.
  destruct (step_grows e w w' outs Hstep) as (Hpre & _).
  destruct (step_logs e w w' outs Hstep) as [Hsame | [Hget Hdb]].
  - destruct w as [st d ts], w' as [st' d' ts']. cbn [app db] in *.
    pose proof (logs_from_store_grows st d d' ts ts' Hpre Hinv) as [Hin Hlen].
    unfold logs_from_store in *. cbn [app db] in *. rewrite Hsame. auto.
  - unfold logs_from_store. rewrite Hget, Hdb. split.
    + apply get_logs_from_store.
    + unfold get_logs, select_logs. cbn [fst]. rewrite length_map, length_take. lia.
Qed.

Lemma run_logs_from_store (es : list Event) (w w' : World) (outs : list Output) :
  run es w = Some (w', outs) -> logs_from_store w -> logs_from_store w'.
Proof.
  revert w outs. induction es as [|e es IH]; intros w outs.
  - by intros [= <- <-].
  - cbn [run]. destruct (step e w) as [[w1 o1]|] eqn:Hstep; [ | discriminate ].
    destruct (run es w1) as [[w2 o2]|] eqn:Hrun; [ | discriminate ].
    intros [= <- <-] Hinv.
    exact (IH _ _ Hrun (step_logs_from_store _ _ _ _ Hstep Hinv)).
Qed.

(** The list of meals the component holds never shows something that
    is not in the table.  On any run from the first render (over a
    database whose profile row holds an integer or no age and a text or
    no condition, every reply and failed fetch belonging to a pending
    operation, the provider's replies within the embedding), the run is
    carried out, every entry of [logs] is a stored row as GET /api/logs
    prints it, and there are at most fifty of them. *)
Theorem shown_logs_are_stored (d : Db) (es : list Event) :
  typed d ->
  admissible es (mount d) = true ->
  exists w outs,
    run es (mount d) = Some (w, outs)
    /\ (forall x, x ∈ logs (app w) ->
                  exists r, r ∈ food_logs (db w) /\ x = log_to_js r)
    /\ (length (logs (app w)) <= 50)%nat.
Proof.
  intros Htyped Hadm.
  destruct (run_defined es (mount d) (mount_sane d Htyped) Hadm)
    as (w & outs & Hrun & _).
  exists w, outs. split; [ exact Hrun | ].
  apply (run_logs_from_store es (mount d) w outs Hrun).
  split; [ intros x Hx; by apply not_elem_of_nil in Hx | cbn; lia ].
Qed.

Lemma shown_logs_are_stored_witness :
  (typed example_db /\ admissible full_capture (mount example_db) = true)
  /\ exists w outs,
       run full_capture (mount example_db) = Some (w, outs)
       /\ (forall x, x ∈ logs (app w) ->
                     exists r, r ∈ food_logs (db w) /\ x = log_to_js r)
       /\ (length (logs (app w)) <= 50)%nat.
Proof.
  assert (Hadm : admissible full_capture (mount example_db) = true)
    by (vm_compute; reflexivity).
  split; [ split; [ exact example_db_typed | exact Hadm ] | ].
  exact (shown_logs_are_stored example_db full_capture example_db_typed Hadm).
Defined.

(** The run of the example lists its meal. *)
Example full_capture_lists_a_row :
  exists w outs,
    run full_capture (mount example_db) = Some (w, outs)
    /\ length (logs (app w)) = 1%nat.
Proof. do 2 eexists. split; [ vm_compute; reflexivity | reflexivity ]. Qed.

(** *** The profile a capture is analysed for *)

Lemma run_edits_tasks (es : list Event) (w w' : World) (outs : list Output) :
  profile_edits es = true ->
  run es w = Some (w', outs) ->
  exists ts, tasks w' = tasks w ++ ts.
Proof.
  revert w outs. induction es as [|e es IH]; intros w outs Hed.
  - intros [= <- <-]. exists []. by rewrite app_nil_r.
  - cbn [run].
    destruct (step e w) as [[w1 o1]|] eqn:Hstep; [ | discriminate ].
    destruct (run es w1) as [[w2 o2]|] eqn:Hrun; [ | discriminate ].
    intros [= <- <-].
    assert (Hs : exists ts, tasks w1 = tasks w ++ ts /\ profile_edits es = true).
    { destruct e; try discriminate Hed; cbn [profile_edits] in Hed;
        unfold step in Hstep;
        (destruct (spread_with _ _ _) as [p|]; [ | discriminate ]);
        unfold with_effect in Hstep;
        (destruct (recommendation_effect _) as [[o t]|]; [ | discriminate ]);
        injection Hstep as <- <-; eauto. }
    destruct Hs as (ts1 & Hts1 & Hed').
    destruct (IH w1 o2 Hed' Hrun) as [ts2 Hts2].
    exists (ts1 ++ ts2). by rewrite Hts2, Hts1, app_assoc.
Qed.

(** The analysis is requested for the profile as it was when the photo
    was chosen: whatever ages and conditions are selected while the file
    is being read, the request sent when the read ends is the one built
    from the profile of the change event, not from the current one. *)
Theorem analysis_uses_profile_at_capture (w : World) (f : File) (req : Request)
    (es : list Event) (w2 : World) (outs : list Output) :
  capture_proceeds w f req ->
  profile_edits es = true ->
  run (change (Some f) :: es) w = Some (w2, outs) ->
  exists w3,
    step (loadend (length (tasks w))) w2
    = Some (w3, [advisory (analyzeFoodImage_call req)])
    /\ tasks w3 !! length (tasks w)
       = Some (analysing (default "" (data_url f)) req)
    /\ app w3 = app w2.
Proof.
  intros Hgo Hed Hrun.
  destruct (capture_proceeds_flow w f req (responds None) "" Hgo)
    as (a & c & Ha & Hta & Hc & Htc & Hreq).
  cbn [run] in Hrun. rewrite (step_change_starts w f a c Ha Hta Hc Htc) in Hrun.
  destruct (run es _) as [[w2' o2]|] eqn:Hes; [ | discriminate ].
  injection Hrun as -> <-.
  destruct (run_edits_tasks es _ w2 o2 Hed Hes) as [ts Hts]. cbn [tasks] in Hts.
  assert (Hi : tasks w2 !! length (tasks w) = Some (reading f (profile (app w)))).
  { rewrite Hts, <- app_assoc. by apply list_lookup_middle. }
  eexists. unfold step. rewrite Hi. unfold onloadend.
  rewrite Ha, Hc. cbn [mbind Res_bind]. rewrite Hreq. cbn [mbind Res_bind continue].
  split; [ reflexivity | ]. cbn [tasks app]. split; [ | reflexivity ].
  apply list_lookup_insert_eq. by apply lookup_lt_Some in Hi.
Qed.

Lemma analysis_uses_profile_at_capture_witness :
  let es := [select_age 90; select_condition "고혈압"] in
  exists w2 outs,
    (capture_proceeds example_world example_file example_request
     /\ profile_edits es = true
     /\ run (change (Some example_file) :: es) example_world = Some (w2, outs))
    /\ get (profile (app w2)) "age" = Ok (JNum 90)
    /\ exists w3,
         step (loadend 0%nat) w2
         = Some (w3, [advisory (analyzeFoodImage_call example_request)])
         /\ tasks w3 !! 0%nat
            = Some (analysing "data:image/jpeg;base64,QUJD" example_request)
         /\ app w3 = app w2.
Proof.
  intros es.
  destruct (run (change (Some example_file) :: es) example_world)
    as [[w2 outs]|] eqn:Hrun; [ | vm_compute in Hrun; discriminate Hrun ].
  pose proof (analysis_uses_profile_at_capture example_world example_file
                example_request es w2 outs example_capture_proceeds eq_refl Hrun)
    as Hthm.
  exists w2, outs.
  split; [ split; [ exact example_capture_proceeds | split; reflexivity ] | ].
  split; [ | exact Hthm ].
  clear Hthm. vm_compute in Hrun. injection Hrun as <- _. reflexivity.
Defined.

(** *** The first two replies *)

Lemma get_profile_object (d : Db) : exists props, get_profile d = JObj props.
Proof.
  unfold get_profile. destruct (select_profile d) as [r|]; [ | by exists [] ].
  unfold profile_to_js. eauto.
Qed.

(** The first screen does not depend on which of the two fetches of the
    mount effect is answered first: both orders end in the same state,
    holding the stored profile and the listed logs, with the same
    outputs, which are at most one daily recommendation request (or the
    error of building it); the database is untouched. *)
Theorem mount_replies_commute (d : Db) (t1 t2 t3 t4 : string) :
  exists w outs,
    run [http_reply 0%nat t1; http_reply 0%nat t2] (mount d) = Some (w, outs)
    /\ run [http_reply 1%nat t3; http_reply 0%nat t4] (mount d) = Some (w, outs)
    /\ profile (app w) = get_profile d
    /\ logs (app w) = (get_logs d).1
    /\ db w = d
    /\ (outs = []
        \/ (exists req, outs = [advisory (getDailyRecommendation_call req)]
                        /\ tasks w = [recommending req])
        \/ exists e, outs = [console_error e]).
Proof.
  destruct (get_profile_object d) as [props Hp].
  destruct (recommendation_effect_object
              (setLogs (get_logs d).1 (setProfile (get_profile d) initial)) props Hp)
    as (o & ts & Heff).
  assert (Hfirst : recommendation_effect (setProfile (get_profile d) initial)
                   = Some ([], [])).
  { unfold recommendation_effect. cbn [profile logs setProfile initial].
    rewrite Hp, get_object. cbn [length Nat.eqb negb]. by rewrite andb_false_r. }
  exists {| app := setLogs (get_logs d).1 (setProfile (get_profile d) initial);
            db := d; tasks := ts |}, o.
  unfold get_logs in Heff. cbn [fst] in Heff.
  assert (HA1 : step (http_reply 0%nat t1) (mount d)
                = Some ({| app := setProfile (get_profile d) initial; db := d;
                           tasks := [fetching_logs] |}, [])).
  { unfold step, with_effect. cbn -[recommendation_effect get_profile].
    by rewrite Hfirst. }
  assert (HA2 : step (http_reply 0%nat t2)
                  {| app := setProfile (get_profile d) initial; db := d;
                     tasks := [fetching_logs] |}
                = Some ({| app := setLogs (map log_to_js (select_logs d))
                                    (setProfile (get_profile d) initial);
                           db := d; tasks := ts |}, o)).
  { unfold step, with_effect.
    cbn -[recommendation_effect get_profile select_logs].
    by rewrite Heff. }
  assert (HB1 : step (http_reply 1%nat t3) (mount d)
                = Some ({| app := setLogs (map log_to_js (select_logs d)) initial;
                           db := d; tasks := [fetching_profile] |}, [])).
  { reflexivity. }
  assert (HB2 : step (http_reply 0%nat t4)
                  {| app := setLogs (map log_to_js (select_logs d)) initial;
                     db := d; tasks := [fetching_profile] |}
                = Some ({| app := setLogs (map log_to_js (select_logs d))
                                    (setProfile (get_profile d) initial);
                           db := d; tasks := ts |}, o)).
  { unfold step, with_effect.
    cbn -[recommendation_effect get_profile select_logs].
    change (setProfile (get_profile d) (setLogs (map log_to_js (select_logs d)) initial))
      with (setLogs (map log_to_js (select_logs d)) (setProfile (get_profile d) initial)).
    by rewrite Heff. }
  split; [ | split ].
  - cbn [run]. rewrite HA1, HA2. by rewrite app_nil_r.
  - cbn [run]. rewrite HB1, HB2. by rewrite app_nil_r.
  - cbn [app db tasks profile logs setLogs setProfile].
    split; [ reflexivity | ]. split; [ reflexivity | ]. split; [ reflexivity | ].
    revert Heff. unfold recommendation_effect. cbn [profile logs setLogs setProfile].
    rewrite Hp, get_object.
    destruct (truthy (field props "age") && _);
      [ | intros [= <- <-]; by left ].
    unfold fetchRecommendation.
    destruct (_ ≫= _) as [req|e|]; [ | | discriminate ]; intros [= <- <-];
      right; [ left | right ]; eauto.
Qed.

(** *** C7: captures are not serialised *)



End RunProps.

(** ** The request body between client and server *)

Module WireProps.
Import JS JSON Stringify Server Advisory App Views Invariants.
Local Open Scope list_scope.

Lemma string_cons_app (c : ascii) (a b : string) :
  (String c a ++ b)%string = String c (a ++ b)%string.
Proof. reflexivity. Qed.

Lemma string_nil_app (a : string) : ("" ++ a)%string = a.
Proof. reflexivity. Qed.

Lemma string_app_assoc (a b c : string) : ((a ++ b) ++ c = a ++ (b ++ c))%string.
Proof.
  induction a as [|x a IH]; [ reflexivity | ].
  rewrite !string_cons_app. f_equal. exact IH.
Qed.

Ltac norm_app :=
  repeat (rewrite string_cons_app || rewrite string_nil_app
          || rewrite string_app_assoc).

Lemma parse_chars_quote_chars (s rest : string) :
  plain s = true ->
  parse_chars (quote_chars s ++ String dquote rest)%string = POk (Some s) rest.
Proof.
  induction s as [|c s IH]; intros Hs.
  - reflexivity.
  - cbn [plain] in Hs. apply andb_true_iff in Hs as [Hc Hs].
    specialize (IH Hs). cbn [quote_chars]. rewrite string_app_assoc.
    unfold quote_char, short_escape in *.
    destruct (c =? dquote)%char eqn:E1.
    { apply Ascii.eqb_eq in E1. subst c. norm_app. cbn. by rewrite IH. }
    destruct (c =? backslash)%char eqn:E2.
    { apply Ascii.eqb_eq in E2. subst c. norm_app. cbn. by rewrite IH. }
    destruct (c =? "008")%char eqn:E3.
    { apply Ascii.eqb_eq in E3. subst c. norm_app. cbn. by rewrite IH. }
    destruct (c =? "012")%char eqn:E4.
    { apply Ascii.eqb_eq in E4. subst c. norm_app. cbn. by rewrite IH. }
    destruct (c =? "010")%char eqn:E5.
    { apply Ascii.eqb_eq in E5. subst c. norm_app. cbn. by rewrite IH. }
    destruct (c =? "013")%char eqn:E6.
    { apply Ascii.eqb_eq in E6. subst c. norm_app. cbn. by rewrite IH. }
    destruct (c =? "009")%char eqn:E7.
    { apply Ascii.eqb_eq in E7. subst c. norm_app. cbn. by rewrite IH. }
    destruct (N_of_ascii c <? 32)%N eqn:E8; [ discriminate Hc | ].
    norm_app. cbn [parse_chars]. rewrite E1, E2, E8, IH. reflexivity.
Qed.

Lemma quote_rest (s rest : string) :
  (quote s ++ rest)%string = String dquote (quote_chars s ++ String dquote rest)%string.
Proof. unfold quote. by norm_app. Qed.

Lemma parse_value_string (fuel : nat) (s rest : string) :
  plain s = true ->
  parse_value (S fuel) (String dquote (quote_chars s ++ String dquote rest))
  = POk (Some (JStr s)) rest.
Proof.
  intros Hs. cbn [parse_value skip_ws]. cbn.
  by rewrite (parse_chars_quote_chars s rest Hs).
Qed.

Lemma parse_value_true (fuel : nat) (rest : string) :
  parse_value (S fuel) ("true" ++ rest) = POk (Some (JBool true)) rest.
Proof. reflexivity. Qed.

Lemma parse_value_false (fuel : nat) (rest : string) :
  parse_value (S fuel) ("false" ++ rest) = POk (Some (JBool false)) rest.
Proof. reflexivity. Qed.

Lemma parse_value_null (fuel : nat) (rest : string) :
  parse_value (S fuel) ("null" ++ rest) = POk (Some JNull) rest.
Proof. reflexivity. Qed.

Lemma parse_value_object (fuel : nat) (r : string) :
  parse_value (S fuel) (String "{" (String dquote r))
  = parse_members fuel (String dquote r) (Some []).
Proof. reflexivity. Qed.

Lemma parse_members_next (fuel : nat) (key vtext rest : string) (v : JValue)
    (acc : list (string * JValue)) :
  plain key = true ->
  index_like key = false ->
  parse_value fuel vtext = POk (Some v) (String "," (String dquote rest)) ->
  parse_members (S fuel)
    (String dquote (quote_chars key ++ String dquote (String ":" vtext))) (Some acc)
  = parse_members fuel (String dquote rest) (Some (set_prop key v acc)).
Proof.
  intros Hkey Hidx Hv. cbn [parse_members starts_with].
  rewrite Ascii.eqb_refl, (parse_chars_quote_chars key _ Hkey).
  cbn [skip_ws is_ws starts_with]. cbn. rewrite Hv. cbn [add_member].
  by rewrite Hidx.
Qed.

Lemma parse_members_last (fuel : nat) (key vtext rest : string) (v : JValue)
    (acc : list (string * JValue)) :
  plain key = true ->
  index_like key = false ->
  parse_value fuel vtext = POk (Some v) (String "}" rest) ->
  parse_members (S fuel)
    (String dquote (quote_chars key ++ String dquote (String ":" vtext))) (Some acc)
  = POk (Some (JObj (set_prop key v acc))) rest.
Proof.
  intros Hkey Hidx Hv. cbn [parse_members starts_with].
  rewrite Ascii.eqb_refl, (parse_chars_quote_chars key _ Hkey).
  cbn [skip_ws is_ws starts_with]. cbn. rewrite Hv. cbn [add_member].
  by rewrite Hidx.
Qed.

Lemma plain_app (s1 s2 : string) :
  plain s1 = true -> plain s2 = true -> plain (s1 ++ s2)%string = true.
Proof.
  intros H1 H2. induction s1 as [|c s1 IH]; [ exact H2 | ].
  rewrite string_cons_app. cbn [plain] in *.
  apply andb_true_iff in H1 as [Hc H1]. by rewrite Hc, (IH H1).
Qed.

Lemma text_members_round_trip (b n text : string) (flag : JValue) :
  plain b = true -> plain n = true -> plain text = true -> wire_flag flag = true ->
  let body := [("image_url", JStr b); ("food_name", JStr n);
               ("analysis", JStr text); ("is_safe", flag)] in
  JSON_parse (default "" (JSON_stringify (JObj body))) = Ok (JObj (sent_props body)).
Proof.
  intros Hb Hn Ht Hflag body. unfold JSON_parse, body.
  destruct flag as [ | |[|]| | | | ]; try discriminate Hflag;
    cbn [JSON_stringify default from_option id comma_join fold_left];
    rewrite ?quote_rest; norm_app; rewrite ?quote_rest;
    match goal with
    | |- context [parse_value (S (2 * String.length ?t)) _] =>
        assert (Hfuel : exists k, String.length t = S (S (S k)))
          by (change (quote_chars "image_url") with "image_url"; norm_app;
              cbn [String.length]; eexists; reflexivity);
        destruct Hfuel as [k ->];
        replace (2 * S (S (S k)))%nat with (S (S (S (S (S (S (2 * k)))))))
          by lia
    end;
    rewrite parse_value_object;
    rewrite (parse_members_next _ "image_url" _ _ (JStr b)) by
      (reflexivity || by apply parse_value_string);
    rewrite (parse_members_next _ "food_name" _ _ (JStr n)) by
      (reflexivity || by apply parse_value_string).
  - rewrite (parse_members_last _ "analysis" _ _ (JStr text)) by
      (reflexivity || by apply parse_value_string).
    reflexivity.
  - rewrite (parse_members_next _ "analysis" _ _ (JStr text)) by
      (reflexivity || by apply parse_value_string).
    rewrite (parse_members_last _ "is_safe" _ _ JNull) by
      (reflexivity || exact (parse_value_null _ _)).
    reflexivity.
  - rewrite (parse_members_next _ "analysis" _ _ (JStr text)) by
      (reflexivity || by apply parse_value_string).
    rewrite (parse_members_last _ "is_safe" _ _ (JBool true)) by
      (reflexivity || exact (parse_value_true _ _)).
    reflexivity.
  - rewrite (parse_members_next _ "analysis" _ _ (JStr text)) by
      (reflexivity || by apply parse_value_string).
    rewrite (parse_members_last _ "is_safe" _ _ (JBool false)) by
      (reflexivity || exact (parse_value_false _ _)).
    reflexivity.
Qed.

(** What the server parses is what the client sent.  For a photo and
    texts without characters that need a [\u] escape, and a flag that
    is a boolean, [null] or missing, parsing the serialised log body
    gives back the same four properties (a missing flag is left out),
    and the route stores from that text a row with the same photo, name
    and analysis, the two texts being joined by the tip separator. *)
Theorem log_body_survives_the_wire (b n an tp : string) (flag : JValue)
    (now : string) (d : Db) :
  plain b = true -> plain n = true -> plain an = true -> plain tp = true ->
  wire_flag flag = true ->
  JSON_parse (default "" (JSON_stringify (JObj (text_body b n an tp flag))))
  = Ok (JObj (sent_props (text_body b n an tp flag)))
  /\ (v ← JSON_parse (default "" (JSON_stringify (JObj (text_body b n an tp flag))));
      post_logs now v d)
     = Ok {| user_profile := user_profile d;
             food_logs := food_logs d
                          ++ [ {| log_id := next_log_id d;
                                  image_url := SqlText b;
                                  food_name := SqlText n;
                                  analysis :=
                                    SqlText ((an ++ tip_separator) ++ tp)%string;
                                  is_safe := SqlInt (if truthy flag then 1 else 0);
                                  created_at := now |} ];
             food_logs_seq := next_log_id d |}.
Proof.
  intros Hb Hn Han Htp Hflag.
  assert (Htext : plain ((an ++ tip_separator) ++ tp)%string = true).
  { apply plain_app; [ apply plain_app; [ exact Han | reflexivity ] | exact Htp ]. }
  pose proof (text_members_round_trip b n _ flag Hb Hn Htext Hflag) as Hrt.
  cbn zeta in Hrt. unfold text_body. split; [ exact Hrt | ].
  rewrite Hrt. cbn [mbind Res_bind].
  destruct flag as [ | |[|]| | | | ]; try discriminate Hflag; reflexivity.
Qed.

Lemma log_body_survives_the_wire_witness :
  let b := "data:image/jpeg;base64,QUJD" in
  (plain b = true /\ plain "백미밥" = true /\ plain "..." = true
   /\ wire_flag JUndefined = true)
  /\ JSON_parse (default "" (JSON_stringify
                               (JObj (text_body b "백미밥" "..." "..." JUndefined))))
     = Ok (JObj [("image_url", JStr b); ("food_name", JStr "백미밥");
                 ("analysis", JStr (("..." ++ tip_separator) ++ "...")%string)]).
Proof.
  intros b. split; [ repeat split | ].
  exact (proj1 (log_body_survives_the_wire b "백미밥" "..." "..." JUndefined
                  example_now example_db eq_refl eq_refl eq_refl eq_refl eq_refl)).
Defined.

End WireProps.
